(** * vehicle-manage: the Python detection clients

    A shallow embedding of [python_examples/advanced_ai_server.py]
    ([WebSocketClient], [CameraManager], [LicensePlateAIServer]) and of
    the client of [python_examples/simple_client.py]
    ([SimpleLicensePlateClient]), together with the part of Python's
    [json] module they call ([json.dumps] with its default options,
    [json.loads]).

    Layout:
    - [Py]     Python values ([str] as code points, [int] as [Z], floats
               named by their shortest decimal expansion, lists, dicts);
    - [Json]   [json.dumps] / [json.loads]: the codec, and the two calls
               inside an interpreter, where they meet the depth of its
               stack and the digit limit of [int];
    - [Net]    the transport seen by the clients: sockets, the outcome of
               each [websockets.connect] and [send], the trace of effects;
    - [Ws]     [WebSocketClient], method by method;
    - [Host]   the process around them: the logger of the other classes,
               [random], [datetime.now()], signals, the tasks created;
    - [Simple] [SimpleLicensePlateClient]: [connect], the three sends,
               [disconnect];
    - [Cam]    [CameraManager];
    - [Server] [LicensePlateAIServer]: [initialize], [setup_cameras],
               [setup_signal_handlers], [start_processing],
               [send_status_update], [stop_processing], [shutdown],
               [run];
    - [JsonFacts], [WsFacts], [ClientFacts], [CamFacts], [ServerFacts],
      [SimpleFacts]  what is proved about them.

    What the model leaves out:
    - scheduling: a method runs from call to return, tasks do not
      interleave, and [asyncio.sleep] is an entry of the trace.  What
      the tasks of the server do while [start_processing] waits for
      them is a parameter of [start_processing] and [run]; the loops
      that end only when another task tells them to
      ([process_camera_stream], [periodic_status_update],
      [simulate_processing] of the simple client) are not modelled;
    - the recognizer and the images: [LicensePlateRecognizer] and
      [generate_detection_data] work on [cv2], [PIL] and random floats;
      [python_client_example.py], a sender of such random data, is
      left out with them;
    - the limits of the interpreter outside [json]: the depth of the
      stack and the digit limit of [int] are met by [json.dumps] and
      [json.loads] ([Json.limits], a field of the world); a stack the
      methods themselves exhaust, and memory, are left out;
    - binary floating point: a float is the decimal expansion its
      [repr] prints, so that [float(repr(x)) == x], which Python
      guarantees, holds by construction.  A float literal of a frame
      is kept digit for digit, where [float()] rounds it to the nearest
      binary64 (and to [inf] past the largest): what is proved of the
      frames received asks for a [type] that is no float, the one
      value of a frame the client reads;
    - binary frames: the server sends text frames.
    The sockets are those of the [websockets] client the source was
    written for, whose connection objects have a [closed] property and
    a [close] method that does nothing on a closed connection. *)

From Stdlib Require Import String Ascii ZArith List Bool Lia.
Import ListNotations.
Open Scope Z_scope.
Set Warnings "-register-all".

(* ================================================================== *)
(** ** Python values *)

Module Py.

(** A Python [str] is a sequence of code points. *)
Definition str := list Z.

Definition ord (a : ascii) : Z := Z.of_N (N_of_ascii a).

(** A source literal, as the [str] it denotes (ASCII literals only). *)
Fixpoint lit (s : string) : str :=
  match s with
  | EmptyString => []
  | String a r => ord a :: lit r
  end.

Fixpoint str_eqb (a b : str) : bool :=
  match a, b with
  | [], [] => true
  | x :: a', y :: b' => (x =? y) && str_eqb a' b'
  | _, _ => false
  end.

(** A Python [float].  A finite float is named by the digits and the
    decimal point position of its shortest round-tripping decimal
    expansion, the pair [float.__repr__] computes: the value is
    [0.d1 d2 ... dn * 10 ^ decpt].  Zero is [digits = [0]], [decpt = 1].
    Binary rounding is not modelled: two floats are equal when their
    shortest expansions are. *)
Inductive pyfloat :=
| FNan
| FInf (neg : bool)
| FFinite (neg : bool) (digits : list Z) (decpt : Z).

(** What a [Dict[str, Any]] can hold.  [VObject] stands for any object
    [json] cannot serialise (bytes, a set, an ndarray, ...). *)
Inductive value :=
| VNone
| VBool (b : bool)
| VInt (n : Z)
| VFloat (f : pyfloat)
| VStr (s : str)
| VList (l : list value)
| VDict (d : list (str * value))
| VObject.

(** [d.get(k)]: [None] when the key is absent. *)
Fixpoint dict_get (d : list (str * value)) (k : str) : option value :=
  match d with
  | [] => None
  | (k', v) :: r => if str_eqb k k' then Some v else dict_get r k
  end.

(** [d[k] = v]: an existing key keeps its position. *)
Fixpoint dict_set (d : list (str * value)) (k : str) (v : value)
  : list (str * value) :=
  match d with
  | [] => [(k, v)]
  | (k', v') :: r =>
      if str_eqb k k' then (k', v) :: r else (k', v') :: dict_set r k v
  end.

(** [dict(pairs)]. *)
Definition dict_of_pairs (pairs : list (str * value)) : list (str * value) :=
  fold_left (fun d kv => dict_set d (fst kv) (snd kv)) pairs [].

(** *** Well-formed values *)

(** A Unicode scalar value: a code point that is not a surrogate. *)
Definition scalar (c : Z) : bool :=
  (0 <=? c) && (c <? 0x110000) && negb ((0xD800 <=? c) && (c <=? 0xDFFF)).

Definition is_digit_val (d : Z) : bool := (0 <=? d) && (d <=? 9).

(** The digit strings [float.__repr__] works from: decimal digits with
    no leading and no trailing zero, or the single digit 0 for zero. *)
Definition float_ok (f : pyfloat) : bool :=
  match f with
  | FNan => false
  | FInf _ => true
  | FFinite _ ds dp =>
      forallb is_digit_val ds &&
      (match ds with
       | [d] => (d =? 0) && (dp =? 1)
       | _ => false
       end
       || (negb (hd 0 ds =? 0) && negb (hd 0 (rev ds) =? 0)))
  end.

(** The integer a sequence of decimal digits spells. *)
Definition digits_value (ds : list Z) : Z :=
  fold_left (fun a d => 10 * a + d) ds 0.



Fixpoint distinct_keys (ks : list str) : bool :=
  match ks with
  | [] => true
  | k :: r => negb (existsb (str_eqb k) r) && distinct_keys r
  end.

(** JSON-representable values: text is made of Unicode scalar values,
    numbers are integers or floats other than NaN, containers are lists
    and dicts with (distinct) string keys. *)
Fixpoint json_representable (v : value) : bool :=
  match v with
  | VNone | VBool _ | VInt _ => true
  | VFloat f => float_ok f
  | VStr s => forallb scalar s
  | VList l => forallb json_representable l
  | VDict d =>
      distinct_keys (map fst d) &&
      (fix members (d : list (str * value)) : bool :=
         match d with
         | [] => true
         | (k, x) :: r => forallb scalar k && json_representable x && members r
         end) d
  | VObject => false
  end.

(** What [json.dumps] accepts: everything but [VObject]. *)
Fixpoint serializable (v : value) : bool :=
  match v with
  | VList l => forallb serializable l
  | VDict d =>
      (fix members (d : list (str * value)) : bool :=
         match d with
         | [] => true
         | (_, x) :: r => serializable x && members r
         end) d
  | VObject => false
  | _ => true
  end.

End Py.

(* ================================================================== *)
(** ** The [json] module *)

Module Json.
Import Py.

(** *** [json.dumps]

    The clients call [json.dumps(message)] with no option, so
    [ensure_ascii] is true, [allow_nan] is true and the separators are
    [", "] and [": "]. *)

Definition hex_digit (n : Z) : Z := if n <? 10 then 48 + n else 87 + n.

(** A backslash, u and four hexadecimal digits. *)
Definition u_escape (n : Z) : str :=
  [92; 117; hex_digit (n / 4096); hex_digit ((n / 256) mod 16);
   hex_digit ((n / 16) mod 16); hex_digit (n mod 16)].

(** [replace] of [py_encode_basestring_ascii]: the escape of one
    character matched by [ESCAPE_ASCII], the character itself when it
    is printable ASCII other than the quote and the backslash. *)
Definition escape_char (c : Z) : str :=
  if c =? 92 then [92; 92]
  else if c =? 34 then [92; 34]
  else if c =? 8 then [92; 98]
  else if c =? 12 then [92; 102]
  else if c =? 10 then [92; 110]
  else if c =? 13 then [92; 114]
  else if c =? 9 then [92; 116]
  else if (32 <=? c) && (c <=? 126) then [c]
  else if c <? 0x10000 then u_escape c
  else
    let n := c - 0x10000 in
    u_escape (Z.lor 0xd800 (Z.land (Z.shiftr n 10) 0x3ff))
      ++ u_escape (Z.lor 0xdc00 (Z.land n 0x3ff)).

Definition encode_basestring_ascii (s : str) : str :=
  34 :: flat_map escape_char s ++ [34].

(** Decimal digits of a non-negative integer, most significant first. *)
Fixpoint digits_of_aux (fuel : nat) (n : Z) (acc : list Z) : list Z :=
  match fuel with
  | O => n :: acc
  | S f => if n <? 10 then n :: acc
           else digits_of_aux f (n / 10) (n mod 10 :: acc)
  end.

Definition digits_of (n : Z) : list Z :=
  digits_of_aux (Z.to_nat (Z.log2 n)) n [].

Definition digit_char (d : Z) : Z := 48 + d.

(** [int.__repr__] *)
Definition int_repr (n : Z) : str :=
  if n <? 0 then 45 :: map digit_char (digits_of (- n))
  else map digit_char (digits_of n).

Definition zeros (n : Z) : list Z := repeat 0 (Z.to_nat n).

(** [float.__repr__] (format code ['r'] of [PyOS_double_to_string] with
    [Py_DTSF_ADD_DOT_0]): fixed notation when [-4 < decpt <= 16], with
    [".0"] added to an integral value, otherwise an exponent of at
    least two digits. *)
Definition float_repr_finite (ds : list Z) (dp : Z) : str :=
  if (-4 <? dp) && (dp <=? 16) then
    if dp <=? 0 then
      [48; 46] ++ map digit_char (zeros (- dp) ++ ds)
    else if dp <? Z.of_nat (length ds) then
      map digit_char (firstn (Z.to_nat dp) ds)
        ++ 46 :: map digit_char (skipn (Z.to_nat dp) ds)
    else
      map digit_char (ds ++ zeros (dp - Z.of_nat (length ds))) ++ [46; 48]
  else
    let e := dp - 1 in
    let mant :=
      match ds with
      | [] => []
      | [d] => [digit_char d]
      | d :: r => digit_char d :: 46 :: map digit_char r
      end in
    let ed := digits_of (Z.abs e) in
    mant ++ 101 :: (if e <? 0 then 45 else 43)
         :: map digit_char (if Z.abs e <? 10 then 0 :: ed else ed).

Definition float_repr (f : pyfloat) : str :=
  match f with
  | FNan => lit "NaN"
  | FInf false => lit "Infinity"
  | FInf true => lit "-Infinity"
  | FFinite neg ds dp =>
      (if neg then [45] else []) ++ float_repr_finite ds dp
  end.

(** The text [JSONEncoder.encode] produces for a serialisable value. *)
Fixpoint encode (v : value) : str :=
  match v with
  | VNone => lit "null"
  | VBool true => lit "true"
  | VBool false => lit "false"
  | VInt n => int_repr n
  | VFloat f => float_repr f
  | VStr s => encode_basestring_ascii s
  | VList l =>
      91 :: (fix items (l : list value) : str :=
               match l with
               | [] => []
               | x :: r =>
                   match r with
                   | [] => encode x
                   | _ :: _ => encode x ++ 44 :: 32 :: items r
                   end
               end) l ++ [93]
  | VDict d =>
      123 :: (fix members (d : list (str * value)) : str :=
                match d with
                | [] => []
                | (k, x) :: r =>
                    match r with
                    | [] => encode_basestring_ascii k ++ 58 :: 32 :: encode x
                    | _ :: _ =>
                        encode_basestring_ascii k ++ 58 :: 32 :: encode x
                          ++ 44 :: 32 :: members r
                    end
                end) d ++ [125]
  | VObject => []
  end.

(** [json.dumps(v)]: [None] stands for the [TypeError] raised on an
    object that is not serialisable. *)
Definition dumps (v : value) : option str :=
  if serializable v then Some (encode v) else None.

(** *** [json.loads]

    The scanner of [json.decoder] and [json.scanner].  [None] and [Err]
    stand for [JSONDecodeError] (a [StopIteration] of [scan_once] is
    turned into one by each of its callers). *)

Definition is_ws (c : Z) : bool :=
  (c =? 32) || (c =? 9) || (c =? 10) || (c =? 13).

(** [WHITESPACE.match(s, end).end()] *)
Fixpoint skip_ws (s : str) : str :=
  match s with
  | [] => []
  | c :: r => if is_ws c then skip_ws r else s
  end.

(** [s[idx:idx + len(p)] == p]: the text after the prefix. *)
Fixpoint starts_with (p s : str) : option str :=
  match p with
  | [] => Some s
  | a :: p' =>
      match s with
      | [] => None
      | c :: r => if a =? c then starts_with p' r else None
      end
  end.

Definition hex_val (c : Z) : option Z :=
  if (48 <=? c) && (c <=? 57) then Some (c - 48)
  else if (97 <=? c) && (c <=? 102) then Some (c - 87)
  else if (65 <=? c) && (c <=? 70) then Some (c - 55)
  else None.

(** [_decode_uXXXX] on the four characters after backslash u. *)
Definition hex4 (h1 h2 h3 h4 : Z) : option Z :=
  match hex_val h1, hex_val h2, hex_val h3, hex_val h4 with
  | Some a, Some b, Some c, Some d => Some (((a * 16 + b) * 16 + c) * 16 + d)
  | _, _, _, _ => None
  end.

(** The table [BACKSLASH]. *)
Definition backslash (e : Z) : option Z :=
  if e =? 34 then Some 34
  else if e =? 92 then Some 92
  else if e =? 47 then Some 47
  else if e =? 98 then Some 8
  else if e =? 102 then Some 12
  else if e =? 110 then Some 10
  else if e =? 114 then Some 13
  else if e =? 116 then Some 9
  else None.

Definition is_high (u : Z) : bool := (0xd800 <=? u) && (u <=? 0xdbff).
Definition is_low (u : Z) : bool := (0xdc00 <=? u) && (u <=? 0xdfff).

Definition join_surrogates (u u2 : Z) : Z :=
  0x10000 + Z.lor (Z.shiftl (u - 0xd800) 10) (u2 - 0xdc00).

Definition push (c : Z) (r : option (str * str)) : option (str * str) :=
  match r with
  | Some (s, rest) => Some (c :: s, rest)
  | None => None
  end.

Definition starts_bs_u (s : str) : bool :=
  match s with
  | b :: u :: _ => (b =? 92) && (u =? 117)
  | _ => false
  end.

(** [scanstring(s, end, strict=True)], from the character after the
    opening quote: the string and the text after its closing quote. *)
Fixpoint scanstring (s : str) : option (str * str) :=
  match s with
  | [] => None
  | c :: r =>
      if c =? 34 then Some ([], r)
      else if c =? 92 then
        match r with
        | [] => None
        | e :: r1 =>
            if e =? 117 then
              match r1 with
              | h1 :: h2 :: h3 :: h4 :: r2 =>
                  match hex4 h1 h2 h3 h4 with
                  | None => None
                  | Some uni =>
                      if is_high uni && starts_bs_u r2 then
                        match r2 with
                        | _ :: _ :: g1 :: g2 :: g3 :: g4 :: r3 =>
                            match hex4 g1 g2 g3 g4 with
                            | None => None
                            | Some uni2 =>
                                if is_low uni2
                                then push (join_surrogates uni uni2)
                                          (scanstring r3)
                                else push uni (scanstring r2)
                            end
                        | _ => None
                        end
                      else push uni (scanstring r2)
                  end
              | _ => None
              end
            else
              match backslash e with
              | Some ch => push ch (scanstring r1)
              | None => None
              end
        end
      else if c <? 32 then None
      else push c (scanstring r)
  end.

Definition is_digit (c : Z) : bool := (48 <=? c) && (c <=? 57).

(** The longest run of digits, as digit values. *)
Fixpoint span_digits (s : str) : list Z * str :=
  match s with
  | [] => ([], [])
  | c :: r =>
      if is_digit c
      then let (ds, rest) := span_digits r in (c - 48 :: ds, rest)
      else ([], s)
  end.

(** The optional minus sign of [NUMBER_RE]. *)
Definition scan_sign (s : str) : bool * str :=
  match s with
  | c :: r => if c =? 45 then (true, r) else (false, s)
  | [] => (false, s)
  end.

(** The integer part of [NUMBER_RE]: a zero, or a non-zero digit
    followed by digits. *)
Definition scan_int (s : str) : option (list Z * str) :=
  match s with
  | c :: r =>
      if c =? 48 then Some ([0], r)
      else if is_digit c then Some (span_digits s)
      else None
  | [] => None
  end.

(** The optional fraction of [NUMBER_RE], a point and at least one
    digit: no digits when the group does not match. *)
Definition scan_frac (s : str) : list Z * str :=
  match s with
  | p :: d :: r =>
      if (p =? 46) && is_digit d then span_digits (d :: r) else ([], s)
  | _ => ([], s)
  end.

(** The optional exponent of [NUMBER_RE]: e or E, an optional sign
    and at least one digit. *)
Definition scan_exp (s : str) : option Z * str :=
  match s with
  | e :: r =>
      if (e =? 101) || (e =? 69) then
        let '(sg, r1) :=
          match r with
          | c :: r' =>
              if c =? 45 then (-1, r')
              else if c =? 43 then (1, r') else (1, r)
          | [] => (1, r)
          end in
        match r1 with
        | d :: _ =>
            if is_digit d
            then let (ds, r2) := span_digits r1 in
                 (Some (sg * digits_value ds), r2)
            else (None, s)
        | [] => (None, s)
        end
      else (None, s)
  | [] => (None, s)
  end.

Fixpoint strip_zeros (ds : list Z) : list Z :=
  match ds with
  | d :: r => if d =? 0 then strip_zeros r else ds
  | [] => []
  end.

(** [float(integer + frac + exp)], as the name of the float: the
    significant digits of the literal and where its decimal point
    falls.  (A literal that is not a shortest expansion is named by its
    own digits: rounding to binary64 is not modelled.) *)
Definition float_of_literal (neg : bool) (ip fp : list Z) (e : Z) : pyfloat :=
  let ds := ip ++ fp in
  let lead := strip_zeros ds in
  let digs := rev (strip_zeros (rev lead)) in
  match digs with
  | [] => FFinite neg [0] 1
  | _ :: _ =>
      FFinite neg digs
        (Z.of_nat (List.length ip) + e
         - (Z.of_nat (List.length ds) - Z.of_nat (List.length lead)))
  end.

(** [NUMBER_RE.match] and the choice between [parse_int] and
    [parse_float] in [_scan_once]. *)
Definition match_number (s : str) : option (value * str) :=
  let (neg, s1) := scan_sign s in
  match scan_int s1 with
  | None => None
  | Some (ip, s2) =>
      let (fp, s3) := scan_frac s2 in
      let (ex, s4) := scan_exp s3 in
      match fp, ex with
      | [], None =>
          Some (VInt (if neg then - digits_value ip else digits_value ip), s4)
      | _, None => Some (VFloat (float_of_literal neg ip fp 0), s4)
      | _, Some e => Some (VFloat (float_of_literal neg ip fp e), s4)
      end
  end.

Inductive result (A : Type) :=
| Ok (a : A)
| Err
| OutOfFuel.
Arguments Ok {A} a.
Arguments Err {A}.
Arguments OutOfFuel {A}.

(** The constants and numbers of [_scan_once]. *)
Definition scan_atom (s : str) : result (value * str) :=
  match starts_with (lit "null") s with
  | Some r => Ok (VNone, r)
  | None =>
  match starts_with (lit "true") s with
  | Some r => Ok (VBool true, r)
  | None =>
  match starts_with (lit "false") s with
  | Some r => Ok (VBool false, r)
  | None =>
  match match_number s with
  | Some vr => Ok vr
  | None =>
  match starts_with (lit "NaN") s with
  | Some r => Ok (VFloat FNan, r)
  | None =>
  match starts_with (lit "Infinity") s with
  | Some r => Ok (VFloat (FInf false), r)
  | None =>
  match starts_with (lit "-Infinity") s with
  | Some r => Ok (VFloat (FInf true), r)
  | None => Err
  end end end end end end end.

(** [_scan_once], [JSONArray] and [JSONObject].  [array_items] is the
    [while] loop of [JSONArray], entered at the start of a value;
    [object_members] is the loop of [JSONObject], entered after the
    opening quote of a key.  The three recurse into one another, so
    they share a fuel. *)
Fixpoint scan_once (fuel : nat) (s : str) {struct fuel}
  : result (value * str) :=
  match fuel with
  | O => OutOfFuel
  | S f =>
      match s with
      | [] => Err
      | c :: r =>
          if c =? 34 then
            match scanstring r with
            | Some (x, rest) => Ok (VStr x, rest)
            | None => Err
            end
          else if c =? 123 then
            match skip_ws r with
            | c1 :: r1 =>
                if c1 =? 125 then Ok (VDict [], r1)
                else if c1 =? 34 then
                  match object_members f r1 with
                  | Ok (pairs, rest) => Ok (VDict (dict_of_pairs pairs), rest)
                  | Err => Err
                  | OutOfFuel => OutOfFuel
                  end
                else Err
            | [] => Err
            end
          else if c =? 91 then
            match skip_ws r with
            | c1 :: r1 =>
                if c1 =? 93 then Ok (VList [], r1)
                else
                  match array_items f (c1 :: r1) with
                  | Ok (vs, rest) => Ok (VList vs, rest)
                  | Err => Err
                  | OutOfFuel => OutOfFuel
                  end
            | [] => Err
            end
          else scan_atom s
      end
  end

with array_items (fuel : nat) (s : str) {struct fuel}
  : result (list value * str) :=
  match fuel with
  | O => OutOfFuel
  | S f =>
      match scan_once f s with
      | Ok (v, r) =>
          match skip_ws r with
          | c :: r1 =>
              if c =? 93 then Ok ([v], r1)
              else if c =? 44 then
                match array_items f (skip_ws r1) with
                | Ok (vs, rest) => Ok (v :: vs, rest)
                | Err => Err
                | OutOfFuel => OutOfFuel
                end
              else Err
          | [] => Err
          end
      | Err => Err
      | OutOfFuel => OutOfFuel
      end
  end

with object_members (fuel : nat) (s : str) {struct fuel}
  : result (list (str * value) * str) :=
  match fuel with
  | O => OutOfFuel
  | S f =>
      match scanstring s with
      | None => Err
      | Some (key, r) =>
          match skip_ws r with
          | c :: r1 =>
              if c =? 58 then
                match scan_once f (skip_ws r1) with
                | Ok (v, r2) =>
                    match skip_ws r2 with
                    | c2 :: r3 =>
                        if c2 =? 125 then Ok ([(key, v)], r3)
                        else if c2 =? 44 then
                          match skip_ws r3 with
                          | c3 :: r4 =>
                              if c3 =? 34 then
                                match object_members f r4 with
                                | Ok (kvs, rest) => Ok ((key, v) :: kvs, rest)
                                | Err => Err
                                | OutOfFuel => OutOfFuel
                                end
                              else Err
                          | [] => Err
                          end
                        else Err
                    | [] => Err
                    end
                | Err => Err
                | OutOfFuel => OutOfFuel
                end
              else Err
          | [] => Err
          end
      end
  end.

(** [JSONDecoder.decode]: it refuses a byte order mark, skips leading
    whitespace, scans one value and refuses anything but whitespace
    after it. *)
Definition has_bom (s : str) : bool :=
  match s with
  | c :: _ => c =? 0xfeff
  | [] => false
  end.

Definition decode (s : str) : result value :=
  if has_bom s then Err
  else
    match scan_once (S (2 * List.length s)) (skip_ws s) with
    | Ok (v, rest) =>
        match skip_ws rest with
        | [] => Ok v
        | _ :: _ => Err
        end
    | Err => Err
    | OutOfFuel => OutOfFuel
    end.

(** [json.loads(s)] for a [str]: [None] stands for [JSONDecodeError].
    ([decode] never runs out of fuel: [decode_total] below.) *)
Definition loads (s : str) : option value :=
  match decode s with
  | Ok v => Some v
  | Err | OutOfFuel => None
  end.

(** *** [json] inside the interpreter

    [dumps] and [loads] above are the codec.  Called by a program,
    [json.dumps] and [json.loads] also meet the limits of the
    interpreter, and raise other exceptions than [TypeError] and
    [JSONDecodeError] there:
    - the encoder and the scanner (the C ones, which [json] uses) enter
      a recursive call for every list, dict, array or object, empty or
      not; with no level left on the stack this is a [RecursionError];
    - [int.__repr__] and [int(text)] raise [ValueError] on more digits
      than [sys.get_int_max_str_digits()] (4300 unless it was changed;
      0 stands for no limit; the check is made on more than 640 digits
      only);
    - [JSONDecodeError] is built by Python code, the [TypeError] of
      an object that cannot be serialised is raised by
      [JSONEncoder.default], and [NaN], [Infinity] and [-Infinity] are
      looked up by a call of [parse_constant]: each needs free levels
      on the stack, and [RecursionError] is raised in their place when
      too few are left.
    [max_depth] is the number of levels left when the encoder or the
    scanner starts; [raise_cost], [default_cost] and [constant_cost]
    are what building a [JSONDecodeError], calling [default] and
    calling [parse_constant] (for [NaN] and the infinities) take: 3, 2
    and 1 in CPython 3.11, which counts Python frames and nested C
    calls on one stack.  The [ValueError] of [int] is raised by C code
    and costs nothing. *)
Record limits := {
  max_depth : nat;
  raise_cost : nat;
  default_cost : nat;
  constant_cost : nat;
  max_str_digits : nat
}.

(** [sys.int_info.str_digits_check_threshold] *)
Definition str_digits_check_threshold : nat := 640.

(** The check of [int(text)] on a literal of [n] digits. *)
Definition too_many_digits (lim : limits) (n : nat) : bool :=
  (str_digits_check_threshold <? n)%nat
  && (0 <? max_str_digits lim)%nat
  && (max_str_digits lim <? n)%nat.

(** An [int] is written with more than [n] digits when its absolute
    value is at least [10 ^ n]. *)
Definition has_more_digits (n : nat) (x : Z) : bool :=
  10 ^ Z.of_nat n <=? Z.abs x.

(** The check of [int.__repr__]. *)
Definition too_long (lim : limits) (x : Z) : bool :=
  if has_more_digits str_digits_check_threshold x
  then (0 <? max_str_digits lim)%nat
       && has_more_digits (max_str_digits lim) x
  else false.

(** The exceptions of [json.dumps] and [json.loads]: [TypeError],
    [JSONDecodeError], [RecursionError], [ValueError]. *)
Inductive error :=
| NotSerializable
| Malformed
| TooDeep
| TooManyDigits.

Inductive reply (A : Type) :=
| Returns (a : A)
| Raises (e : error).
Arguments Returns {A} a.
Arguments Raises {A} e.

(** An exception that takes [cost] levels to build, raised where
    [room] levels are left. *)
Definition built (cost room : nat) (e : error) : error :=
  if (cost <=? room)%nat then e else TooDeep.

(** The first exception the encoder meets: it writes the value from
    left to right and stops there.  [depth] is the number of levels
    left. *)
Fixpoint first_failure (lim : limits) (depth : nat) (v : value) {struct v}
  : option error :=
  match v with
  | VNone | VBool _ | VFloat _ | VStr _ => None
  | VInt n => if too_long lim n then Some TooManyDigits else None
  | VList l =>
      match depth with
      | O => Some TooDeep
      | S d =>
          (fix items (l : list value) : option error :=
             match l with
             | [] => None
             | x :: r =>
                 match first_failure lim d x with
                 | Some e => Some e
                 | None => items r
                 end
             end) l
      end
  | VDict m =>
      match depth with
      | O => Some TooDeep
      | S d =>
          (fix members (m : list (str * value)) : option error :=
             match m with
             | [] => None
             | (_, x) :: r =>
                 match first_failure lim d x with
                 | Some e => Some e
                 | None => members r
                 end
             end) m
      end
  | VObject => Some (built (default_cost lim) depth NotSerializable)
  end.

(** [json.dumps(v)] in an interpreter with the limits [lim]. *)
Definition dumps_within (lim : limits) (v : value) : reply str :=
  match first_failure lim (max_depth lim) v with
  | Some e => Raises e
  | None => Returns (encode v)
  end.

(** What the scanner answers: a value, [StopIteration] (no value
    starts here; [raw_decode] turns it into a [JSONDecodeError]), or an
    exception. *)
Inductive scanned (A : Type) :=
| Scanned (a : A)
| NoValue
| Refused (e : error)
| Starved.
Arguments Scanned {A} a.
Arguments NoValue {A}.
Arguments Refused {A} e.
Arguments Starved {A}.

(** [_match_number_unicode]: [int(text)] checks the number of digits,
    [float(text)] does not. *)
Definition number_within (lim : limits) (s : str)
  : option (scanned (value * str)) :=
  let (neg, s1) := scan_sign s in
  match scan_int s1 with
  | None => None
  | Some (ip, s2) =>
      let (fp, s3) := scan_frac s2 in
      let (ex, s4) := scan_exp s3 in
      match fp, ex with
      | [], None =>
          if too_many_digits lim (List.length ip)
          then Some (Refused TooManyDigits)
          else Some (Scanned
                       (VInt (if neg then - digits_value ip
                              else digits_value ip), s4))
      | _, None => Some (Scanned (VFloat (float_of_literal neg ip fp 0), s4))
      | _, Some e => Some (Scanned (VFloat (float_of_literal neg ip fp e), s4))
      end
  end.

(** [parse_constant(name)] with [depth] levels left. *)
Definition constant_within (lim : limits) (depth : nat) (f : pyfloat)
  (rest : str) : scanned (value * str) :=
  if (constant_cost lim <=? depth)%nat then Scanned (VFloat f, rest)
  else Refused TooDeep.

(** The constants and numbers of [scan_once_unicode]. *)
Definition atom_within (lim : limits) (depth : nat) (s : str)
  : scanned (value * str) :=
  match starts_with (lit "null") s with
  | Some r => Scanned (VNone, r)
  | None =>
  match starts_with (lit "true") s with
  | Some r => Scanned (VBool true, r)
  | None =>
  match starts_with (lit "false") s with
  | Some r => Scanned (VBool false, r)
  | None =>
  match number_within lim s with
  | Some vr => vr
  | None =>
  match starts_with (lit "NaN") s with
  | Some r => constant_within lim depth FNan r
  | None =>
  match starts_with (lit "Infinity") s with
  | Some r => constant_within lim depth (FInf false) r
  | None =>
  match starts_with (lit "-Infinity") s with
  | Some r => constant_within lim depth (FInf true) r
  | None => NoValue
  end end end end end end end.

(** [scan_once_unicode], [_parse_array_unicode] and
    [_parse_object_unicode] with [depth] levels left: [scan_once],
    [array_items] and [object_members] above, where entering an array
    or an object takes a level, and where the errors of the scanner
    are [JSONDecodeError]s built on the spot ([raise_errmsg]), but for
    the missing value, which is a [StopIteration]. *)
Fixpoint scan_within (lim : limits) (fuel depth : nat) (s : str)
  {struct fuel} : scanned (value * str) :=
  match fuel with
  | O => Starved
  | S f =>
      match s with
      | [] => NoValue
      | c :: r =>
          if c =? 34 then
            match scanstring r with
            | Some (x, rest) => Scanned (VStr x, rest)
            | None => Refused (built (raise_cost lim) depth Malformed)
            end
          else if c =? 123 then
            match depth with
            | O => Refused TooDeep
            | S d =>
                match skip_ws r with
                | c1 :: r1 =>
                    if c1 =? 125 then Scanned (VDict [], r1)
                    else if c1 =? 34 then
                      match members_within lim f d r1 with
                      | Scanned (pairs, rest) =>
                          Scanned (VDict (dict_of_pairs pairs), rest)
                      | NoValue => NoValue
                      | Refused e => Refused e
                      | Starved => Starved
                      end
                    else Refused (built (raise_cost lim) d Malformed)
                | [] => Refused (built (raise_cost lim) d Malformed)
                end
            end
          else if c =? 91 then
            match depth with
            | O => Refused TooDeep
            | S d =>
                match skip_ws r with
                | c1 :: r1 =>
                    if c1 =? 93 then Scanned (VList [], r1)
                    else
                      match items_within lim f d (c1 :: r1) with
                      | Scanned (vs, rest) => Scanned (VList vs, rest)
                      | NoValue => NoValue
                      | Refused e => Refused e
                      | Starved => Starved
                      end
                | [] => NoValue
                end
            end
          else atom_within lim depth s
      end
  end

with items_within (lim : limits) (fuel depth : nat) (s : str)
  {struct fuel} : scanned (list value * str) :=
  match fuel with
  | O => Starved
  | S f =>
      match scan_within lim f depth s with
      | Scanned (v, r) =>
          match skip_ws r with
          | c :: r1 =>
              if c =? 93 then Scanned ([v], r1)
              else if c =? 44 then
                match items_within lim f depth (skip_ws r1) with
                | Scanned (vs, rest) => Scanned (v :: vs, rest)
                | NoValue => NoValue
                | Refused e => Refused e
                | Starved => Starved
                end
              else Refused (built (raise_cost lim) depth Malformed)
          | [] => Refused (built (raise_cost lim) depth Malformed)
          end
      | NoValue => NoValue
      | Refused e => Refused e
      | Starved => Starved
      end
  end

with members_within (lim : limits) (fuel depth : nat) (s : str)
  {struct fuel} : scanned (list (str * value) * str) :=
  match fuel with
  | O => Starved
  | S f =>
      match scanstring s with
      | None => Refused (built (raise_cost lim) depth Malformed)
      | Some (key, r) =>
          match skip_ws r with
          | c :: r1 =>
              if c =? 58 then
                match scan_within lim f depth (skip_ws r1) with
                | Scanned (v, r2) =>
                    match skip_ws r2 with
                    | c2 :: r3 =>
                        if c2 =? 125 then Scanned ([(key, v)], r3)
                        else if c2 =? 44 then
                          match skip_ws r3 with
                          | c3 :: r4 =>
                              if c3 =? 34 then
                                match members_within lim f depth r4 with
                                | Scanned (kvs, rest) =>
                                    Scanned ((key, v) :: kvs, rest)
                                | NoValue => NoValue
                                | Refused e => Refused e
                                | Starved => Starved
                                end
                              else
                                Refused (built (raise_cost lim) depth Malformed)
                          | [] =>
                              Refused (built (raise_cost lim) depth Malformed)
                          end
                        else Refused (built (raise_cost lim) depth Malformed)
                    | [] => Refused (built (raise_cost lim) depth Malformed)
                    end
                | NoValue => NoValue
                | Refused e => Refused e
                | Starved => Starved
                end
              else Refused (built (raise_cost lim) depth Malformed)
          | [] => Refused (built (raise_cost lim) depth Malformed)
          end
      end
  end.

(** [json.loads(s)] for a [str] in an interpreter with the limits
    [lim].  [loads] calls [decode], [decode] calls [raw_decode], which
    calls the scanner: each has one level more than the next to build
    its [JSONDecodeError].  (The scanner never runs out of fuel:
    [loads_within_fuel] below.) *)
Definition loads_within (lim : limits) (s : str) : reply value :=
  if has_bom s then Raises (built (raise_cost lim) (3 + max_depth lim) Malformed)
  else
    match scan_within lim (S (2 * List.length s)) (max_depth lim) (skip_ws s) with
    | Scanned (v, rest) =>
        match skip_ws rest with
        | [] => Returns v
        | _ :: _ =>
            Raises (built (raise_cost lim) (2 + max_depth lim) Malformed)
        end
    | NoValue => Raises (built (raise_cost lim) (1 + max_depth lim) Malformed)
    | Refused e => Raises e
    | Starved => Raises Malformed
    end.

(** The loops of [encode], by name. *)
Definition encode_items : list value -> str :=
  fix items (l : list value) : str :=
    match l with
    | [] => []
    | x :: r =>
        match r with
        | [] => encode x
        | _ :: _ => encode x ++ 44 :: 32 :: items r
        end
    end.

Definition encode_members : list (str * value) -> str :=
  fix members (d : list (str * value)) : str :=
    match d with
    | [] => []
    | (k, x) :: r =>
        match r with
        | [] => encode_basestring_ascii k ++ 58 :: 32 :: encode x
        | _ :: _ =>
            encode_basestring_ascii k ++ 58 :: 32 :: encode x
              ++ 44 :: 32 :: members r
        end
    end.

(** What may follow a number in the text without being read as part of
    it. *)
Definition ends_token (rest : str) : bool :=
  match rest with
  | [] => true
  | c :: _ => negb (is_digit c || (c =? 46) || (c =? 101) || (c =? 69))
  end.

(** *** Notions the proofs about the scanner are stated with *)

Definition no_digit_ahead (rest : str) : bool :=
  match rest with
  | [] => true
  | c :: _ => negb (is_digit c)
  end.

(** [match_number] after the sign. *)
Definition number_body (neg : bool) (s1 : str) : option (value * str) :=
  match scan_int s1 with
  | None => None
  | Some (ip, s2) =>
      let (fp, s3) := scan_frac s2 in
      let (ex, s4) := scan_exp s3 in
      match fp, ex with
      | [], None =>
          Some (VInt (if neg then - digits_value ip else digits_value ip), s4)
      | _, None => Some (VFloat (float_of_literal neg ip fp 0), s4)
      | _, Some e => Some (VFloat (float_of_literal neg ip fp e), s4)
      end
  end.

Definition numeric_head (s : str) : bool :=
  match s with
  | c :: _ => is_digit c || (c =? 45)
  | [] => false
  end.

(** [v], written before any text [rest] that ends a token, is read
    back as [v], leaving [rest]. *)
Definition reads_back (v : value) : Prop :=
  forall f rest,
    ends_token rest = true ->
    (2 * List.length (encode v ++ rest) < f)%nat ->
    scan_once f (encode v ++ rest) = Ok (v, rest).

Definition item_tail (l : list value) : str :=
  match l with
  | [] => []
  | _ :: _ => 44 :: 32 :: encode_items l
  end.

Definition member_tail (d : list (str * value)) : str :=
  match d with
  | [] => []
  | _ :: _ => 44 :: 32 :: encode_members d
  end.

Definition members_ok : list (str * value) -> bool :=
  fix members (d : list (str * value)) : bool :=
    match d with
    | [] => true
    | (k, x) :: r => forallb scalar k && json_representable x && members r
    end.

(** *** Notions the facts about the limits are stated with *)

(** The loops of [first_failure], by name. *)
Definition failure_items (lim : limits) (d : nat) : list value -> option error :=
  fix items (l : list value) : option error :=
    match l with
    | [] => None
    | x :: r =>
        match first_failure lim d x with
        | Some e => Some e
        | None => items r
        end
    end.

Definition failure_members (lim : limits) (d : nat)
  : list (str * value) -> option error :=
  fix members (m : list (str * value)) : option error :=
    match m with
    | [] => None
    | (_, x) :: r =>
        match first_failure lim d x with
        | Some e => Some e
        | None => members r
        end
    end.

(** A value within the limits: no [int] of too many digits, and no
    list or dict further down than [depth] levels. *)
Fixpoint fits (lim : limits) (depth : nat) (v : value) {struct v} : bool :=
  match v with
  | VInt n => negb (too_long lim n)
  | VList l =>
      match depth with
      | O => false
      | S d => forallb (fits lim d) l
      end
  | VDict m =>
      match depth with
      | O => false
      | S d =>
          (fix members (m : list (str * value)) : bool :=
             match m with
             | [] => true
             | (_, x) :: r => fits lim d x && members r
             end) m
      end
  | _ => true
  end.

Definition fit_members (lim : limits) (d : nat) : list (str * value) -> bool :=
  fix members (m : list (str * value)) : bool :=
    match m with
    | [] => true
    | (_, x) :: r => fits lim d x && members r
    end.

(** A value [json.dumps] writes in an interpreter with the limits
    [lim]. *)
Definition encodable (lim : limits) (v : value) : bool :=
  serializable v && fits lim (max_depth lim) v.

(** What the scanner does not answer: the [TypeError] of the
    encoder. *)
Definition decodes {A} (r : scanned A) : Prop :=
  match r with
  | Refused NotSerializable => False
  | _ => True
  end.

(** The scanner within limits and the scanner of the codec agree:
    where the first one reads a value, so does the second, and where
    it raises [JSONDecodeError] the second one refuses the text. *)
Definition agrees {A} (r : scanned A) (u : result A) : Prop :=
  match r with
  | Scanned a => u = Ok a
  | NoValue | Refused Malformed => u = Err
  | Refused _ => True
  | Starved => u = OutOfFuel
  end.

End Json.


(* ================================================================== *)
(** ** The transport and the effects of the clients *)

Module Net.
Import Py.

(** The exceptions the clients can meet.  [OSError] stands for every
    transport error other than a closed connection (refused, DNS, TLS,
    handshake, timeout); [ValueError] for a [ValueError] that is not a
    [JSONDecodeError].  All are subclasses of [Exception] except
    [CancelledError]. *)
Inductive exn :=
| ConnectionClosed
| OSError (errno : Z)
| JSONDecodeError
| TypeError
| AttributeError
| RecursionError
| ValueError
| CancelledError.

(** [isinstance(e, Exception)] *)
Definition is_Exception (e : exn) : bool :=
  match e with
  | CancelledError => false
  | _ => true
  end.

Inductive level := DEBUG | INFO | WARNING | ERROR.

(** The calls to [logger], one constructor per message of the source. *)
Inductive logmsg :=
| MsgConnecting (url : str)
| MsgConnected
| MsgConnectionFailed (e : exn)
| MsgNotConnected
| MsgSent (message_type : str)
| MsgSendError (e : exn)
| MsgReceived (command_type : option value)
| MsgInvalidJSON
| MsgClosedByServer
| MsgListenError (e : exn)
| MsgHandling (command_type : option value)
| MsgDisconnected
| MsgReconnecting (attempt max delay : Z)
| MsgMaxAttempts.

(** What a client does to the outside, in order. *)
Inductive event :=
| EvConnect (url : str)
| EvSend (sock : nat) (text : str)
| EvClose (sock : nat)
| EvSleep (delay : Z)
| EvLog (lvl : level) (msg : logmsg).

(** The world a client runs in.  [connect_outcome n] is what the
    [n]-th call of [websockets.connect] does ([None]: the handshake
    succeeds), [send_outcome n] what the [n]-th [send] on an open socket
    does.  [sockets] holds the connection objects, a socket being its
    index and its [closed] flag; [clock] is what
    [datetime.now().isoformat()] returns; [limits] are the limits of
    the interpreter at the calls of [json]. *)
Record world := {
  connect_outcome : nat -> option exn;
  send_outcome : nat -> option exn;
  connects : nat;
  sends : nat;
  sockets : list bool;
  clock : str;
  limits : Json.limits;
  trace : list event
}.

Definition emit (ev : event) (w : world) : world :=
  {| connect_outcome := connect_outcome w; send_outcome := send_outcome w;
     connects := connects w; sends := sends w; sockets := sockets w;
     clock := clock w; limits := limits w; trace := trace w ++ [ev] |}.

Definition with_sockets (l : list bool) (w : world) : world :=
  {| connect_outcome := connect_outcome w; send_outcome := send_outcome w;
     connects := connects w; sends := sends w; sockets := l;
     clock := clock w; limits := limits w; trace := trace w |}.

Definition count_connect (w : world) : world :=
  {| connect_outcome := connect_outcome w; send_outcome := send_outcome w;
     connects := S (connects w); sends := sends w; sockets := sockets w;
     clock := clock w; limits := limits w; trace := trace w |}.

Definition count_send (w : world) : world :=
  {| connect_outcome := connect_outcome w; send_outcome := send_outcome w;
     connects := connects w; sends := S (sends w); sockets := sockets w;
     clock := clock w; limits := limits w; trace := trace w |}.

(** [sock.closed]; a socket that was never opened counts as closed. *)
Definition closed (w : world) (sock : nat) : bool := nth sock (sockets w) true.

Fixpoint set_closed (l : list bool) (sock : nat) : list bool :=
  match l, sock with
  | [], _ => []
  | _ :: r, O => true :: r
  | b :: r, S n => b :: set_closed r n
  end.

Definition mark_closed (sock : nat) (w : world) : world :=
  with_sockets (set_closed (sockets w) sock) w.

(** *** Computations of a client

    A method of a client with state [S] takes the client and the world
    and gives back both, with a result or a raised exception. *)
Inductive outcome (A : Type) :=
| Returned (a : A)
| Raised (e : exn).
Arguments Returned {A} a.
Arguments Raised {A} e.

Definition M (S A : Type) : Type := S -> world -> outcome A * S * world.

Definition ret {S A} (a : A) : M S A := fun s w => (Returned a, s, w).

Definition raise {S A} (e : exn) : M S A := fun s w => (Raised e, s, w).

Definition bind {S A B} (m : M S A) (k : A -> M S B) : M S B :=
  fun s w =>
    match m s w with
    | (Returned a, s', w') => k a s' w'
    | (Raised e, s', w') => (Raised e, s', w')
    end.

(** [try: body except ...]: [clauses e] is the handler of the first
    [except] clause that matches [e], if any. *)
Definition try_except {S A} (body : M S A) (clauses : exn -> option (M S A))
  : M S A :=
  fun s w =>
    match body s w with
    | (Returned a, s', w') => (Returned a, s', w')
    | (Raised e, s', w') =>
        match clauses e with
        | Some handler => handler s' w'
        | None => (Raised e, s', w')
        end
    end.

(** [except Exception as e: handler] *)
Definition except_Exception {S A} (handler : exn -> M S A)
  : exn -> option (M S A) :=
  fun e => if is_Exception e then Some (handler e) else None.

Definition self {S} : M S S := fun s w => (Returned s, s, w).

Definition update {S} (f : S -> S) : M S unit :=
  fun s w => (Returned tt, f s, w).

Definition effect {S} (f : world -> world) : M S unit :=
  fun s w => (Returned tt, s, f w).

Definition log {S} (lvl : level) (msg : logmsg) : M S unit :=
  effect (emit (EvLog lvl msg)).

(** [datetime.now().isoformat()] *)
Definition now_isoformat {S} : M S str :=
  fun s w => (Returned (clock w), s, w).

(** [await asyncio.sleep(delay)] *)
Definition asyncio_sleep {S} (delay : Z) : M S unit :=
  effect (emit (EvSleep delay)).

(** [await websockets.connect(url, ...)]: a new open socket, or the
    exception of the failed attempt. *)
Definition websockets_connect {S} (url : str) : M S nat :=
  fun s w =>
    let w1 := count_connect (emit (EvConnect url) w) in
    match connect_outcome w (connects w) with
    | None =>
        (Returned (List.length (sockets w)), s,
         with_sockets (sockets w ++ [false]) w1)
    | Some e => (Raised e, s, w1)
    end.

(** [sock.closed] *)
Definition ws_closed {S} (sock : nat) : M S bool :=
  fun s w => (Returned (closed w sock), s, w).

(** [await sock.send(text)]: [ConnectionClosed] on a closed socket;
    otherwise the frame is written or the transport raises.  A
    connection that raised [ConnectionClosed] is closed. *)
Definition ws_send {S} (sock : nat) (text : str) : M S unit :=
  fun s w =>
    if closed w sock then (Raised ConnectionClosed, s, w)
    else
      match send_outcome w (sends w) with
      | None => (Returned tt, s, count_send (emit (EvSend sock text) w))
      | Some ConnectionClosed =>
          (Raised ConnectionClosed, s, mark_closed sock (count_send w))
      | Some e => (Raised e, s, count_send w)
      end.

(** [await sock.close()]: nothing happens on a connection that is
    already closed. *)
Definition ws_close {S} (sock : nat) : M S unit :=
  fun s w =>
    if closed w sock then (Returned tt, s, w)
    else (Returned tt, s, mark_closed sock (emit (EvClose sock) w)).

Definition outcome_of {S A} (r : outcome A * S * world) : outcome A :=
  fst (fst r).
Definition client_of {S A} (r : outcome A * S * world) : S := snd (fst r).
Definition world_of {S A} (r : outcome A * S * world) : world := snd r.

(** The time slept along a trace. *)
Fixpoint elapsed_sleep (t : list event) : Z :=
  match t with
  | [] => 0
  | EvSleep d :: r => d + elapsed_sleep r
  | _ :: r => elapsed_sleep r
  end.

Definition is_log (ev : event) : bool :=
  match ev with
  | EvLog _ _ => true
  | _ => false
  end.

(** The exceptions of [json], among those of the clients. *)
Definition json_exn (e : Json.error) : exn :=
  match e with
  | Json.NotSerializable => TypeError
  | Json.Malformed => JSONDecodeError
  | Json.TooDeep => RecursionError
  | Json.TooManyDigits => ValueError
  end.

(** [json.dumps(v)] inside a method. *)
Definition json_dumps {S} (v : value) : M S str :=
  fun s w =>
    match Json.dumps_within (limits w) v with
    | Json.Returns text => (Returned text, s, w)
    | Json.Raises e => (Raised (json_exn e), s, w)
    end.

(** [json.loads(text)] inside a method. *)
Definition json_loads {S} (text : str) : M S value :=
  fun s w =>
    match Json.loads_within (limits w) text with
    | Json.Returns v => (Returned v, s, w)
    | Json.Raises e => (Raised (json_exn e), s, w)
    end.

(** [command.get(key)]: only a dict has the method. *)
Definition py_get {S} (command : value) (key : str) : M S (option value) :=
  match command with
  | VDict d => ret (dict_get d key)
  | _ => raise AttributeError
  end.

End Net.

Declare Scope py_scope.
Delimit Scope py_scope with py.
Notation "x <- m ;; k" := (Net.bind m (fun x => k))
  (at level 61, m at next level, right associativity) : py_scope.
Notation "m ;; k" := (Net.bind m (fun _ => k))
  (at level 61, right associativity) : py_scope.
Open Scope py_scope.

(* ================================================================== *)
(** ** [WebSocketClient] (advanced_ai_server.py) *)

Module Ws.
Import Py Net.

Record WebSocketClient := {
  server_url : str;
  websocket : option nat;
  running : bool;
  reconnect_attempts : Z;
  max_reconnect_attempts : Z;
  reconnect_delay : Z
}.

(** [__init__] *)
Definition init (url : str) : WebSocketClient :=
  {| server_url := url; websocket := None; running := false;
     reconnect_attempts := 0; max_reconnect_attempts := 10;
     reconnect_delay := 5 |}.

Definition set_websocket (h : option nat) (c : WebSocketClient) :=
  {| server_url := server_url c; websocket := h; running := running c;
     reconnect_attempts := reconnect_attempts c;
     max_reconnect_attempts := max_reconnect_attempts c;
     reconnect_delay := reconnect_delay c |}.

Definition set_running (b : bool) (c : WebSocketClient) :=
  {| server_url := server_url c; websocket := websocket c; running := b;
     reconnect_attempts := reconnect_attempts c;
     max_reconnect_attempts := max_reconnect_attempts c;
     reconnect_delay := reconnect_delay c |}.

Definition set_reconnect_attempts (n : Z) (c : WebSocketClient) :=
  {| server_url := server_url c; websocket := websocket c;
     running := running c; reconnect_attempts := n;
     max_reconnect_attempts := max_reconnect_attempts c;
     reconnect_delay := reconnect_delay c |}.

Definition Task := M WebSocketClient.

Definition connect : Task bool :=
  try_except
    (c <- self ;;
     log INFO (MsgConnecting (server_url c)) ;;
     sock <- websockets_connect (server_url c) ;;
     update (set_websocket (Some sock)) ;;
     update (set_running true) ;;
     update (set_reconnect_attempts 0) ;;
     log INFO MsgConnected ;;
     ret true)
    (except_Exception (fun e =>
       log ERROR (MsgConnectionFailed e) ;;
       ret false)).

(** [not self.websocket or self.websocket.closed] *)
Definition not_connected : Task bool :=
  c <- self ;;
  match websocket c with
  | None => ret true
  | Some sock => ws_closed sock
  end.

(** [await self.websocket.send(text)] *)
Definition websocket_send (text : str) : Task unit :=
  c <- self ;;
  match websocket c with
  | None => raise AttributeError
  | Some sock => ws_send sock text
  end.

(** The dict [send_message] builds. *)
Definition envelope (message_type : str) (data : value) (timestamp : str)
  : value :=
  VDict [(lit "type", VStr message_type);
         (lit "data", data);
         (lit "timestamp", VStr timestamp)].

Definition send_message (message_type : str) (data : value) : Task bool :=
  down <- not_connected ;;
  ok <- (if down
         then log WARNING MsgNotConnected ;; connect
         else ret true) ;;
  if negb ok then ret false
  else
    ts <- now_isoformat ;;
    let message := envelope message_type data ts in
    try_except
      (text <- json_dumps message ;;
       websocket_send text ;;
       log DEBUG (MsgSent message_type) ;;
       ret true)
      (except_Exception (fun e =>
         log ERROR (MsgSendError e) ;;
         ret false)).

Definition send_license_plate_detection (detection_data : value) : Task bool :=
  send_message (lit "license_plate_detected") detection_data.

Definition send_processing_status (status_data : value) : Task bool :=
  send_message (lit "processing_status") status_data.

Definition send_error (error_data : value) : Task bool :=
  send_message (lit "error") error_data.

Definition handle_command (command : value) : Task unit :=
  command_type <- py_get command (lit "type") ;;
  log INFO (MsgHandling command_type) ;;
  ret tt.

(** How the iteration [async for message in self.websocket] ends: the
    connection was closed normally, or an exception is raised. *)
Inductive stream_end :=
| CleanClose
| Abort (e : exn).

(** The body of the [async for] loop, on one frame. *)
Definition on_message (message : str) : Task unit :=
  try_except
    (command <- json_loads message ;;
     command_type <- py_get command (lit "type") ;;
     log INFO (MsgReceived command_type) ;;
     handle_command command)
    (fun e =>
       match e with
       | JSONDecodeError => Some (log ERROR MsgInvalidJSON)
       | _ => None
       end).

(** The [async for] loop over the frames the socket delivers; the
    socket is closed when the iteration ends because the connection
    was closed. *)
Fixpoint receive (sock : nat) (frames : list str) (fin : stream_end)
  : Task unit :=
  match frames with
  | [] =>
      match fin with
      | CleanClose => effect (mark_closed sock)
      | Abort ConnectionClosed =>
          effect (mark_closed sock) ;; raise ConnectionClosed
      | Abort e => raise e
      end
  | message :: rest =>
      on_message message ;;
      receive sock rest fin
  end.

(** [listen_for_commands], given the frames the server sends and the
    way the connection ends.  Iterating over [None] raises
    [TypeError]. *)
Definition listen_for_commands (frames : list str) (fin : stream_end)
  : Task unit :=
  try_except
    (c <- self ;;
     match websocket c with
     | None => raise TypeError
     | Some sock => receive sock frames fin
     end)
    (fun e =>
       match e with
       | ConnectionClosed =>
           Some (log WARNING MsgClosedByServer ;;
                 update (set_running false))
       | CancelledError => None
       | _ =>
           Some (log ERROR (MsgListenError e) ;;
                 update (set_running false))
       end).

Definition disconnect : Task unit :=
  update (set_running false) ;;
  c <- self ;;
  match websocket c with
  | None => ret tt
  | Some sock =>
      is_closed <- ws_closed sock ;;
      if is_closed then ret tt
      else (ws_close sock ;; log INFO MsgDisconnected)
  end.

Definition reconnect : Task bool :=
  c <- self ;;
  if reconnect_attempts c <? max_reconnect_attempts c then
    update (set_reconnect_attempts (reconnect_attempts c + 1)) ;;
    c <- self ;;
    let delay := reconnect_delay c * reconnect_attempts c in
    log INFO (MsgReconnecting (reconnect_attempts c)
                              (max_reconnect_attempts c) delay) ;;
    asyncio_sleep delay ;;
    connect
  else
    log ERROR MsgMaxAttempts ;;
    ret false.

(** [n] calls of [reconnect] in a row, with their results. *)
Fixpoint reconnect_times (n : nat) : Task (list bool) :=
  match n with
  | O => ret []
  | S n' =>
      b <- reconnect ;;
      bs <- reconnect_times n' ;;
      ret (b :: bs)
  end.

(** *** Notions the facts about the client are stated with *)

(** The test [send_message] starts with. *)
Definition down (c : WebSocketClient) (w : world) : bool :=
  match websocket c with
  | None => true
  | Some sock => closed w sock
  end.

Definition connect_failed (e : exn) (c : WebSocketClient) (w : world) : world :=
  emit (EvLog ERROR (MsgConnectionFailed e))
    (count_connect
       (emit (EvConnect (server_url c))
          (emit (EvLog INFO (MsgConnecting (server_url c))) w))).

Definition connect_succeeded (c : WebSocketClient) (w : world) : world :=
  emit (EvLog INFO MsgConnected)
    (with_sockets (sockets w ++ [false])
       (count_connect
          (emit (EvConnect (server_url c))
             (emit (EvLog INFO (MsgConnecting (server_url c))) w)))).

Definition connected_client (c : WebSocketClient) (w : world) : WebSocketClient :=
  set_reconnect_attempts 0
    (set_running true (set_websocket (Some (List.length (sockets w))) c)).

(** Sending on an open socket. *)
Definition frame_sent (sock : nat) (ty text : str) (w : world) : world :=
  emit (EvLog DEBUG (MsgSent ty)) (count_send (emit (EvSend sock text) w)).

Definition backoff (k : Z) (c : WebSocketClient) (w : world) : world :=
  emit (EvSleep (reconnect_delay c * k))
    (emit (EvLog INFO (MsgReconnecting k (max_reconnect_attempts c)
                                       (reconnect_delay c * k))) w).

Definition socket_closed (sock : nat) (w : world) : world :=
  emit (EvLog INFO MsgDisconnected) (mark_closed sock (emit (EvClose sock) w)).

(** [send_message] after its connection check. *)
Definition transmit (message_type : str) (data : value) : Task bool :=
  ts <- now_isoformat ;;
  let message := envelope message_type data ts in
  try_except
    (text <- json_dumps message ;;
     websocket_send text ;;
     log DEBUG (MsgSent message_type) ;;
     ret true)
    (except_Exception (fun e =>
       log ERROR (MsgSendError e) ;;
       ret false)).

(** [listen_for_commands] on a client that has a socket: the receive
    loop, then the [except] clauses. *)
Definition listen_finish (r : outcome unit * WebSocketClient * world)
  : outcome unit * WebSocketClient * world :=
  match r with
  | (Returned a, c', w') => (Returned a, c', w')
  | (Raised ConnectionClosed, c', w') =>
      (Returned tt, set_running false c',
       emit (EvLog WARNING MsgClosedByServer) w')
  | (Raised CancelledError, c', w') => (Raised CancelledError, c', w')
  | (Raised e, c', w') =>
      (Returned tt, set_running false c',
       emit (EvLog ERROR (MsgListenError e)) w')
  end.



(** The world after the events [evs]. *)
Definition emits (evs : list event) (w : world) : world :=
  fold_left (fun w ev => emit ev w) evs w.

(** *** Notions for whole streams of frames *)

(** A command type whose text in the log is the value itself: no
    type, [None], a bool, an int or a string.  (A float is printed
    from its binary value, which the model does not have; a list or a
    dict is printed by a recursion of its own.) *)
Definition plain (command_type : option value) : bool :=
  match command_type with
  | None => true
  | Some (VNone | VBool _ | VInt _ | VStr _) => true
  | Some _ => false
  end.

(** A frame the loop gets past: one on which [json.loads] raises
    [JSONDecodeError], or one it reads as an object (with a plain
    type). *)
Definition is_skipped_or_object (lim : Json.limits) (frame : str) : bool :=
  match Json.loads_within lim frame with
  | Json.Raises Json.Malformed => true
  | Json.Returns (VDict d) => plain (dict_get d (lit "type"))
  | _ => false
  end.

(** The two log lines of a command. *)
Definition command_lines (command_type : option value) : list event :=
  [EvLog INFO (MsgReceived command_type);
   EvLog INFO (MsgHandling command_type)].

(** The log lines such a frame leaves. *)
Definition frame_lines (lim : Json.limits) (frame : str) : list event :=
  match Json.loads_within lim frame with
  | Json.Raises Json.Malformed => [EvLog ERROR MsgInvalidJSON]
  | Json.Returns (VDict d) => command_lines (dict_get d (lit "type"))
  | _ => []
  end.

(** The log lines of a stream of such frames. *)
Definition stream_lines (lim : Json.limits) (frames : list str)
  : list event :=
  flat_map (frame_lines lim) frames.

(** How [listen_for_commands] leaves a client that holds [sock], in
    the world [w], once the stream has ended the way [fin] says. *)
Definition listened (sock : nat) (fin : stream_end) (c : WebSocketClient)
  (w : world) : outcome unit * WebSocketClient * world :=
  match fin with
  | CleanClose => (Returned tt, c, mark_closed sock w)
  | Abort ConnectionClosed =>
      (Returned tt, set_running false c,
       emit (EvLog WARNING MsgClosedByServer) (mark_closed sock w))
  | Abort CancelledError => (Raised CancelledError, c, w)
  | Abort e =>
      (Returned tt, set_running false c,
       emit (EvLog ERROR (MsgListenError e)) w)
  end.

(** How it leaves the client when the loop itself raised [e] (an
    [Exception] other than [ConnectionClosed]) in the world [w]. *)
Definition listen_failed (e : exn) (c : WebSocketClient) (w : world)
  : outcome unit * WebSocketClient * world :=
  (Returned tt, set_running false c, emit (EvLog ERROR (MsgListenError e)) w).

(** *** Notions for the text of a frame *)





(** The counter of [reconnect] is within its limit. *)
Definition counter_in_range (c : WebSocketClient) : Prop :=
  0 <= reconnect_attempts c <= max_reconnect_attempts c.

(** Two clients with the same configuration. *)
Definition same_settings (c c' : WebSocketClient) : Prop :=
  server_url c' = server_url c /\
  max_reconnect_attempts c' = max_reconnect_attempts c /\
  reconnect_delay c' = reconnect_delay c.

End Ws.

(* ================================================================== *)
(** ** The process around the clients *)

(** What the camera manager, the server and the simple client use
    besides the network: the logger, [random], [datetime.now()],
    [signal], the event loop's tasks and [dict]s with [str] keys. *)
Module Host.
Import Py Net.

(** A [datetime]: its place on the local wall clock, in microseconds,
    and the text [isoformat()] prints for it. *)
Record datetime := {
  micros : Z;
  iso : str
}.

(** The exceptions of [Net], and [KeyError], which [d[key]] raises. *)
Inductive error :=
| Exn (e : exn)
| KeyError (key : str).

(** [isinstance(e, Exception)] *)
Definition is_Exception (e : error) : bool :=
  match e with
  | Exn e => Net.is_Exception e
  | KeyError _ => true
  end.

(** The calls to [logger] of [CameraManager], [LicensePlateAIServer]
    and [SimpleLicensePlateClient], one constructor per message. *)
Inductive appmsg :=
| MsgAddedCamera (camera_id gate_id : str)
| MsgCameraNotFound (camera_id : str)
| MsgStartingCamera (camera_id : str)
| MsgStartCameraFailed (camera_id : str) (e : error)
| MsgStoppedCamera (camera_id : str)
| MsgInitializing
| MsgStartingRecognition
| MsgTasksCancelled
| MsgStoppingRecognition
| MsgShuttingDown
| MsgShutdownComplete
| MsgInitializeFailed
| MsgInitialized
| MsgStartingLoop
| MsgServerError (e : error)
| MsgSimpleConnecting (url : str)
| MsgSimpleConnected
| MsgSimpleConnectionFailed (e : error)
| MsgSentDetection (plate action confidence : value)
| MsgDetectionSendError (e : error)
| MsgSentStatus (status : value)
| MsgStatusSendError (e : error)
| MsgSentError (error_message : value)
| MsgErrorSendFailed (e : error).

Inductive signum := SIGINT | SIGTERM.

(** The coroutines the server hands to [asyncio.create_task]. *)
Inductive coroutine :=
| ListenForCommands
| ProcessCameraStream (camera_id : str)
| PeriodicStatusUpdate.

(** What the process does besides talking to the network, in order. *)
Inductive hostevent :=
| HLog (lvl : level) (msg : appmsg)
| HSignal (sig : signum)
| HCreateTask (coro : coroutine)
| HCancelTasks
| HRelease (capture : nat).

(** The process: the network of [Net], the values [random.uniform],
    [random.randint] and [datetime.now()] return call after call, the
    text [str(e)] gives for an exception, and the journal of what was
    done.  [HSignal sig] is [signal.signal(sig, handler)],
    [HCreateTask coro] is [asyncio.create_task(coro)],
    [HCancelTasks] the cancellation of every task but the current one,
    [HRelease cap] the release of a [cv2.VideoCapture].  The log lines
    of [WebSocketClient] are in the trace of the network, those of the
    other classes in the journal; the order between the two is not
    recorded. *)
Record host := {
  net : world;
  uniform_outcome : nat -> pyfloat;
  randint_outcome : nat -> Z;
  draws : nat;
  now_outcome : nat -> datetime;
  nows : nat;
  str_of : error -> str;
  journal : list hostevent
}.

Definition with_net (w : world) (h : host) : host :=
  {| net := w; uniform_outcome := uniform_outcome h;
     randint_outcome := randint_outcome h; draws := draws h;
     now_outcome := now_outcome h; nows := nows h; str_of := str_of h;
     journal := journal h |}.

Definition note (ev : hostevent) (h : host) : host :=
  {| net := net h; uniform_outcome := uniform_outcome h;
     randint_outcome := randint_outcome h; draws := draws h;
     now_outcome := now_outcome h; nows := nows h; str_of := str_of h;
     journal := journal h ++ [ev] |}.

Definition count_draw (h : host) : host :=
  {| net := net h; uniform_outcome := uniform_outcome h;
     randint_outcome := randint_outcome h; draws := S (draws h);
     now_outcome := now_outcome h; nows := nows h; str_of := str_of h;
     journal := journal h |}.

Definition count_now (h : host) : host :=
  {| net := net h; uniform_outcome := uniform_outcome h;
     randint_outcome := randint_outcome h; draws := draws h;
     now_outcome := now_outcome h; nows := S (nows h); str_of := str_of h;
     journal := journal h |}.

(** *** Computations in the process

    As in [Net], with the process in place of the world. *)
Inductive outcome (A : Type) :=
| Finished (a : A)
| Failed (e : error).
Arguments Finished {A} a.
Arguments Failed {A} e.

Definition H (S A : Type) : Type := S -> host -> outcome A * S * host.

Definition ret {S A} (a : A) : H S A := fun s h => (Finished a, s, h).

Definition raise {S A} (e : error) : H S A := fun s h => (Failed e, s, h).

Definition bind {S A B} (m : H S A) (k : A -> H S B) : H S B :=
  fun s h =>
    match m s h with
    | (Finished a, s', h') => k a s' h'
    | (Failed e, s', h') => (Failed e, s', h')
    end.

Definition try_except {S A} (body : H S A) (clauses : error -> option (H S A))
  : H S A :=
  fun s h =>
    match body s h with
    | (Finished a, s', h') => (Finished a, s', h')
    | (Failed e, s', h') =>
        match clauses e with
        | Some handler => handler s' h'
        | None => (Failed e, s', h')
        end
    end.

(** [except Exception as e: handler] *)
Definition except_Exception {S A} (handler : error -> H S A)
  : error -> option (H S A) :=
  fun e => if is_Exception e then Some (handler e) else None.

(** [except asyncio.CancelledError: handler] *)
Definition except_CancelledError {S A} (handler : H S A)
  : error -> option (H S A) :=
  fun e =>
    match e with
    | Exn CancelledError => Some handler
    | _ => None
    end.

(** [try: body finally: final]: [final] runs however [body] ends; an
    exception of [final] replaces the result of [body]. *)
Definition try_finally {S A} (body : H S A) (final : H S unit) : H S A :=
  fun s h =>
    match body s h with
    | (r, s', h') =>
        match final s' h' with
        | (Finished _, s'', h'') => (r, s'', h'')
        | (Failed e, s'', h'') => (Failed e, s'', h'')
        end
    end.

Definition self {S} : H S S := fun s h => (Finished s, s, h).

Definition update {S} (f : S -> S) : H S unit :=
  fun s h => (Finished tt, f s, h).

Definition effect {S} (ev : hostevent) : H S unit :=
  fun s h => (Finished tt, s, note ev h).

Definition log {S} (lvl : level) (msg : appmsg) : H S unit :=
  effect (HLog lvl msg).

(** [datetime.now()] *)
Definition datetime_now {S} : H S datetime :=
  fun s h => (Finished (now_outcome h (nows h)), s, count_now h).

(** [str(e)] *)
Definition py_str {S} (e : error) : H S str :=
  fun s h => (Finished (str_of h e), s, h).

(** [random.uniform(a, b)] *)
Definition random_uniform {S} (a b : Z) : H S pyfloat :=
  fun s h => (Finished (uniform_outcome h (draws h)), s, count_draw h).

(** [random.randint(a, b)] *)
Definition random_randint {S} (a b : Z) : H S Z :=
  fun s h => (Finished (randint_outcome h (draws h)), s, count_draw h).

(** A computation of [Net], run on the network of the process. *)
Definition on_net {S A} (m : M S A) : H S A :=
  fun s h =>
    match m s (net h) with
    | (Returned a, s', w') => (Finished a, s', with_net w' h)
    | (Raised e, s', w') => (Failed (Exn e), s', with_net w' h)
    end.

(** A method of an object held in an attribute: [self.attr.method()]. *)
Definition zoom {S T A} (get : S -> T) (put : T -> S -> S) (m : H T A)
  : H S A :=
  fun s h =>
    match m (get s) h with
    | (r, t', h') => (r, put t' s, h')
    end.

(** [for x in l: await body(x)] *)
Fixpoint for_each {S X} (l : list X) (body : X -> H S unit) : H S unit :=
  match l with
  | [] => ret tt
  | x :: r => bind (body x) (fun _ => for_each r body)
  end.

(** The process after the events [evs]. *)
Definition notes (evs : list hostevent) (h : host) : host :=
  fold_left (fun h ev => note ev h) evs h.

Definition outcome_of {S A} (r : outcome A * S * host) : outcome A :=
  fst (fst r).
Definition state_of {S A} (r : outcome A * S * host) : S := snd (fst r).
Definition host_of {S A} (r : outcome A * S * host) : host := snd r.

(** *** [dict]s with [str] keys, in insertion order *)

(** [d.get(k)] *)
Fixpoint getitem {V} (d : list (str * V)) (k : str) : option V :=
  match d with
  | [] => None
  | (k', v) :: r => if str_eqb k k' then Some v else getitem r k
  end.

(** [k in d] *)
Definition contains {V} (d : list (str * V)) (k : str) : bool :=
  match getitem d k with
  | Some _ => true
  | None => false
  end.

(** [d[k] = v]: an existing key keeps its position. *)
Fixpoint setitem {V} (d : list (str * V)) (k : str) (v : V)
  : list (str * V) :=
  match d with
  | [] => [(k, v)]
  | (k', v') :: r =>
      if str_eqb k k' then (k', v) :: r else (k', v') :: setitem r k v
  end.

(** [del d[k]] *)
Fixpoint delitem {V} (d : list (str * V)) (k : str) : list (str * V) :=
  match d with
  | [] => []
  | (k', v') :: r =>
      if str_eqb k k' then r else (k', v') :: delitem r k
  end.

(** [d[k]]: [KeyError] on a key the dict does not hold. *)
Definition subscript {S V} (d : list (str * V)) (k : str) : H S V :=
  match getitem d k with
  | Some v => ret v
  | None => raise (KeyError k)
  end.

(** [v[key]] with a [str] key, for a value [json.dumps] accepts:
    [KeyError] on a dict without the key, [TypeError] on the others,
    none of which can be subscripted with a [str]. *)
Definition py_getitem {S} (v : value) (key : str) : H S value :=
  match v with
  | VDict d =>
      match dict_get d key with
      | Some x => ret x
      | None => raise (KeyError key)
      end
  | _ => raise (Exn TypeError)
  end.

End Host.

Declare Scope host_scope.
Delimit Scope host_scope with host.
Notation "x <- m ;; k" := (Host.bind m (fun x => k))
  (at level 61, m at next level, right associativity) : host_scope.
Notation "m ;; k" := (Host.bind m (fun _ => k))
  (at level 61, right associativity) : host_scope.

(* ================================================================== *)
(** ** [SimpleLicensePlateClient] (simple_client.py) *)

Module Simple.
Import Py Net.

Record SimpleLicensePlateClient := {
  backend_url : str;
  websocket : option nat
}.

Definition disconnect : M SimpleLicensePlateClient unit :=
  c <- self ;;
  match websocket c with
  | None => ret tt
  | Some sock => (ws_close sock ;; log INFO MsgDisconnected)
  end.

(** *** The other methods of the client

    They log through the process, and [send_detection] can meet a
    [KeyError]: they are computations of [Host].  [self.gates] is set
    by [__init__] and never assigned again. *)
Import Host.
Local Open Scope host_scope.

Definition Task := H SimpleLicensePlateClient.

Definition init (url : str) : SimpleLicensePlateClient :=
  {| backend_url := url; websocket := None |}.

Definition set_websocket (h : option nat) (c : SimpleLicensePlateClient) :=
  {| backend_url := backend_url c; websocket := h |}.

(** [self.gates], as pairs of ["id"] and ["name"]. *)
Definition gates : list (str * str) :=
  [(lit "GATE_001", [67; 7893; 110; 103; 32; 99; 104; 237; 110; 104]);
   (lit "GATE_002", [67; 7893; 110; 103; 32; 112; 104; 7909]);
   (lit "GATE_003", [67; 7893; 110; 103; 32; 115; 97; 117])].

Definition connect : Task bool :=
  try_except
    (c <- self ;;
     log INFO (MsgSimpleConnecting (backend_url c)) ;;
     sock <- on_net (websockets_connect (backend_url c)) ;;
     update (set_websocket (Some sock)) ;;
     log INFO MsgSimpleConnected ;;
     ret true)
    (except_Exception (fun e =>
       log ERROR (MsgSimpleConnectionFailed e) ;;
       ret false)).

(** [await self.websocket.send(json.dumps(message))]: the attribute
    [send] is looked up before the argument is evaluated. *)
Definition websocket_send_json (message : value) : Task unit :=
  c <- self ;;
  match websocket c with
  | None => raise (Exn AttributeError)
  | Some sock =>
      text <- on_net (json_dumps message) ;;
      on_net (ws_send sock text)
  end.

(** [datetime.now().isoformat()] *)
Definition now_isoformat : Task str :=
  now <- datetime_now ;;
  ret (iso now).

(** The dict [send_detection] sends. *)
Definition detection_message (detection_data : value) (ts : str) : value :=
  VDict [(lit "type", VStr (lit "license_plate_detected"));
         (lit "data", detection_data);
         (lit "timestamp", VStr ts)].

Definition send_detection (detection_data : value) : Task bool :=
  ts <- now_isoformat ;;
  let message := detection_message detection_data ts in
  try_except
    (websocket_send_json message ;;
     plate <- py_getitem detection_data (lit "licensePlate") ;;
     action <- py_getitem detection_data (lit "action") ;;
     confidence <- py_getitem detection_data (lit "confidence") ;;
     log INFO (MsgSentDetection plate action confidence) ;;
     ret true)
    (except_Exception (fun e =>
       log ERROR (MsgDetectionSendError e) ;;
       ret false)).

Definition send_status (status processed_count : value) : Task bool :=
  uptime <- random_randint 100 3600 ;;
  memory <- random_uniform 50 80 ;;
  cpu <- random_uniform 20 60 ;;
  let status_data :=
    VDict [(lit "status", status);
           (lit "activeGates", VList (map (fun gate => VStr (fst gate)) gates));
           (lit "processedCount", processed_count);
           (lit "errorCount", VInt 0);
           (lit "uptime", VInt uptime);
           (lit "memoryUsage", VFloat memory);
           (lit "cpuUsage", VFloat cpu)] in
  ts <- now_isoformat ;;
  let message :=
    VDict [(lit "type", VStr (lit "processing_status"));
           (lit "data", status_data);
           (lit "timestamp", VStr ts)] in
  try_except
    (websocket_send_json message ;;
     log INFO (MsgSentStatus status) ;;
     ret true)
    (except_Exception (fun e =>
       log ERROR (MsgStatusSendError e) ;;
       ret false)).

Definition send_error (error_message severity : value) : Task bool :=
  ts1 <- now_isoformat ;;
  let error_data :=
    VDict [(lit "errorCode", VStr (lit "PROCESSING_ERROR"));
           (lit "message", error_message);
           (lit "severity", severity);
           (lit "timestamp", VStr ts1);
           (lit "details",
            VDict [(lit "source", VStr (lit "python_client"));
                   (lit "version", VStr (lit "1.0.0"))])] in
  ts2 <- now_isoformat ;;
  let message :=
    VDict [(lit "type", VStr (lit "error"));
           (lit "data", error_data);
           (lit "timestamp", VStr ts2)] in
  try_except
    (websocket_send_json message ;;
     log WARNING (MsgSentError error_message) ;;
     ret true)
    (except_Exception (fun e =>
       log ERROR (MsgErrorSendFailed e) ;;
       ret false)).

(** *** Notions the facts about the client are stated with *)

(** The client has no connection, or a closed one. *)
Definition offline (c : SimpleLicensePlateClient) (w : world) : bool :=
  match websocket c with
  | None => true
  | Some sock => closed w sock
  end.

(** The first key the log line of [send_detection] asks for that the
    detection does not have. *)
Definition missing_key (d : list (str * value)) : option str :=
  match dict_get d (lit "licensePlate") with
  | None => Some (lit "licensePlate")
  | Some _ =>
      match dict_get d (lit "action") with
      | None => Some (lit "action")
      | Some _ =>
          match dict_get d (lit "confidence") with
          | None => Some (lit "confidence")
          | Some _ => None
          end
      end
  end.

End Simple.

(* ================================================================== *)
(** ** [CameraManager] (advanced_ai_server.py) *)

Module Cam.
Import Py Net Host.
Local Open Scope host_scope.

(** An entry of [self.cameras]: the dict [add_camera] builds, whose six
    keys the code reads and writes by name.  The methods below look an
    entry up each time they use it; none keeps a reference to it. *)
Record camera := {
  camera_id : str;
  gate_id : str;
  stream_url : str;
  device_name : str;
  status : str;
  last_frame_time : option datetime
}.

Definition set_status (s : str) (cam : camera) : camera :=
  {| camera_id := camera_id cam; gate_id := gate_id cam;
     stream_url := stream_url cam; device_name := device_name cam;
     status := s; last_frame_time := last_frame_time cam |}.

Definition set_last_frame_time (t : option datetime) (cam : camera) : camera :=
  {| camera_id := camera_id cam; gate_id := gate_id cam;
     stream_url := stream_url cam; device_name := device_name cam;
     status := status cam; last_frame_time := t |}.

(** [active_streams] maps a camera to its [cv2.VideoCapture], a handle. *)
Record CameraManager := {
  cameras : list (str * camera);
  active_streams : list (str * nat)
}.

(** [__init__] *)
Definition init : CameraManager :=
  {| cameras := []; active_streams := [] |}.

Definition set_cameras (d : list (str * camera)) (m : CameraManager) :=
  {| cameras := d; active_streams := active_streams m |}.

Definition set_active_streams (d : list (str * nat)) (m : CameraManager) :=
  {| cameras := cameras m; active_streams := d |}.

Definition Method := H CameraManager.

(** [device_name or f"Camera {camera_id}"]: the empty string is false.
    The parameter [device_name] of [add_camera] is the empty string by
    default. *)
Definition name_or_default (device_name camera_id : str) : str :=
  match device_name with
  | [] => lit "Camera " ++ camera_id
  | _ => device_name
  end.

Definition add_camera (camera_id gate_id stream_url device_name : str)
  : Method unit :=
  update (fun m =>
    set_cameras
      (setitem (cameras m) camera_id
         {| camera_id := camera_id;
            gate_id := gate_id;
            stream_url := stream_url;
            device_name := name_or_default device_name camera_id;
            status := lit "inactive";
            last_frame_time := None |}) m) ;;
  log INFO (MsgAddedCamera camera_id gate_id).

(** [self.cameras[camera_id][key] = v], [change] being the assignment
    to the key: the entry is looked up, then changed in place. *)
Definition assign (camera_id : str) (change : camera -> camera)
  : Method unit :=
  m <- self ;;
  cam <- subscript (cameras m) camera_id ;;
  update (set_cameras (setitem (cameras m) camera_id (change cam))).

Definition start_camera (camera_id : str) : Method bool :=
  m <- self ;;
  if negb (contains (cameras m) camera_id) then
    log ERROR (MsgCameraNotFound camera_id) ;;
    ret false
  else
    try_except
      (log INFO (MsgStartingCamera camera_id) ;;
       assign camera_id (set_status (lit "active")) ;;
       now <- datetime_now ;;
       assign camera_id (set_last_frame_time (Some now)) ;;
       ret true)
      (except_Exception (fun e =>
         log ERROR (MsgStartCameraFailed camera_id e) ;;
         ret false)).

Definition stop_camera (camera_id : str) : Method unit :=
  m <- self ;;
  (match getitem (active_streams m) camera_id with
   | Some capture =>
       effect (HRelease capture) ;;
       update (set_active_streams (delitem (active_streams m) camera_id))
   | None => ret tt
   end) ;;
  m <- self ;;
  (if contains (cameras m) camera_id
   then assign camera_id (set_status (lit "inactive"))
   else ret tt) ;;
  log INFO (MsgStoppedCamera camera_id).

(** [cam_info["status"] == "active"] *)
Definition is_active (cam : camera) : bool :=
  str_eqb (status cam) (lit "active").

Definition get_active_cameras (m : CameraManager) : list str :=
  map fst (filter (fun item => is_active (snd item)) (cameras m)).

(** *** Notions the facts about the manager are stated with *)

(** What holds of [self.cameras] as the methods build it: a dict has
    each key once, and an entry records the id it is stored under. *)
Definition consistent (m : CameraManager) : Prop :=
  distinct_keys (map fst (cameras m)) = true /\
  forall id cam, getitem (cameras m) id = Some cam -> camera_id cam = id.

(** The ids of the active entries of a dict of cameras, in its order:
    what [get_active_cameras] lists. *)
Definition active_ids (d : list (str * camera)) : list str :=
  map fst (filter (fun item => is_active (snd item)) d).

(** The manager after [stop_camera id]: the stream of the camera, if
    there is one, is forgotten, the entry of the camera, if there is
    one, is made inactive. *)
Definition stopped (id : str) (m : CameraManager) : CameraManager :=
  let streams :=
    match getitem (active_streams m) id with
    | Some _ => delitem (active_streams m) id
    | None => active_streams m
    end in
  let entries :=
    match getitem (cameras m) id with
    | Some cam => setitem (cameras m) id (set_status (lit "inactive") cam)
    | None => cameras m
    end in
  {| cameras := entries; active_streams := streams |}.

(** The manager and the process after [start_camera id]. *)
Definition started (id : str) (m : CameraManager) (h : host) : CameraManager :=
  match getitem (cameras m) id with
  | Some cam =>
      set_cameras
        (setitem (cameras m) id
           (set_last_frame_time (Some (now_outcome h (nows h)))
              (set_status (lit "active") cam))) m
  | None => m
  end.

Definition start_note (id : str) (m : CameraManager) (h : host) : host :=
  match getitem (cameras m) id with
  | Some _ => count_now (note (HLog INFO (MsgStartingCamera id)) h)
  | None => note (HLog ERROR (MsgCameraNotFound id)) h
  end.

(** The entry [add_camera] stores. *)
Definition new_camera (id gate url name : str) : camera :=
  {| camera_id := id; gate_id := gate; stream_url := url;
     device_name := name_or_default name id;
     status := lit "inactive"; last_frame_time := None |}.

End Cam.

(* ================================================================== *)
(** ** [LicensePlateAIServer] (advanced_ai_server.py) *)

Module Server.
Import Py Net Ws Host Cam.
Local Open Scope host_scope.

(** [LicensePlateRecognizer.__init__]; the methods of the recognizer
    draw on [cv2] and [PIL] and are not modelled. *)
Record LicensePlateRecognizer := {
  confidence_threshold : pyfloat;
  sample_plates : list str
}.

Definition recognizer_init : LicensePlateRecognizer :=
  {| confidence_threshold := FFinite false [7] 0;
     sample_plates :=
       [lit "29A-123.45"; lit "30F-567.89"; lit "51B-999.88";
        lit "77C-456.12"; lit "43D-789.33"; lit "59K-888.99";
        lit "61H-555.44"; lit "92B-111.22"] |}.

(** [self.stats], a dict with three keys. *)
Record Stats := {
  processed_count : Z;
  error_count : Z;
  start_time : option datetime
}.

Record LicensePlateAIServer := {
  backend_url : str;
  websocket_client : WebSocketClient;
  camera_manager : CameraManager;
  recognizer : LicensePlateRecognizer;
  processing : bool;
  stats : Stats
}.

(** [__init__] *)
Definition init (url : str) : LicensePlateAIServer :=
  {| backend_url := url;
     websocket_client := Ws.init url;
     camera_manager := Cam.init;
     recognizer := recognizer_init;
     processing := false;
     stats := {| processed_count := 0; error_count := 0;
                 start_time := None |} |}.

Definition set_websocket_client (c : WebSocketClient) (s : LicensePlateAIServer) :=
  {| backend_url := backend_url s; websocket_client := c;
     camera_manager := camera_manager s; recognizer := recognizer s;
     processing := processing s; stats := stats s |}.

Definition set_camera_manager (m : CameraManager) (s : LicensePlateAIServer) :=
  {| backend_url := backend_url s; websocket_client := websocket_client s;
     camera_manager := m; recognizer := recognizer s;
     processing := processing s; stats := stats s |}.

Definition set_processing (b : bool) (s : LicensePlateAIServer) :=
  {| backend_url := backend_url s; websocket_client := websocket_client s;
     camera_manager := camera_manager s; recognizer := recognizer s;
     processing := b; stats := stats s |}.

(** [self.stats["start_time"] = t] *)
Definition set_start_time (t : option datetime) (s : LicensePlateAIServer) :=
  {| backend_url := backend_url s; websocket_client := websocket_client s;
     camera_manager := camera_manager s; recognizer := recognizer s;
     processing := processing s;
     stats := {| processed_count := processed_count (stats s);
                 error_count := error_count (stats s);
                 start_time := t |} |}.

Definition Method := H LicensePlateAIServer.

(** [await self.websocket_client.method(...)] *)
Definition on_client {A} (m : Ws.Task A) : Method A :=
  zoom websocket_client set_websocket_client (on_net m).

(** [self.camera_manager.method(...)] *)
Definition on_manager {A} (m : Cam.Method A) : Method A :=
  zoom camera_manager set_camera_manager m.

(** [camera_configs], the list of dicts in [setup_cameras]. *)
Definition camera_configs : list (list (str * str)) :=
  [[(lit "camera_id", lit "CAM_001");
    (lit "gate_id", lit "GATE_001");
    (lit "gate_name", [67; 7893; 110; 103; 32; 99; 104; 237; 110; 104]);
    (lit "stream_url", lit "rtsp://192.168.1.100:554/stream");
    (lit "device_name", lit "Camera Gate 1")];
   [(lit "camera_id", lit "CAM_002");
    (lit "gate_id", lit "GATE_002");
    (lit "gate_name", [67; 7893; 110; 103; 32; 112; 104; 7909]);
    (lit "stream_url", lit "rtsp://192.168.1.101:554/stream");
    (lit "device_name", lit "Camera Gate 2")];
   [(lit "camera_id", lit "CAM_003");
    (lit "gate_id", lit "GATE_003");
    (lit "gate_name", [67; 7893; 110; 103; 32; 115; 97; 117]);
    (lit "stream_url", lit "rtsp://192.168.1.102:554/stream");
    (lit "device_name", lit "Camera Gate 3")]].

Definition setup_cameras : Method unit :=
  for_each camera_configs (fun config =>
    camera_id <- subscript config (lit "camera_id") ;;
    gate_id <- subscript config (lit "gate_id") ;;
    stream_url <- subscript config (lit "stream_url") ;;
    device_name <- subscript config (lit "device_name") ;;
    on_manager (add_camera camera_id gate_id stream_url device_name)).

(** [signal.signal] is called for [SIGINT], then for [SIGTERM]; the
    handler it installs starts [shutdown] as a task. *)
Definition setup_signal_handlers : Method unit :=
  effect (HSignal SIGINT) ;;
  effect (HSignal SIGTERM).

Definition initialize : Method bool :=
  log INFO MsgInitializing ;;
  connected <- on_client Ws.connect ;;
  if negb connected then ret false
  else
    setup_cameras ;;
    setup_signal_handlers ;;
    effect (HCreateTask ListenForCommands) ;;
    ret true.

(** [int((datetime.now() - start).total_seconds())]: the whole seconds
    between the two, rounded towards zero (the float [total_seconds]
    returns is exact enough for that below 2^53 microseconds). *)
Definition whole_seconds (now start : datetime) : Z :=
  Z.quot (micros now - micros start) 1000000.

(** The list [activeGates] of a status: the gates of the active
    cameras. *)
Definition active_gates (m : CameraManager) : list value :=
  map (fun item => VStr (gate_id (snd item)))
      (filter (fun item => is_active (snd item)) (cameras m)).

(** The dict [send_status_update] sends. *)
Definition status_data (s : LicensePlateAIServer) (uptime : Z)
  (memory cpu : pyfloat) : value :=
  VDict [(lit "status",
          VStr (if processing s then lit "processing" else lit "idle"));
         (lit "activeGates", VList (active_gates (camera_manager s)));
         (lit "processedCount", VInt (processed_count (stats s)));
         (lit "errorCount", VInt (error_count (stats s)));
         (lit "uptime", VInt uptime);
         (lit "memoryUsage", VFloat memory);
         (lit "cpuUsage", VFloat cpu);
         (lit "activeCameras",
          VInt (Z.of_nat
                  (List.length (get_active_cameras (camera_manager s)))))].

Definition send_status_update : Method unit :=
  s <- self ;;
  uptime <- (match start_time (stats s) with
             | Some start =>
                 now <- datetime_now ;;
                 ret (whole_seconds now start)
             | None => ret 0
             end) ;;
  memory <- random_uniform 60 85 ;;
  cpu <- random_uniform 30 60 ;;
  on_client (send_processing_status (status_data s uptime memory cpu)) ;;
  ret tt.

(** [start_processing].  [gathered] is what awaiting [asyncio.gather]
    on the tasks does to the server and the process: the tasks run
    while the caller waits, and the call returns when they are done or
    raises what one of them raised. *)
Definition start_processing (gathered : Method unit) : Method unit :=
  update (set_processing true) ;;
  now <- datetime_now ;;
  update (set_start_time (Some now)) ;;
  log INFO MsgStartingRecognition ;;
  s <- self ;;
  for_each (map fst (cameras (camera_manager s)))
           (fun camera_id => on_manager (start_camera camera_id) ;; ret tt) ;;
  send_status_update ;;
  s <- self ;;
  for_each (get_active_cameras (camera_manager s))
           (fun camera_id =>
              effect (HCreateTask (ProcessCameraStream camera_id))) ;;
  effect (HCreateTask PeriodicStatusUpdate) ;;
  try_except gathered
    (except_CancelledError (log INFO MsgTasksCancelled)).

Definition stop_processing : Method unit :=
  log INFO MsgStoppingRecognition ;;
  update (set_processing false) ;;
  s <- self ;;
  for_each (map fst (cameras (camera_manager s)))
           (fun camera_id => on_manager (stop_camera camera_id)) ;;
  send_status_update.

Definition shutdown : Method unit :=
  log INFO MsgShuttingDown ;;
  stop_processing ;;
  on_client Ws.disconnect ;;
  effect HCancelTasks ;;
  log INFO MsgShutdownComplete.

(** The dict [run] sends when the server failed. *)
Definition server_error (message timestamp : str) : value :=
  VDict [(lit "errorCode", VStr (lit "SERVER_ERROR"));
         (lit "message", VStr message);
         (lit "severity", VStr (lit "critical"));
         (lit "timestamp", VStr timestamp)].

(** [run], with [gathered] handed to [start_processing]. *)
Definition run (gathered : Method unit) : Method unit :=
  try_finally
    (try_except
       (initialized <- initialize ;;
        if negb initialized then
          log ERROR MsgInitializeFailed
        else
          log INFO MsgInitialized ;;
          log INFO MsgStartingLoop ;;
          start_processing gathered)
       (except_Exception (fun e =>
          log ERROR (MsgServerError e) ;;
          message <- py_str e ;;
          now <- datetime_now ;;
          on_client (send_error (server_error message (iso now))) ;;
          ret tt)))
    shutdown.

(** *** Notions the facts about the server are stated with *)

(** What [send_status_update] reads before it builds the status: the
    uptime and the process after the clock was read (if the start time
    is set) and two numbers were drawn. *)
Definition uptime_read (s : LicensePlateAIServer) (h : host) : Z :=
  match start_time (stats s) with
  | Some start => whole_seconds (now_outcome h (nows h)) start
  | None => 0
  end.

Definition after_reads (s : LicensePlateAIServer) (h : host) : host :=
  count_draw (count_draw
    match start_time (stats s) with
    | Some _ => count_now h
    | None => h
    end).

(** The status [send_status_update] builds in server [s] and
    process [h]. *)
Definition status_now (s : LicensePlateAIServer) (h : host) : value :=
  status_data s (uptime_read s h)
    (uniform_outcome h (draws h)) (uniform_outcome h (S (draws h))).

(** The result of a method of the client, as the result of the server
    that called it. *)
Definition client_result {A} (s : LicensePlateAIServer) (h : host)
  (r : Net.outcome A * WebSocketClient * world)
  : outcome A * LicensePlateAIServer * host :=
  match r with
  | (Returned a, c, w) => (Finished a, set_websocket_client c s, with_net w h)
  | (Raised e, c, w) => (Failed (Exn e), set_websocket_client c s, with_net w h)
  end.

(** The manager after [stop_camera] was called for each of [ids]. *)
Definition all_stopped (ids : list str) (m : CameraManager) : CameraManager :=
  fold_left (fun m id => stopped id m) ids m.

(** The process after these calls: the streams released and the log
    lines, call after call. *)
Fixpoint stop_notes (ids : list str) (m : CameraManager) (h : host) : host :=
  match ids with
  | [] => h
  | id :: rest =>
      stop_notes rest (stopped id m)
        (note (HLog INFO (MsgStoppedCamera id))
           (match getitem (active_streams m) id with
            | Some capture => note (HRelease capture) h
            | None => h
            end))
  end.

(** The manager and the process after [start_camera] was called for
    each of [ids]. *)
Fixpoint all_started (ids : list str) (m : CameraManager) (h : host)
  : CameraManager * host :=
  match ids with
  | [] => (m, h)
  | id :: rest => all_started rest (started id m h) (start_note id m h)
  end.

(** The server and the process when [start_processing] is about to
    send its status. *)
Definition server_started (s : LicensePlateAIServer) (h : host)
  : LicensePlateAIServer :=
  set_camera_manager
    (fst (all_started (map fst (cameras (camera_manager s)))
            (camera_manager s)
            (note (HLog INFO MsgStartingRecognition) (count_now h))))
    (set_start_time (Some (now_outcome h (nows h)))
       (set_processing true s)).

Definition host_started (s : LicensePlateAIServer) (h : host) : host :=
  snd (all_started (map fst (cameras (camera_manager s)))
         (camera_manager s)
         (note (HLog INFO MsgStartingRecognition) (count_now h))).

(** The tasks [start_processing] creates. *)
Definition tasks_created (ids : list str) : list hostevent :=
  map (fun id => HCreateTask (ProcessCameraStream id)) ids
    ++ [HCreateTask PeriodicStatusUpdate].

(** The server and the process when [stop_processing] is about to
    send its status. *)
Definition server_stopped (s : LicensePlateAIServer) : LicensePlateAIServer :=
  set_camera_manager
    (all_stopped (map fst (cameras (camera_manager s))) (camera_manager s))
    (set_processing false s).

Definition host_stopped (s : LicensePlateAIServer) (h : host) : host :=
  stop_notes (map fst (cameras (camera_manager s))) (camera_manager s)
    (note (HLog INFO MsgStoppingRecognition) h).

(** The cameras after [setup_cameras]. *)
Definition cameras_set_up (d : list (str * camera)) : list (str * camera) :=
  setitem
    (setitem
       (setitem d (lit "CAM_001")
          (new_camera (lit "CAM_001") (lit "GATE_001")
             (lit "rtsp://192.168.1.100:554/stream") (lit "Camera Gate 1")))
       (lit "CAM_002")
       (new_camera (lit "CAM_002") (lit "GATE_002")
          (lit "rtsp://192.168.1.101:554/stream") (lit "Camera Gate 2")))
    (lit "CAM_003")
    (new_camera (lit "CAM_003") (lit "GATE_003")
       (lit "rtsp://192.168.1.102:554/stream") (lit "Camera Gate 3")).

(** The transport raises nothing but exceptions: no cancellation
    reaches the client inside [connect] or [send]. *)
Definition raises_exceptions_only (w : world) : Prop :=
  (forall n e, connect_outcome w n = Some e -> Net.is_Exception e = true) /\
  (forall n e, send_outcome w n = Some e -> Net.is_Exception e = true).

End Server.

(* ================================================================== *)
(** ** Sample clients, worlds and messages *)

Module Samples.
Import Py Net Ws.

Definition url0 : str := lit "ws://localhost:3001".
Definition clock0 : str := lit "2024-05-01T08:30:00.000000".

(** CPython 3.11 as it comes: a recursion limit of 1000, of which the
    event loop and the program have taken 50 levels when [json] is
    called, and at most 4300 digits in the text of an [int]. *)
Definition cpython : Json.limits :=
  {| Json.max_depth := 950; Json.raise_cost := 3; Json.default_cost := 2;
     Json.constant_cost := 1; Json.max_str_digits := 4300 |}.

(** A server that refuses (or accepts) every connection. *)
Definition refusing : world :=
  {| connect_outcome := fun _ => Some (OSError 111);
     send_outcome := fun _ => None;
     connects := 0; sends := 0; sockets := []; clock := clock0;
     limits := cpython; trace := [] |}.

Definition accepting : world :=
  {| connect_outcome := fun _ => None;
     send_outcome := fun _ => None;
     connects := 0; sends := 0; sockets := []; clock := clock0;
     limits := cpython; trace := [] |}.

(** A server that refuses the first two connections. *)
Definition flaky : world :=
  {| connect_outcome := fun n => if (n <? 2)%nat then Some (OSError 111) else None;
     send_outcome := fun _ => None;
     connects := 0; sends := 0; sockets := []; clock := clock0;
     limits := cpython; trace := [] |}.


(** One open connection, held by [online_client]; sends fail in
    [online_lossy]. *)
Definition online : world :=
  {| connect_outcome := fun _ => None;
     send_outcome := fun _ => None;
     connects := 1; sends := 0; sockets := [false]; clock := clock0;
     limits := cpython; trace := [] |}.

Definition online_lossy : world :=
  {| connect_outcome := fun _ => Some (OSError 111);
     send_outcome := fun _ => Some ConnectionClosed;
     connects := 1; sends := 0; sockets := [false]; clock := clock0;
     limits := cpython; trace := [] |}.

Definition online_client : WebSocketClient :=
  {| server_url := url0; websocket := Some 0%nat; running := true;
     reconnect_attempts := 0; max_reconnect_attempts := 10;
     reconnect_delay := 5 |}.

Definition three_attempts : WebSocketClient :=
  {| server_url := url0; websocket := None; running := false;
     reconnect_attempts := 0; max_reconnect_attempts := 3;
     reconnect_delay := 5 |}.



(** Two inbound frames: one that is not JSON, one command. *)
Definition garbage : str := lit "{not json".
Definition command : str :=
  [123; 34] ++ lit "type" ++ [34; 58; 32; 34] ++ lit "reload_config"
    ++ [34; 125].


(** A command with a count of 4301 digits. *)
Definition huge_command : str :=
  [123; 34] ++ lit "type" ++ [34; 58; 32; 34] ++ lit "reload_config"
    ++ [34; 44; 32; 34] ++ lit "count" ++ [34; 58; 32]
    ++ 49 :: repeat 48 4300 ++ [125].

(** *** The process, cameras and servers of the examples *)

(** A process on the network [w]: every draw gives 72.5 and 1200, the
    clock advances by a second at each reading. *)
Definition host_on (w : world) : Host.host :=
  {| Host.net := w;
     Host.uniform_outcome := fun _ => FFinite false [7; 2; 5] 2;
     Host.randint_outcome := fun _ => 1200;
     Host.draws := 0;
     Host.now_outcome := fun n =>
       {| Host.micros := 1714552200000000 + 1000000 * Z.of_nat n;
          Host.iso := clock0 |};
     Host.nows := 0;
     Host.str_of := fun _ => lit "connection refused";
     Host.journal := [] |}.

(** Two cameras, the first one active. *)
Definition gate_cameras : Cam.CameraManager :=
  {| Cam.cameras :=
       [(lit "CAM_001",
         {| Cam.camera_id := lit "CAM_001"; Cam.gate_id := lit "GATE_001";
            Cam.stream_url := lit "rtsp://192.168.1.100:554/stream";
            Cam.device_name := lit "Camera Gate 1";
            Cam.status := lit "active";
            Cam.last_frame_time :=
              Some {| Host.micros := 1714552100000000; Host.iso := clock0 |} |});
        (lit "CAM_002",
         {| Cam.camera_id := lit "CAM_002"; Cam.gate_id := lit "GATE_002";
            Cam.stream_url := lit "rtsp://192.168.1.101:554/stream";
            Cam.device_name := lit "Camera Gate 2";
            Cam.status := lit "inactive";
            Cam.last_frame_time := None |})];
     Cam.active_streams := [] |}.

(** A server at work: connected, processing, one camera active. *)
Definition busy_server : Server.LicensePlateAIServer :=
  {| Server.backend_url := url0;
     Server.websocket_client := online_client;
     Server.camera_manager := gate_cameras;
     Server.recognizer := Server.recognizer_init;
     Server.processing := true;
     Server.stats :=
       {| Server.processed_count := 3; Server.error_count := 1;
          Server.start_time :=
            Some {| Host.micros := 1714552000000000; Host.iso := clock0 |} |} |}.

(** A simple client holding the connection of [online]. *)
Definition simple_online : Simple.SimpleLicensePlateClient :=
  {| Simple.backend_url := url0; Simple.websocket := Some 0%nat |}.

(** A detection without its confidence. *)
Definition partial_detection : list (str * value) :=
  [(lit "licensePlate", VStr (lit "29A-123.45"));
   (lit "action", VStr (lit "entry"))].

End Samples.

(* ================================================================== *)
(** ** Facts about [json.dumps] and [json.loads] *)

Module JsonFacts.
Import Py Json.

(** *** Small tactics *)

(** Turn boolean comparisons in the context and the goal into
    propositions [lia] understands. *)
Ltac zbool :=
  repeat match goal with
  | H : _ && _ = true |- _ => apply andb_true_iff in H; destruct H
  | H : _ || _ = false |- _ => apply orb_false_iff in H; destruct H
  | H : negb _ = true |- _ => apply negb_true_iff in H
  | H : negb _ = false |- _ => apply negb_false_iff in H
  | H : (_ =? _) = true |- _ => apply Z.eqb_eq in H
  | H : (_ =? _) = false |- _ => apply Z.eqb_neq in H
  | H : (_ <? _) = true |- _ => apply Z.ltb_lt in H
  | H : (_ <? _) = false |- _ => apply Z.ltb_ge in H
  | H : (_ <=? _) = true |- _ => apply Z.leb_le in H
  | H : (_ <=? _) = false |- _ => apply Z.leb_gt in H
  end.

(** Decide the comparisons of the goal by arithmetic. *)
Ltac ztest :=
  repeat match goal with
  | |- context [?a =? ?b] =>
      first [ replace (a =? b) with true by (symmetry; apply Z.eqb_eq; lia)
            | replace (a =? b) with false by (symmetry; apply Z.eqb_neq; lia) ]
  | |- context [?a <? ?b] =>
      first [ replace (a <? b) with true by (symmetry; apply Z.ltb_lt; lia)
            | replace (a <? b) with false by (symmetry; apply Z.ltb_ge; lia) ]
  | |- context [?a <=? ?b] =>
      first [ replace (a <=? b) with true by (symmetry; apply Z.leb_le; lia)
            | replace (a <=? b) with false by (symmetry; apply Z.leb_gt; lia) ]
  end.

(** *** Strings as keys *)

Lemma str_eqb_eq (a b : str) : str_eqb a b = true <-> a = b.
Proof.
  revert b; induction a as [|x a IH]; intros [|y b]; simpl;
    try (split; [discriminate | discriminate]); try tauto.
  rewrite andb_true_iff, Z.eqb_eq, IH.
  split; [intros [-> ->]; reflexivity | intros [= -> ->]; auto].
Qed.

Lemma str_eqb_refl (a : str) : str_eqb a a = true.
Proof. apply str_eqb_eq; reflexivity. Qed.

Lemma str_eqb_sym (a b : str) : str_eqb a b = str_eqb b a.
Proof.
  destruct (str_eqb a b) eqn:E.
  - apply str_eqb_eq in E; subst; symmetry; apply str_eqb_refl.
  - destruct (str_eqb b a) eqn:E'; [|reflexivity].
    apply str_eqb_eq in E'; subst. rewrite str_eqb_refl in E; discriminate.
Qed.

Lemma dict_set_fresh d k v :
  existsb (fun k' => str_eqb k' k) (map fst d) = false ->
  dict_set d k v = d ++ [(k, v)].
Proof.
  induction d as [|[k' v'] d IH]; simpl; intros H; [reflexivity|].
  apply orb_false_iff in H; destruct H as [H1 H2].
  rewrite str_eqb_sym, H1, IH by assumption. reflexivity.
Qed.

Lemma distinct_keys_app_cons a k r :
  distinct_keys (a ++ k :: r) = true ->
  existsb (fun k' => str_eqb k' k) a = false /\
  distinct_keys ((a ++ [k]) ++ r) = true.
Proof.
  intros H; split.
  - induction a as [|x a IH]; simpl in *; [reflexivity|].
    apply andb_true_iff in H; destruct H as [H1 H2].
    rewrite IH by assumption. rewrite orb_false_r.
    apply negb_true_iff in H1. rewrite existsb_app in H1.
    apply orb_false_iff in H1; destruct H1 as [_ H1]; simpl in H1.
    apply orb_false_iff in H1; tauto.
  - rewrite <- app_assoc; exact H.
Qed.

Lemma dict_of_pairs_acc d : forall acc,
  distinct_keys (map fst (acc ++ d)) = true ->
  fold_left (fun m kv => dict_set m (fst kv) (snd kv)) d acc = acc ++ d.
Proof.
  induction d as [|[k v] d IH]; intros acc H; simpl.
  - symmetry; apply app_nil_r.
  - rewrite map_app in H; simpl in H.
    apply distinct_keys_app_cons in H; destruct H as [H1 H2].
    rewrite dict_set_fresh by assumption.
    rewrite IH.
    + rewrite <- app_assoc; reflexivity.
    + rewrite !map_app; simpl. exact H2.
Qed.

Lemma dict_of_pairs_distinct d :
  distinct_keys (map fst d) = true -> dict_of_pairs d = d.
Proof. intros H; unfold dict_of_pairs; rewrite dict_of_pairs_acc; auto. Qed.

(** *** Decimal digits *)

Lemma digits_value_snoc ds d :
  digits_value (ds ++ [d]) = 10 * digits_value ds + d.
Proof. unfold digits_value; rewrite fold_left_app; reflexivity. Qed.

Lemma digits_of_aux_spec : forall f n acc,
  0 <= n < 2 ^ (Z.of_nat f + 1) ->
  exists d ds,
    digits_of_aux f n acc = (d :: ds) ++ acc /\
    forallb is_digit_val (d :: ds) = true /\
    (d = 0 -> n = 0 /\ ds = []) /\
    digits_value (d :: ds) = n.
Proof.
  induction f as [|f IH]; intros n acc Hn.
  - change (2 ^ (Z.of_nat 0 + 1)) with 2 in Hn.
    exists n, []; simpl; repeat split; try lia.
    unfold is_digit_val; ztest; reflexivity.
  - simpl digits_of_aux. destruct (n <? 10) eqn:E; zbool.
    + exists n, []; simpl; repeat split; try lia.
      unfold is_digit_val; ztest; reflexivity.
    + assert (Hq : 0 <= n / 10 < 2 ^ (Z.of_nat f + 1)).
      { rewrite Nat2Z.inj_succ in Hn.
        replace (Z.succ (Z.of_nat f) + 1) with (Z.succ (Z.of_nat f + 1)) in Hn by lia.
        rewrite Z.pow_succ_r in Hn by lia.
        split; [apply Z.div_pos; lia|].
        apply Z.div_lt_upper_bound; lia. }
      destruct (IH (n / 10) (n mod 10 :: acc) Hq) as (d & ds & E1 & E2 & E3 & E4).
      exists d, (ds ++ [n mod 10]). split; [|split; [|split]].
      * rewrite E1. simpl. rewrite <- app_assoc. reflexivity.
      * change (d :: ds ++ [n mod 10]) with ((d :: ds) ++ [n mod 10]).
        rewrite forallb_app, E2; simpl.
        unfold is_digit_val.
        pose proof (Z.mod_pos_bound n 10 ltac:(lia)). ztest. reflexivity.
      * intros ->. destruct E3 as [E3 _]; [reflexivity|].
        assert (n / 10 > 0) by (apply Z.lt_gt, Z.div_str_pos; lia). lia.
      * change (d :: ds ++ [n mod 10]) with ((d :: ds) ++ [n mod 10]).
        rewrite digits_value_snoc, E4.
        pose proof (Z.div_mod n 10 ltac:(lia)). lia.
Qed.

Lemma digits_of_spec n :
  0 <= n ->
  exists d ds,
    digits_of n = d :: ds /\
    forallb is_digit_val (d :: ds) = true /\
    (d = 0 -> n = 0 /\ ds = []) /\
    digits_value (d :: ds) = n.
Proof.
  intros Hn. unfold digits_of.
  assert (H : 0 <= n < 2 ^ (Z.of_nat (Z.to_nat (Z.log2 n)) + 1)).
  { rewrite Z2Nat.id by apply Z.log2_nonneg.
    destruct (Z.eq_dec n 0) as [->|]; [simpl; lia|].
    pose proof (Z.log2_spec n ltac:(lia)).
    replace (Z.log2 n + 1) with (Z.succ (Z.log2 n)) by lia. lia. }
  destruct (digits_of_aux_spec _ _ [] H) as (d & ds & E1 & E2).
  exists d, ds. rewrite E1, app_nil_r. auto.
Qed.

Lemma digits_of_small n : 0 <= n < 10 -> digits_of n = [n].
Proof.
  intros H. unfold digits_of.
  destruct (Z.to_nat (Z.log2 n)); simpl; [reflexivity|].
  ztest. reflexivity.
Qed.

Lemma is_digit_char d : is_digit_val d = true -> is_digit (digit_char d) = true.
Proof. unfold is_digit_val, is_digit, digit_char; intros; zbool; ztest; reflexivity. Qed.

Lemma span_digits_chars ds : forall rest,
  forallb is_digit_val ds = true ->
  match rest with [] => true | c :: _ => negb (is_digit c) end = true ->
  span_digits (map digit_char ds ++ rest) = (ds, rest).
Proof.
  induction ds as [|d ds IH]; intros rest Hd Hr; simpl.
  - destruct rest as [|c r]; [reflexivity|]. simpl.
    apply negb_true_iff in Hr; rewrite Hr; reflexivity.
  - simpl in Hd. apply andb_true_iff in Hd; destruct Hd as [Hd1 Hd2].
    rewrite is_digit_char, IH by assumption.
    unfold digit_char. f_equal. f_equal. lia.
Qed.

(** *** Strings *)

Lemma hex_val_digit d : 0 <= d < 16 -> hex_val (hex_digit d) = Some d.
Proof.
  intros H. unfold hex_val, hex_digit.
  destruct (d <? 10) eqn:E; zbool; ztest; cbn [andb]; f_equal; lia.
Qed.

Lemma hex4_digits n :
  0 <= n < 65536 ->
  hex4 (hex_digit (n / 4096)) (hex_digit ((n / 256) mod 16))
       (hex_digit ((n / 16) mod 16)) (hex_digit (n mod 16)) = Some n.
Proof.
  intros H. unfold hex4.
  rewrite !hex_val_digit by (Z.to_euclidean_division_equations; lia).
  f_equal. Z.to_euclidean_division_equations; lia.
Qed.

Lemma land_shiftl_small a b k :
  0 <= k -> 0 <= b < 2 ^ k -> Z.land (Z.shiftl a k) b = 0.
Proof.
  intros Hk Hb.
  apply Z.bits_inj'; intros i Hi; rewrite Z.land_spec, Z.bits_0.
  destruct (Z.lt_ge_cases i k) as [L|G].
  - rewrite Z.shiftl_spec_low by assumption; reflexivity.
  - destruct (Z.eq_dec b 0) as [->|].
    + rewrite Z.bits_0, andb_false_r; reflexivity.
    + rewrite (Z.bits_above_log2 b i), andb_false_r; auto; try lia.
      apply Z.lt_le_trans with k; [|assumption].
      apply Z.log2_lt_pow2; lia.
Qed.
Lemma lor_shiftl_small a b k :
  0 <= k -> 0 <= b < 2 ^ k ->
  Z.lor (Z.shiftl a k) b = a * 2 ^ k + b.
Proof.
  intros Hk Hb.
  rewrite <- Z.lxor_lor, <- Z.add_nocarry_lxor, Z.shiftl_mul_pow2;
   auto using land_shiftl_small.
Qed.

Lemma surrogate_high n :
  0 <= n < 0x100000 ->
  Z.lor 0xd800 (Z.land (Z.shiftr n 10) 0x3ff) = 0xd800 + n / 1024.
Proof.
  intros H. change 0x3ff with (Z.ones 10).
  rewrite Z.land_ones, Z.shiftr_div_pow2 by lia.
  change 0xd800 with (Z.shiftl 54 10) at 1.
  rewrite lor_shiftl_small; change (2 ^ 10) with 1024;
    Z.to_euclidean_division_equations; lia.
Qed.

Lemma surrogate_low n :
  0 <= n ->
  Z.lor 0xdc00 (Z.land n 0x3ff) = 0xdc00 + n mod 1024.
Proof.
  intros H. change 0x3ff with (Z.ones 10).
  rewrite Z.land_ones by lia.
  change 0xdc00 with (Z.shiftl 55 10) at 1.
  rewrite lor_shiftl_small; change (2 ^ 10) with 1024;
    Z.to_euclidean_division_equations; lia.
Qed.

Lemma join_surrogates_split n :
  0 <= n < 0x100000 ->
  join_surrogates (0xd800 + n / 1024) (0xdc00 + n mod 1024) = 0x10000 + n.
Proof.
  intros H. unfold join_surrogates.
  replace (0xd800 + n / 1024 - 0xd800) with (n / 1024) by lia.
  replace (0xdc00 + n mod 1024 - 0xdc00) with (n mod 1024) by lia.
  rewrite lor_shiftl_small; change (2 ^ 10) with 1024;
    Z.to_euclidean_division_equations; lia.
Qed.

(** One step of [scanstring] on a [\uXXXX] escape. *)
Lemma scanstring_u h1 h2 h3 h4 t uni :
  hex4 h1 h2 h3 h4 = Some uni ->
  scanstring (92 :: 117 :: h1 :: h2 :: h3 :: h4 :: t) =
  if is_high uni && starts_bs_u t then
    match t with
    | _ :: _ :: g1 :: g2 :: g3 :: g4 :: r3 =>
        match hex4 g1 g2 g3 g4 with
        | None => None
        | Some uni2 =>
            if is_low uni2
            then push (join_surrogates uni uni2) (scanstring r3)
            else push uni (scanstring t)
        end
    | _ => None
    end
  else push uni (scanstring t).
Proof.
  intros H. cbn [scanstring].
  change (92 =? 34) with false. change (92 =? 92) with true.
  change (117 =? 117) with true. cbv iota. rewrite H. reflexivity.
Qed.

Lemma scanstring_plain c t :
  32 <= c -> c <> 34 -> c <> 92 ->
  scanstring (c :: t) = push c (scanstring t).
Proof. intros. cbn [scanstring]. ztest. reflexivity. Qed.

(** [scanstring] reads back the escape of a scalar value as that
    value. *)
Lemma scanstring_escape_char c t :
  scalar c = true ->
  scanstring (escape_char c ++ t) = push c (scanstring t).
Proof.
  intros Hc. unfold scalar in Hc. zbool. unfold escape_char.
  destruct (Z.eqb_spec c 92) as [->|N1]; [reflexivity|].
  destruct (Z.eqb_spec c 34) as [->|N2]; [reflexivity|].
  destruct (Z.eqb_spec c 8) as [->|N3]; [reflexivity|].
  destruct (Z.eqb_spec c 12) as [->|N4]; [reflexivity|].
  destruct (Z.eqb_spec c 10) as [->|N5]; [reflexivity|].
  destruct (Z.eqb_spec c 13) as [->|N6]; [reflexivity|].
  destruct (Z.eqb_spec c 9) as [->|N7]; [reflexivity|].
  destruct ((32 <=? c) && (c <=? 126)) eqn:P.
  { zbool. apply scanstring_plain; lia. }
  destruct (c <? 65536) eqn:B; zbool.
  - unfold u_escape. cbn [app].
    rewrite (scanstring_u _ _ _ _ _ c) by (apply hex4_digits; lia).
    replace (is_high c) with false; [reflexivity|].
    unfold is_high. symmetry. apply andb_false_iff.
    rewrite Z.leb_gt, Z.leb_gt.
    destruct (Z.lt_ge_cases c 0xd800); [left; assumption|right].
    apply andb_false_iff in H0. rewrite Z.leb_gt, Z.leb_gt in H0. lia.
  - cbv zeta.
    rewrite surrogate_high, surrogate_low by lia.
    set (n := c - 65536).
    assert (Hn : 0 <= n < 0x100000) by (subst n; lia).
    unfold u_escape. cbn [app].
    rewrite (scanstring_u _ _ _ _ _ (0xd800 + n / 1024))
      by (apply hex4_digits; Z.to_euclidean_division_equations; lia).
    replace (is_high (0xd800 + n / 1024)) with true
      by (unfold is_high; symmetry; apply andb_true_iff;
          rewrite !Z.leb_le; Z.to_euclidean_division_equations; lia).
    cbn [starts_bs_u andb]. change (92 =? 92) with true.
    change (117 =? 117) with true. cbv iota. cbn [andb].
    rewrite hex4_digits by (Z.to_euclidean_division_equations; lia).
    replace (is_low (0xdc00 + n mod 1024)) with true
      by (unfold is_low; symmetry; apply andb_true_iff;
          rewrite !Z.leb_le; Z.to_euclidean_division_equations; lia).
    rewrite join_surrogates_split by assumption.
    replace (65536 + n) with c by (subst n; lia). reflexivity.
Qed.

Lemma scanstring_escaped s : forall rest,
  forallb scalar s = true ->
  scanstring (flat_map escape_char s ++ 34 :: rest) = Some (s, rest).
Proof.
  induction s as [|c s IH]; intros rest H; simpl in H.
  - reflexivity.
  - apply andb_true_iff in H; destruct H as [Hc Hs].
    cbn [flat_map]. rewrite <- app_assoc.
    rewrite scanstring_escape_char, IH by assumption. reflexivity.
Qed.

(** *** Numbers *)

Lemma ends_token_no_digit rest :
  ends_token rest = true -> no_digit_ahead rest = true.
Proof.
  destruct rest as [|c r]; simpl; [reflexivity|].
  intros H. apply negb_true_iff in H.
  apply orb_false_iff in H; destruct H as [H _].
  apply orb_false_iff in H; destruct H as [H _].
  apply orb_false_iff in H; destruct H as [H _].
  rewrite H; reflexivity.
Qed.

Lemma scan_frac_none rest :
  ends_token rest = true -> scan_frac rest = ([], rest).
Proof.
  destruct rest as [|c [|d r]]; simpl; try reflexivity.
  intros H. apply negb_true_iff in H.
  repeat (apply orb_false_iff in H; destruct H as [H ?]).
  replace (c =? 46) with false by (symmetry; assumption). reflexivity.
Qed.

Lemma scan_exp_none rest :
  ends_token rest = true -> scan_exp rest = (None, rest).
Proof.
  destruct rest as [|c r]; simpl; try reflexivity.
  intros H. apply negb_true_iff in H.
  repeat (apply orb_false_iff in H; destruct H as [H ?]).
  replace (c =? 101) with false by (symmetry; assumption).
  replace (c =? 69) with false by (symmetry; assumption). reflexivity.
Qed.

Lemma scan_int_digits d ds rest :
  forallb is_digit_val (d :: ds) = true ->
  (d = 0 -> ds = []) ->
  no_digit_ahead rest = true ->
  scan_int (map digit_char (d :: ds) ++ rest) = Some (d :: ds, rest).
Proof.
  intros Hd Hz Hr.
  pose proof (span_digits_chars (d :: ds) rest Hd Hr) as Hs.
  cbn [map app] in *. unfold scan_int.
  simpl in Hd. apply andb_true_iff in Hd; destruct Hd as [Hd1 Hd2].
  destruct (Z.eqb_spec (digit_char d) 48) as [E|E].
  - unfold digit_char in E. assert (d = 0) by lia. subst d.
    rewrite (Hz eq_refl). reflexivity.
  - rewrite is_digit_char by assumption. rewrite Hs. reflexivity.
Qed.

Lemma scan_sign_digit d r :
  is_digit_val d = true ->
  scan_sign (digit_char d :: r) = (false, digit_char d :: r).
Proof.
  intros H. unfold is_digit_val, digit_char in *. zbool.
  unfold scan_sign. ztest. reflexivity.
Qed.

Lemma match_number_body s :
  match_number s = number_body (fst (scan_sign s)) (snd (scan_sign s)).
Proof. unfold match_number. destruct (scan_sign s); reflexivity. Qed.

Lemma match_number_minus r :
  match_number (45 :: r) = number_body true r.
Proof. rewrite match_number_body. reflexivity. Qed.

Lemma match_number_digit d r :
  is_digit_val d = true ->
  match_number (digit_char d :: r) = number_body false (digit_char d :: r).
Proof. intros H. rewrite match_number_body, scan_sign_digit by assumption. reflexivity. Qed.

Lemma number_body_int neg n rest :
  0 <= n -> ends_token rest = true ->
  number_body neg (map digit_char (digits_of n) ++ rest)
  = Some (VInt (if neg then - n else n), rest).
Proof.
  intros Hn Hr.
  destruct (digits_of_spec n Hn) as (d & ds & E1 & E2 & E3 & E4).
  rewrite E1. unfold number_body.
  rewrite scan_int_digits; auto using ends_token_no_digit.
  - rewrite scan_frac_none, scan_exp_none by assumption. rewrite E4. reflexivity.
  - intros H; apply E3; assumption.
Qed.

Lemma digits_of_head n :
  0 <= n -> exists d ds, digits_of n = d :: ds /\ is_digit_val d = true.
Proof.
  intros Hn. destruct (digits_of_spec n Hn) as (d & ds & E1 & E2 & _).
  exists d, ds. split; [assumption|]. simpl in E2.
  apply andb_true_iff in E2; tauto.
Qed.

Lemma match_number_int n rest :
  ends_token rest = true ->
  match_number (int_repr n ++ rest) = Some (VInt n, rest).
Proof.
  intros Hr. unfold int_repr. destruct (n <? 0) eqn:E; zbool.
  - cbn [app]. rewrite match_number_minus, number_body_int by (assumption || lia).
    do 3 f_equal. lia.
  - destruct (digits_of_head n) as (d & ds & E1 & E2); [lia|].
    pose proof (number_body_int false n rest ltac:(lia) Hr) as H.
    rewrite E1 in *. cbn [map app] in *.
    rewrite match_number_digit by assumption. exact H.
Qed.

(** *** Floats *)

Lemma strip_zeros_nz ds : hd 0 ds <> 0 -> strip_zeros ds = ds.
Proof.
  destruct ds as [|d r]; simpl; [reflexivity|].
  intros H. ztest. reflexivity.
Qed.

Lemma strip_zeros_repeat k ds :
  strip_zeros (repeat 0 k ++ ds) = strip_zeros ds.
Proof. induction k; simpl; auto. Qed.

Lemma rev_repeat0 k : rev (repeat 0 k) = repeat 0 k.
Proof.
  induction k; simpl; [reflexivity|].
  rewrite IHk. symmetry. apply repeat_cons.
Qed.

Lemma hd_app_nz (ds t : list Z) : hd 0 ds <> 0 -> hd 0 (ds ++ t) = hd 0 ds.
Proof. destruct ds; simpl; [congruence|reflexivity]. Qed.

Lemma float_of_literal_canon neg ip fp e ds k m :
  hd 0 ds <> 0 -> hd 0 (rev ds) <> 0 ->
  ip ++ fp = repeat 0 k ++ ds ++ repeat 0 m ->
  float_of_literal neg ip fp e
  = FFinite neg ds (Z.of_nat (List.length ip) + e - Z.of_nat k).
Proof.
  intros H1 H2 E. unfold float_of_literal. rewrite E.
  rewrite strip_zeros_repeat.
  rewrite (strip_zeros_nz (ds ++ repeat 0 m))
    by (rewrite hd_app_nz; assumption).
  rewrite rev_app_distr, rev_repeat0, strip_zeros_repeat.
  rewrite strip_zeros_nz, rev_involutive by assumption.
  destruct ds as [|d r]; [simpl in H1; congruence|].
  f_equal. rewrite !length_app, repeat_length. lia.
Qed.

Lemma scan_frac_digits d ds rest :
  forallb is_digit_val (d :: ds) = true ->
  no_digit_ahead rest = true ->
  scan_frac (46 :: map digit_char (d :: ds) ++ rest) = (d :: ds, rest).
Proof.
  intros Hd Hr.
  pose proof (span_digits_chars (d :: ds) rest Hd Hr) as Hs.
  cbn [map app] in *. unfold scan_frac.
  simpl in Hd. apply andb_true_iff in Hd; destruct Hd as [Hd1 Hd2].
  change (46 =? 46) with true. rewrite is_digit_char by assumption.
  cbn [andb]. exact Hs.
Qed.

Lemma scan_frac_e r : scan_frac (101 :: r) = ([], 101 :: r).
Proof. destruct r; reflexivity. Qed.

(** The exponent [float.__repr__] writes, read back. *)
Lemma scan_exp_repr e rest :
  no_digit_ahead rest = true ->
  scan_exp (101 :: (if e <? 0 then 45 else 43)
            :: map digit_char (if Z.abs e <? 10
                               then 0 :: digits_of (Z.abs e)
                               else digits_of (Z.abs e)) ++ rest)
  = (Some e, rest).
Proof.
  intros Hr.
  destruct (digits_of_spec (Z.abs e) (Z.abs_nonneg e))
    as (d & ds & E1 & E2 & E3 & E4).
  set (eds := if Z.abs e <? 10 then 0 :: digits_of (Z.abs e)
              else digits_of (Z.abs e)).
  assert (Hv : digits_value eds = Z.abs e).
  { subst eds. destruct (Z.abs e <? 10); rewrite E1; exact E4. }
  assert (Hf : forallb is_digit_val eds = true).
  { subst eds. destruct (Z.abs e <? 10); rewrite E1; [|exact E2].
    cbn [forallb] in *. rewrite E2. reflexivity. }
  assert (Hh : exists x xs, eds = x :: xs).
  { subst eds. destruct (Z.abs e <? 10); rewrite E1; eauto. }
  destruct Hh as (x & xs & Ex).
  pose proof (span_digits_chars eds rest Hf Hr) as Hs.
  rewrite Ex in Hs, Hf. cbn [map app] in Hs. cbn [forallb] in Hf.
  apply andb_true_iff in Hf; destruct Hf as [Hx _].
  unfold scan_exp. change (101 =? 101) with true. cbn [orb].
  rewrite Ex. cbn [map app].
  destruct (e <? 0) eqn:N; zbool.
  - change (45 =? 45) with true. cbv iota.
    rewrite is_digit_char by assumption. rewrite Hs.
    rewrite <- Ex, Hv. do 2 f_equal. lia.
  - change (43 =? 45) with false. change (43 =? 43) with true. cbv iota.
    rewrite is_digit_char by assumption. rewrite Hs.
    rewrite <- Ex, Hv. do 2 f_equal. lia.
Qed.

Lemma forallb_firstn {A} (p : A -> bool) n l :
  forallb p l = true -> forallb p (firstn n l) = true.
Proof.
  revert n; induction l as [|x l IH]; intros [|n] H; simpl in *; auto.
  apply andb_true_iff in H; destruct H as [-> H]. simpl. auto.
Qed.

Lemma forallb_skipn {A} (p : A -> bool) n l :
  forallb p l = true -> forallb p (skipn n l) = true.
Proof.
  revert n; induction l as [|x l IH]; intros [|n] H; simpl in *; auto.
  apply andb_true_iff in H; destruct H as [_ H]. auto.
Qed.

Lemma forallb_repeat0 k : forallb is_digit_val (repeat 0 k) = true.
Proof. induction k; simpl; auto. Qed.

Lemma no_digit_dot r : no_digit_ahead (46 :: r) = true.
Proof. reflexivity. Qed.

Lemma no_digit_e r : no_digit_ahead (101 :: r) = true.
Proof. reflexivity. Qed.

(** The text of a non-zero finite float, read back. *)
Lemma number_body_float neg d ds dp rest :
  forallb is_digit_val (d :: ds) = true ->
  d <> 0 -> hd 0 (rev (d :: ds)) <> 0 ->
  ends_token rest = true ->
  number_body neg (float_repr_finite (d :: ds) dp ++ rest)
  = Some (VFloat (FFinite neg (d :: ds) dp), rest).
Proof.
  intros Hd Hnz Hlast Hr.
  pose proof (ends_token_no_digit _ Hr) as Hnd.
  assert (Hhd : hd 0 (d :: ds) <> 0) by exact Hnz.
  assert (Hd0 : is_digit_val d = true)
    by (simpl in Hd; apply andb_true_iff in Hd; tauto).
  unfold float_repr_finite.
  destruct ((-4 <? dp) && (dp <=? 16)) eqn:Fix.
  - zbool. destruct (dp <=? 0) eqn:A; zbool.
    + (* 0.000ddd *)
      cbn [app]. unfold number_body, scan_int. change (48 =? 48) with true.
      cbv iota.
      assert (Hx : exists x xs, zeros (- dp) ++ d :: ds = x :: xs).
      { destruct (zeros (- dp)); simpl; eauto. }
      destruct Hx as (x & xs & Ex).
      assert (Hf : forallb is_digit_val (x :: xs) = true).
      { rewrite <- Ex, forallb_app. unfold zeros. rewrite forallb_repeat0. exact Hd. }
      rewrite Ex, scan_frac_digits, scan_exp_none by assumption.
      rewrite (float_of_literal_canon neg [0] (x :: xs) 0 (d :: ds)
                 (S (Z.to_nat (- dp))) 0); try assumption.
      * do 4 f_equal. cbn [List.length]. lia.
      * rewrite <- Ex. simpl. rewrite app_nil_r. reflexivity.
    + destruct (dp <? Z.of_nat (List.length (d :: ds))) eqn:B; zbool.
      * (* ddd.ddd *)
        rewrite <- app_assoc. cbn [app].
        assert (Hx : exists xs, firstn (Z.to_nat dp) (d :: ds) = d :: xs).
        { destruct (Z.to_nat dp) eqn:En; [lia|]. simpl. eauto. }
        destruct Hx as (xs & Ex).
        assert (Hy : exists y ys, skipn (Z.to_nat dp) (d :: ds) = y :: ys).
        { destruct (skipn (Z.to_nat dp) (d :: ds)) eqn:Es; eauto.
          apply (f_equal (@List.length Z)) in Es.
          rewrite length_skipn in Es. cbn [List.length] in Es, B. lia. }
        destruct Hy as (y & ys & Ey).
        pose proof (forallb_firstn is_digit_val (Z.to_nat dp) _ Hd) as Hf1.
        pose proof (forallb_skipn is_digit_val (Z.to_nat dp) _ Hd) as Hf2.
        pose proof (firstn_skipn (Z.to_nat dp) (d :: ds)) as Hfs.
        pose proof (length_firstn (Z.to_nat dp) (d :: ds)) as Hlen.
        rewrite Ex in *. rewrite Ey in *.
        unfold number_body.
        rewrite scan_int_digits; auto using no_digit_dot; [|congruence].
        rewrite scan_frac_digits, scan_exp_none by assumption.
        rewrite (float_of_literal_canon neg (d :: xs) (y :: ys) 0 (d :: ds) 0 0);
          try assumption.
        -- do 4 f_equal. rewrite Hlen. cbn [List.length] in *. lia.
        -- simpl. rewrite app_nil_r. exact Hfs.
      * (* ddd000.0 *)
        rewrite <- app_assoc. cbn [app].
        set (z := zeros (dp - Z.of_nat (List.length (d :: ds)))).
        assert (Hf : forallb is_digit_val ((d :: ds) ++ z) = true).
        { rewrite forallb_app, Hd. unfold z, zeros. apply forallb_repeat0. }
        change ((d :: ds) ++ z) with (d :: ds ++ z) in *.
        unfold number_body.
        rewrite scan_int_digits; auto using no_digit_dot; [|congruence].
        pose proof (scan_frac_digits 0 [] rest eq_refl Hnd) as Hfr.
        cbn [map app] in Hfr. change (digit_char 0) with 48 in Hfr.
        rewrite Hfr, scan_exp_none by assumption.
        rewrite (float_of_literal_canon neg (d :: ds ++ z) [0] 0 (d :: ds) 0
                   (S (Z.to_nat (dp - Z.of_nat (List.length (d :: ds))))));
          try assumption.
        -- do 4 f_equal. cbn [List.length]. rewrite length_app.
           unfold z, zeros. rewrite repeat_length. cbn [List.length] in B |- *. lia.
        -- cbn [app repeat]. f_equal. rewrite <- app_assoc. f_equal.
           unfold z, zeros. symmetry. apply repeat_cons.
  - (* d.ddde+XX *)
    cbv zeta. rewrite <- app_assoc. cbn [app].
    pose proof (scan_exp_repr (dp - 1) rest Hnd) as He.
    destruct ds as [|d2 ds].
    + cbn [app]. unfold number_body.
      pose proof (scan_int_digits d [] (101 :: (if dp - 1 <? 0 then 45 else 43)
          :: map digit_char (if Z.abs (dp - 1) <? 10
                             then 0 :: digits_of (Z.abs (dp - 1))
                             else digits_of (Z.abs (dp - 1))) ++ rest)
          Hd (fun _ => eq_refl) eq_refl) as Hi.
      cbn [map app] in Hi. rewrite Hi, scan_frac_e, He.
      rewrite (float_of_literal_canon neg [d] [] (dp - 1) [d] 0 0);
        try assumption; [|reflexivity].
      do 4 f_equal. cbn [List.length]. lia.
    + cbn [map app]. unfold number_body.
      pose proof (scan_int_digits d [] (46 :: map digit_char (d2 :: ds)
          ++ 101 :: (if dp - 1 <? 0 then 45 else 43)
          :: map digit_char (if Z.abs (dp - 1) <? 10
                             then 0 :: digits_of (Z.abs (dp - 1))
                             else digits_of (Z.abs (dp - 1))) ++ rest)) as Hi.
      cbn [map app] in Hi. rewrite Hi; try reflexivity;
        [|cbn [forallb]; rewrite Hd0; reflexivity].
      pose proof (scan_frac_digits d2 ds (101 :: (if dp - 1 <? 0 then 45 else 43)
          :: map digit_char (if Z.abs (dp - 1) <? 10
                             then 0 :: digits_of (Z.abs (dp - 1))
                             else digits_of (Z.abs (dp - 1))) ++ rest)) as Hfr.
      cbn [map app] in Hfr.
      rewrite Hfr; try reflexivity;
        [|cbn [forallb] in Hd; apply andb_true_iff in Hd; tauto].
      rewrite He.
      rewrite (float_of_literal_canon neg [d] (d2 :: ds) (dp - 1) (d :: d2 :: ds) 0 0);
        try assumption.
      * do 4 f_equal. cbn [List.length]. lia.
      * simpl. rewrite app_nil_r. reflexivity.
Qed.

Lemma float_ok_finite neg ds dp :
  float_ok (FFinite neg ds dp) = true ->
  forallb is_digit_val ds = true /\
  ((ds = [0] /\ dp = 1) \/ (hd 0 ds <> 0 /\ hd 0 (rev ds) <> 0)).
Proof.
  unfold float_ok. intros H. apply andb_true_iff in H; destruct H as [H1 H2].
  split; [assumption|]. apply orb_true_iff in H2; destruct H2 as [H2|H2].
  - left. destruct ds as [|d [|? ?]]; try discriminate. zbool. subst; auto.
  - right. zbool. auto.
Qed.

Lemma match_number_float neg ds dp rest :
  float_ok (FFinite neg ds dp) = true ->
  ends_token rest = true ->
  match_number (float_repr (FFinite neg ds dp) ++ rest)
  = Some (VFloat (FFinite neg ds dp), rest).
Proof.
  intros Hok Hr. apply float_ok_finite in Hok. destruct Hok as [Hd Hc].
  pose proof (ends_token_no_digit _ Hr) as Hnd.
  assert (Hb : forall b, number_body b (float_repr_finite ds dp ++ rest)
                         = Some (VFloat (FFinite b ds dp), rest)).
  { intros b. destruct Hc as [[-> ->]|[H1 H2]].
    - change (float_repr_finite [0] 1) with [48; 46; 48]. cbn [app].
      unfold number_body, scan_int. change (48 =? 48) with true. cbv iota.
      pose proof (scan_frac_digits 0 [] rest eq_refl Hnd) as Hfr.
      cbn [map app] in Hfr. change (digit_char 0) with 48 in Hfr.
      rewrite Hfr, scan_exp_none by assumption. reflexivity.
    - destruct ds as [|d ds]; [simpl in H1; congruence|].
      apply number_body_float; auto. }
  assert (Hh : exists d t, float_repr_finite ds dp ++ rest = digit_char d :: t
                           /\ is_digit_val d = true).
  { destruct Hc as [[-> ->]|[H1 H2]].
    - exists 0, (46 :: 48 :: rest). split; reflexivity.
    - destruct ds as [|d ds]; [simpl in H1; congruence|].
      assert (Hd0 : is_digit_val d = true)
        by (simpl in Hd; apply andb_true_iff in Hd; tauto).
      unfold float_repr_finite.
      destruct ((-4 <? dp) && (dp <=? 16)) eqn:Fix.
      + destruct (dp <=? 0) eqn:A.
        * exists 0. eexists. split; [reflexivity|reflexivity].
        * zbool. destruct (dp <? Z.of_nat (List.length (d :: ds))) eqn:B.
          -- destruct (Z.to_nat dp) eqn:En; [lia|].
             exists d. eexists. split; [reflexivity|assumption].
          -- exists d. eexists. split; [reflexivity|assumption].
      + cbv zeta. destruct ds; exists d; eexists; (split; [reflexivity|assumption]). }
  unfold float_repr. destruct neg.
  - cbn [app]. rewrite match_number_minus. apply Hb.
  - cbn [app]. destruct Hh as (d & t & E & Hd0). specialize (Hb false).
    rewrite E in *. rewrite match_number_digit by assumption. exact Hb.
Qed.

(** *** [_scan_once], one step at a time *)

Lemma scan_once_number f s vr :
  numeric_head s = true -> match_number s = Some vr ->
  scan_once (S f) s = Ok vr.
Proof.
  destruct s as [|c r]; [discriminate|]. cbn [numeric_head]. intros Hc Hm.
  assert (Hb : 45 <= c <= 57).
  { apply orb_true_iff in Hc. destruct Hc as [Hc|Hc];
      unfold is_digit in *; zbool; lia. }
  cbn [scan_once]. ztest. unfold scan_atom.
  cbn [lit ord starts_with]. 
  change (ord "n"%char) with 110. change (ord "t"%char) with 116.
  change (ord "f"%char) with 102.
  ztest. rewrite Hm. reflexivity.
Qed.

Lemma int_repr_head n rest : numeric_head (int_repr n ++ rest) = true.
Proof.
  unfold int_repr. destruct (n <? 0) eqn:E; [reflexivity|]. zbool.
  destruct (digits_of_head n) as (d & ds & E1 & E2); [lia|].
  rewrite E1. cbn [map app numeric_head].
  rewrite is_digit_char by assumption. reflexivity.
Qed.

Lemma float_repr_head neg ds dp rest vr :
  match_number (float_repr (FFinite neg ds dp) ++ rest) = Some vr ->
  numeric_head (float_repr (FFinite neg ds dp) ++ rest) = true.
Proof.
  unfold float_repr. destruct neg; [reflexivity|]. cbn [app].
  destruct (float_repr_finite ds dp ++ rest) as [|c r]; [discriminate|].
  unfold match_number, scan_sign. cbn [numeric_head].
  destruct (c =? 45); [rewrite orb_true_r; reflexivity|].
  unfold scan_int. destruct (c =? 48) eqn:E.
  - zbool; subst; reflexivity.
  - destruct (is_digit c); [reflexivity|discriminate].
Qed.

Lemma skip_ws_start c t : 32 < c -> skip_ws (c :: t) = c :: t.
Proof. intros H. cbn [skip_ws]. unfold is_ws. ztest. reflexivity. Qed.

(** *** What [encode] starts with *)

Lemma encode_head v :
  json_representable v = true ->
  exists c t, encode v = c :: t /\ 32 < c < 127 /\ c <> 93 /\ c <> 125.
Proof.
  destruct v as [|b|n|fl|s|l|d|]; intros Hok; try discriminate.
  - exists 110. eexists. split; [reflexivity|lia].
  - destruct b; [exists 116|exists 102]; eexists; (split; [reflexivity|lia]).
  - pose proof (int_repr_head n []) as H. rewrite app_nil_r in H.
    cbn [encode]. destruct (int_repr n) as [|c t]; [discriminate|].
    exists c, t. split; [reflexivity|]. cbn [numeric_head] in H.
    apply orb_true_iff in H. destruct H as [H|H]; unfold is_digit in *; zbool; lia.
  - destruct fl as [|neg|neg ds dp]; [discriminate| |].
    + destruct neg; [exists 45|exists 73]; eexists; (split; [reflexivity|lia]).
    + cbn [json_representable] in Hok.
      pose proof (match_number_float neg ds dp [] Hok eq_refl) as Hm.
      pose proof (float_repr_head _ _ _ _ _ Hm) as H. rewrite app_nil_r in H.
      cbn [encode]. destruct (float_repr (FFinite neg ds dp)) as [|c t]; [discriminate|].
      exists c, t. split; [reflexivity|]. cbn [numeric_head] in H.
      apply orb_true_iff in H. destruct H as [H|H]; unfold is_digit in *; zbool; lia.
  - exists 34. eexists. split; [reflexivity|lia].
  - exists 91. eexists. split; [reflexivity|lia].
  - exists 123. eexists. split; [reflexivity|lia].
Qed.

(** *** Induction on values, through lists and dicts *)

Section ValueInd.
Variable P : value -> Prop.
Hypothesis HNone : P VNone.
Hypothesis HBool : forall b, P (VBool b).
Hypothesis HInt : forall n, P (VInt n).
Hypothesis HFloat : forall f, P (VFloat f).
Hypothesis HStr : forall s, P (VStr s).
Hypothesis HList : forall l, Forall P l -> P (VList l).
Hypothesis HDict : forall d, Forall (fun kv => P (snd kv)) d -> P (VDict d).
Hypothesis HObject : P VObject.

Fixpoint value_nested_ind (v : value) : P v :=
  match v with
  | VNone => HNone
  | VBool b => HBool b
  | VInt n => HInt n
  | VFloat f => HFloat f
  | VStr s => HStr s
  | VList l =>
      HList l
        ((fix go (l : list value) : Forall P l :=
            match l with
            | [] => Forall_nil P
            | x :: r => Forall_cons x (value_nested_ind x) (go r)
            end) l)
  | VDict d =>
      HDict d
        ((fix go (d : list (str * value))
            : Forall (fun kv => P (snd kv)) d :=
            match d with
            | [] => Forall_nil _
            | kx :: r =>
                Forall_cons (P := fun kv => P (snd kv)) kx
                            (value_nested_ind (snd kx)) (go r)
            end) d)
  | VObject => HObject
  end.
End ValueInd.

(** *** The scanner, one step at a time *)

Lemma scan_once_string f r :
  scan_once (S f) (34 :: r) =
  match scanstring r with
  | Some (x, rest) => Ok (VStr x, rest)
  | None => Err
  end.
Proof. reflexivity. Qed.

Lemma scan_once_array f r :
  scan_once (S f) (91 :: r) =
  match skip_ws r with
  | c1 :: r1 =>
      if c1 =? 93 then Ok (VList [], r1)
      else
        match array_items f (c1 :: r1) with
        | Ok (vs, rest) => Ok (VList vs, rest)
        | Err => Err
        | OutOfFuel => OutOfFuel
        end
  | [] => Err
  end.
Proof. reflexivity. Qed.

Lemma scan_once_object f r :
  scan_once (S f) (123 :: r) =
  match skip_ws r with
  | c1 :: r1 =>
      if c1 =? 125 then Ok (VDict [], r1)
      else if c1 =? 34 then
        match object_members f r1 with
        | Ok (pairs, rest) => Ok (VDict (dict_of_pairs pairs), rest)
        | Err => Err
        | OutOfFuel => OutOfFuel
        end
      else Err
  | [] => Err
  end.
Proof. reflexivity. Qed.

Lemma array_items_step f s :
  array_items (S f) s =
  match scan_once f s with
  | Ok (v, r) =>
      match skip_ws r with
      | c :: r1 =>
          if c =? 93 then Ok ([v], r1)
          else if c =? 44 then
            match array_items f (skip_ws r1) with
            | Ok (vs, rest) => Ok (v :: vs, rest)
            | Err => Err
            | OutOfFuel => OutOfFuel
            end
          else Err
      | [] => Err
      end
  | Err => Err
  | OutOfFuel => OutOfFuel
  end.
Proof. reflexivity. Qed.

Lemma object_members_step f s :
  object_members (S f) s =
  match scanstring s with
  | None => Err
  | Some (key, r) =>
      match skip_ws r with
      | c :: r1 =>
          if c =? 58 then
            match scan_once f (skip_ws r1) with
            | Ok (v, r2) =>
                match skip_ws r2 with
                | c2 :: r3 =>
                    if c2 =? 125 then Ok ([(key, v)], r3)
                    else if c2 =? 44 then
                      match skip_ws r3 with
                      | c3 :: r4 =>
                          if c3 =? 34 then
                            match object_members f r4 with
                            | Ok (kvs, rest) => Ok ((key, v) :: kvs, rest)
                            | Err => Err
                            | OutOfFuel => OutOfFuel
                            end
                          else Err
                      | [] => Err
                      end
                    else Err
                | [] => Err
                end
            | Err => Err
            | OutOfFuel => OutOfFuel
            end
          else Err
      | [] => Err
      end
  end.
Proof. reflexivity. Qed.

(** *** [scan_once] reads back what [encode] wrote *)

Lemma encode_items_cons x l :
  encode_items (x :: l) = encode x ++ item_tail l.
Proof. destruct l; cbn [encode_items item_tail]; [rewrite app_nil_r|]; reflexivity. Qed.

Lemma encode_members_cons k x d :
  encode_members ((k, x) :: d)
  = 34 :: flat_map escape_char k ++ 34 :: 58 :: 32 :: encode x ++ member_tail d.
Proof.
  destruct d; cbn [encode_members member_tail]; unfold encode_basestring_ascii;
    cbn [app]; rewrite <- app_assoc; cbn [app]; [rewrite app_nil_r|]; reflexivity.
Qed.

Lemma encode_nonempty v rest :
  json_representable v = true ->
  exists c t, encode v ++ rest = c :: t /\ 32 < c /\ c <> 93 /\ c <> 125.
Proof.
  intros H. destruct (encode_head v H) as (c & t & E & B1 & B2 & B3).
  exists c, (t ++ rest). rewrite E. split; [reflexivity|lia].
Qed.

Lemma skip_ws_encode v rest :
  json_representable v = true ->
  skip_ws (encode v ++ rest) = encode v ++ rest.
Proof.
  intros H. destruct (encode_nonempty v rest H) as (c & t & E & B & _).
  rewrite E. apply skip_ws_start; assumption.
Qed.

Lemma array_items_encoded l : forall x,
  Forall reads_back (x :: l) ->
  forallb json_representable (x :: l) = true ->
  forall f rest,
    (2 * List.length (encode_items (x :: l) ++ 93%Z :: rest) + 1 < f)%nat ->
    array_items f (encode_items (x :: l) ++ 93 :: rest) = Ok (x :: l, rest).
Proof.
  induction l as [|y l IH]; intros x HF Hok f rest Hf;
    inversion HF as [|? ? Hx HF']; subst;
    cbn [forallb] in Hok; apply andb_true_iff in Hok; destruct Hok as [Hokx Hok];
    (destruct f as [|f]; [lia|]); rewrite array_items_step.
  - cbn [encode_items] in *.
    rewrite (Hx f (93 :: rest)) by (reflexivity || lia).
    rewrite skip_ws_start by lia. reflexivity.
  - rewrite encode_items_cons in *. cbn [item_tail] in *.
    rewrite <- app_assoc in *. cbn [app] in *.
    destruct (encode_head x Hokx) as (c & t & E & _).
    assert (Hlen : (List.length (encode_items (y :: l) ++ 93%Z :: rest) + 3
                    <= List.length (encode x ++ 44%Z :: 32%Z
                                      :: encode_items (y :: l) ++ 93%Z :: rest))%nat).
    { rewrite E. cbn [app List.length]. rewrite !length_app.
      cbn [List.length]. rewrite !length_app. cbn [List.length]. lia. }
    rewrite (Hx f (44 :: 32 :: encode_items (y :: l) ++ 93 :: rest))
      by (reflexivity || lia).
    rewrite skip_ws_start by lia.
    change (44 =? 93) with false. change (44 =? 44) with true. cbv iota.
    replace (skip_ws (32 :: encode_items (y :: l) ++ 93 :: rest))
      with (encode_items (y :: l) ++ 93 :: rest).
    + rewrite IH; auto. lia.
    + cbn [skip_ws]. change (is_ws 32) with true. cbv iota.
      rewrite encode_items_cons, <- app_assoc. symmetry.
      apply skip_ws_encode. cbn [forallb] in Hok.
      apply andb_true_iff in Hok; tauto.
Qed.

Lemma ends_token_member_tail d rest :
  ends_token (member_tail d ++ 125 :: rest) = true.
Proof. destruct d; reflexivity. Qed.

Lemma object_members_encoded d : forall k x,
  Forall (fun kv => reads_back (snd kv)) ((k, x) :: d) ->
  members_ok ((k, x) :: d) = true ->
  forall f rest,
    (2 * List.length (flat_map escape_char k ++ 34%Z :: 58%Z :: 32%Z
                        :: encode x ++ member_tail d ++ 125%Z :: rest) + 1
     < f)%nat ->
    object_members f (flat_map escape_char k ++ 34 :: 58 :: 32
                        :: encode x ++ member_tail d ++ 125 :: rest)
    = Ok ((k, x) :: d, rest).
Proof.
  induction d as [|[k' x'] d IH]; intros k x HF Hok f rest Hf;
    inversion HF as [|? ? Hx HF']; subst; cbn [snd] in Hx;
    cbn [members_ok] in Hok; fold members_ok in Hok;
    apply andb_true_iff in Hok; destruct Hok as [Hok Hokd];
    apply andb_true_iff in Hok; destruct Hok as [Hk Hokx];
    (destruct f as [|f]; [lia|]); rewrite object_members_step;
    rewrite scanstring_escaped by assumption;
    rewrite skip_ws_start by lia;
    change (58 =? 58) with true; cbv iota;
    cbn [skip_ws]; change (is_ws 32) with true; cbv iota;
    rewrite skip_ws_encode by assumption;
    rewrite length_app in Hf; cbn [List.length] in Hf.
  - cbn [member_tail app] in *.
    rewrite (Hx f (125 :: rest)) by (reflexivity || lia).
    rewrite skip_ws_start by lia. reflexivity.
  - cbn [member_tail] in *. rewrite encode_members_cons in *.
    cbn [app] in *. repeat (rewrite <- app_assoc in *; cbn [app] in * ).
    set (T := flat_map escape_char k' ++ 34 :: 58 :: 32
                :: encode x' ++ member_tail d ++ 125 :: rest) in *.
    pose proof Hf as Hf'.
    rewrite (length_app (encode x)) in Hf'. cbn [List.length] in Hf'.
    rewrite (Hx f (44 :: 32 :: 34 :: T)) by (reflexivity || lia).
    rewrite skip_ws_start by lia.
    change (44 =? 125) with false. change (44 =? 44) with true. cbv iota.
    cbn [skip_ws]. change (is_ws 32) with true. change (is_ws 34) with false.
    cbv iota. change (34 =? 34) with true. cbv iota.
    subst T. rewrite IH; auto. lia.
Qed.

Lemma Forall_reads_back_items l :
  Forall (fun v => json_representable v = true -> reads_back v) l ->
  forallb json_representable l = true -> Forall reads_back l.
Proof.
  induction 1 as [|x l Hx _ IH]; intros Hok; constructor;
    cbn [forallb] in Hok; apply andb_true_iff in Hok; tauto.
Qed.

Lemma Forall_reads_back_members d :
  Forall (fun kv => json_representable (snd kv) = true -> reads_back (snd kv)) d ->
  members_ok d = true -> Forall (fun kv => reads_back (snd kv)) d.
Proof.
  induction 1 as [|[k x] d Hx _ IH]; intros Hok; constructor;
    cbn [members_ok] in Hok; fold members_ok in Hok;
    apply andb_true_iff in Hok; destruct Hok as [Hok Hokd];
    apply andb_true_iff in Hok; destruct Hok as [Hk Hokx]; auto.
Qed.

(** The scanner reads back every JSON-representable value. *)
Lemma scan_once_encode v : json_representable v = true -> reads_back v.
Proof.
  induction v as [|b|n|fl|s|l IH|d IH|] using value_nested_ind;
    intros Hok f rest Hr Hf; (destruct f as [|f]; [lia|]).
  - reflexivity.
  - destruct b; reflexivity.
  - cbn [encode]. apply scan_once_number;
      [apply int_repr_head | apply match_number_int; assumption].
  - destruct fl as [|neg|neg ds dp]; [discriminate| |].
    + destruct neg; reflexivity.
    + cbn [encode]. cbn [json_representable] in Hok.
      pose proof (match_number_float neg ds dp rest Hok Hr) as Hm.
      apply scan_once_number; [eapply float_repr_head; eassumption|assumption].
  - cbn [encode json_representable] in *. unfold encode_basestring_ascii.
    cbn [app]. rewrite <- app_assoc. cbn [app].
    rewrite scan_once_string, scanstring_escaped by assumption. reflexivity.
  - destruct l as [|x l]; [reflexivity|].
    change (encode (VList (x :: l))) with (91 :: encode_items (x :: l) ++ [93]) in *.
    cbn [json_representable] in Hok.
    pose proof (Forall_reads_back_items _ IH Hok) as HF.
    cbn [app] in *. rewrite <- app_assoc in *. cbn [app] in *.
    rewrite scan_once_array.
    assert (Hh : exists c t, encode_items (x :: l) ++ 93 :: rest = c :: t
                             /\ 32 < c /\ c <> 93).
    { rewrite encode_items_cons, <- app_assoc.
      cbn [forallb] in Hok. apply andb_true_iff in Hok. destruct Hok as [Hx _].
      destruct (encode_nonempty x (item_tail l ++ 93 :: rest) Hx)
        as (c & t & E & B1 & B2 & _). eauto. }
    destruct Hh as (c & t & E & B1 & B2).
    rewrite E. rewrite skip_ws_start by assumption.
    replace (c =? 93) with false by (symmetry; apply Z.eqb_neq; assumption).
    rewrite <- E. rewrite array_items_encoded; auto.
    cbn [List.length] in Hf. lia.
  - destruct d as [|[k x] d]; [reflexivity|].
    change (json_representable (VDict ((k, x) :: d)))
      with (distinct_keys (map fst ((k, x) :: d)) && members_ok ((k, x) :: d)) in Hok.
    apply andb_true_iff in Hok. destruct Hok as [Hkeys Hok].
    pose proof (Forall_reads_back_members _ IH Hok) as HF.
    change (encode (VDict ((k, x) :: d)))
      with (123 :: encode_members ((k, x) :: d) ++ [125]) in *.
    rewrite encode_members_cons in *.
    cbn [app] in *. repeat (rewrite <- app_assoc in *; cbn [app] in * ).
    rewrite scan_once_object. rewrite skip_ws_start by lia.
    change (34 =? 125) with false. change (34 =? 34) with true. cbv iota.
    rewrite object_members_encoded; auto.
    + rewrite dict_of_pairs_distinct by assumption. reflexivity.
    + cbn [List.length] in Hf. lia.
  - discriminate.
Qed.

(** [json.loads(json.dumps(v)) == v] for every JSON-representable [v]. *)
Lemma decode_encode v :
  json_representable v = true -> decode (encode v) = Ok v.
Proof.
  intros Hok. unfold decode.
  destruct (encode_head v Hok) as (c & t & E & B & _).
  assert (Hb : has_bom (encode v) = false).
  { rewrite E. cbn [has_bom]. apply Z.eqb_neq. lia. }
  rewrite Hb.
  assert (Hs : skip_ws (encode v) = encode v).
  { rewrite E. apply skip_ws_start. lia. }
  rewrite Hs.
  pose proof (scan_once_encode v Hok (S (2 * List.length (encode v))) []) as H.
  rewrite app_nil_r in H. rewrite H by (reflexivity || lia). reflexivity.
Qed.

Lemma representable_serializable v :
  json_representable v = true -> serializable v = true.
Proof.
  induction v as [|b|n|fl|s|l IH|d IH|] using value_nested_ind;
    intros Hok; try reflexivity; try discriminate.
  - cbn [json_representable serializable] in *.
    induction IH as [|x l Hx _ IHl]; [reflexivity|].
    cbn [forallb] in *. apply andb_true_iff in Hok. destruct Hok as [H1 H2].
    rewrite Hx, IHl by assumption. reflexivity.
  - change (json_representable (VDict d))
      with (distinct_keys (map fst d) && members_ok d) in Hok.
    apply andb_true_iff in Hok. destruct Hok as [_ Hok].
    cbn [serializable].
    induction IH as [|[k x] d Hx _ IHd]; [reflexivity|].
    cbn [members_ok] in Hok; fold members_ok in Hok.
    apply andb_true_iff in Hok; destruct Hok as [Hok Hokd].
    apply andb_true_iff in Hok; destruct Hok as [Hk Hokx].
    cbn [snd] in Hx. rewrite Hx, IHd by assumption. reflexivity.
Qed.

Lemma loads_dumps v :
  json_representable v = true ->
  exists text, dumps v = Some text /\ loads text = Some v.
Proof.
  intros Hok. exists (encode v). unfold dumps.
  rewrite representable_serializable by assumption.
  split; [reflexivity|]. unfold loads.
  rewrite decode_encode by assumption. reflexivity.
Qed.

(** *** The scanner consumes its input, so [loads] never runs out of fuel *)

Ltac break_match_in H :=
  match type of H with
  | context [match ?x with _ => _ end] => destruct x eqn:?
  end.

Lemma skip_ws_length s : (List.length (skip_ws s) <= List.length s)%nat.
Proof.
  induction s as [|c s IH]; cbn [skip_ws List.length]; [lia|].
  destruct (is_ws c); cbn [List.length]; lia.
Qed.

Lemma skip_ws_cons_length s c r :
  skip_ws s = c :: r -> (List.length r < List.length s)%nat.
Proof.
  intros E. pose proof (skip_ws_length s) as H. rewrite E in H.
  cbn [List.length] in H. lia.
Qed.

Lemma push_some c o x r :
  push c o = Some (x, r) -> exists x', o = Some (x', r).
Proof.
  destruct o as [[x' r']|]; cbn [push]; [|discriminate].
  intros [= _ <-]. eauto.
Qed.

Lemma scanstring_length n : forall s x r,
  (List.length s <= n)%nat ->
  scanstring s = Some (x, r) -> (List.length r < List.length s)%nat.
Proof.
  induction n as [|n IH]; intros s x r Hn H;
    (destruct s as [|c s1]; [discriminate|]); cbn [List.length] in Hn; [lia|].
  cbn [scanstring] in H.
  repeat (break_match_in H; try discriminate).
  all: try (injection H as <- <-; cbn [List.length]; lia).
  all: apply push_some in H; destruct H as (x' & H); apply IH in H;
    subst; cbn [List.length] in *; lia.
Qed.

Lemma scanstring_shorter s x r :
  scanstring s = Some (x, r) -> (List.length r < List.length s)%nat.
Proof. apply (scanstring_length (List.length s)); lia. Qed.

Lemma span_digits_length s :
  (List.length (snd (span_digits s)) <= List.length s)%nat.
Proof.
  induction s as [|c s IH]; cbn [span_digits]; [cbn; lia|].
  destruct (is_digit c); [|cbn; lia].
  destruct (span_digits s); cbn [snd List.length] in *. lia.
Qed.

Lemma span_digits_shorter s ds r :
  span_digits s = (ds, r) -> (List.length r <= List.length s)%nat.
Proof. intros E. pose proof (span_digits_length s) as H. rewrite E in H. exact H. Qed.

Lemma scan_sign_length s neg s1 :
  scan_sign s = (neg, s1) -> (List.length s1 <= List.length s)%nat.
Proof.
  unfold scan_sign. intros H. repeat (break_match_in H);
    injection H as <- <-; cbn [List.length]; lia.
Qed.

Lemma scan_int_length s ip s2 :
  scan_int s = Some (ip, s2) -> (List.length s2 < List.length s)%nat.
Proof.
  unfold scan_int. intros H. destruct s as [|c r]; [discriminate|].
  destruct (c =? 48); [injection H as <- <-; cbn [List.length]; lia|].
  destruct (is_digit c) eqn:D; [|discriminate].
  injection H as H. cbn [span_digits] in H. rewrite D in H.
  destruct (span_digits r) eqn:E. injection H as <- <-.
  apply span_digits_shorter in E. cbn [List.length]. lia.
Qed.

Lemma scan_frac_length s fp s3 :
  scan_frac s = (fp, s3) -> (List.length s3 <= List.length s)%nat.
Proof.
  unfold scan_frac. intros H.
  repeat (break_match_in H); try (injection H as <- <-; lia).
  all: apply span_digits_shorter in H; cbn [List.length] in *; lia.
Qed.

Lemma scan_exp_length s ex s4 :
  scan_exp s = (ex, s4) -> (List.length s4 <= List.length s)%nat.
Proof.
  unfold scan_exp. intros H.
  destruct s as [|e r]; [injection H as <- <-; lia|].
  destruct ((e =? 101) || (e =? 69)); [|injection H as <- <-; lia].
  match type of H with
  | context [let '(sg, r1) := ?m in _] => destruct m as [sg r1] eqn:E
  end.
  assert (L : (List.length r1 <= List.length r)%nat).
  { destruct r as [|c r']; [injection E as <- <-; lia|].
    repeat (break_match_in E); injection E as <- <-; cbn [List.length]; lia. }
  destruct r1 as [|d r2]; [injection H as <- <-; lia|].
  destruct (is_digit d); [|injection H as <- <-; lia].
  destruct (span_digits (d :: r2)) as [ds r3] eqn:E3.
  apply span_digits_shorter in E3. injection H as <- <-.
  cbn [List.length] in *. lia.
Qed.

Lemma match_number_length s v r :
  match_number s = Some (v, r) -> (List.length r < List.length s)%nat.
Proof.
  unfold match_number. intros H.
  destruct (scan_sign s) as [neg s1] eqn:E1. apply scan_sign_length in E1.
  destruct (scan_int s1) as [[ip s2]|] eqn:E2; [|discriminate].
  apply scan_int_length in E2.
  destruct (scan_frac s2) as [fp s3] eqn:E3. apply scan_frac_length in E3.
  destruct (scan_exp s3) as [ex s4] eqn:E4. apply scan_exp_length in E4.
  assert (r = s4) by (destruct fp, ex; injection H as _ <-; reflexivity).
  subst. lia.
Qed.

Lemma starts_with_length p : forall s r,
  starts_with p s = Some r -> List.length s = (List.length p + List.length r)%nat.
Proof.
  induction p as [|a p IH]; intros s r H; cbn [starts_with] in H.
  - injection H as <-. reflexivity.
  - destruct s as [|c s]; [discriminate|]. destruct (a =? c); [|discriminate].
    apply IH in H. cbn [List.length]. lia.
Qed.

Lemma scan_atom_length s v r :
  scan_atom s = Ok (v, r) -> (List.length r < List.length s)%nat.
Proof.
  unfold scan_atom. intros H.
  repeat (break_match_in H; try discriminate).
  all: first [injection H as <- <- | injection H as ->].
  all: try match goal with
       | E : match_number _ = Some _ |- _ => apply match_number_length in E; lia
       end.
  all: repeat match goal with
       | E : starts_with _ _ = Some _ |- _ => apply starts_with_length in E
       end; cbn in *; lia.
Qed.

Lemma scan_atom_fuel s : scan_atom s <> OutOfFuel.
Proof.
  unfold scan_atom.
  repeat match goal with
  | |- context [match ?x with _ => _ end] => destruct x
  end; discriminate.
Qed.

(** What each scanning function returns is strictly shorter than what
    it was given. *)
Lemma scan_consumes f :
  (forall s v r, scan_once f s = Ok (v, r) ->
                 (List.length r < List.length s)%nat) /\
  (forall s vs r, array_items f s = Ok (vs, r) ->
                  (List.length r < List.length s)%nat) /\
  (forall s kvs r, object_members f s = Ok (kvs, r) ->
                   (List.length r < List.length s)%nat).
Proof.
  induction f as [|f (IH1 & IH2 & IH3)];
    [repeat split; intros; discriminate|].
  split; [|split].
  - intros s v r H. destruct s as [|c s1]; [discriminate|].
    cbn [scan_once] in H. cbn [List.length].
    destruct (c =? 34).
    { destruct (scanstring s1) as [[x rest]|] eqn:E; [|discriminate].
      injection H as <- <-. apply scanstring_shorter in E. lia. }
    destruct (c =? 123).
    { destruct (skip_ws s1) as [|c1 r1] eqn:E; [discriminate|].
      apply skip_ws_cons_length in E.
      destruct (c1 =? 125); [injection H as <- <-; lia|].
      destruct (c1 =? 34); [|discriminate].
      destruct (object_members f r1) as [[pairs rest]| |] eqn:E2; try discriminate.
      injection H as <- <-. apply IH3 in E2. lia. }
    destruct (c =? 91).
    { destruct (skip_ws s1) as [|c1 r1] eqn:E; [discriminate|].
      pose proof (skip_ws_length s1) as L. rewrite E in L.
      destruct (c1 =? 93); [injection H as <- <-; cbn [List.length] in L; lia|].
      destruct (array_items f (c1 :: r1)) as [[vs rest]| |] eqn:E2; try discriminate.
      injection H as <- <-. apply IH2 in E2. lia. }
    apply scan_atom_length in H. cbn [List.length] in H. lia.
  - intros s vs r H. rewrite array_items_step in H.
    destruct (scan_once f s) as [[v r0]| |] eqn:E0; try discriminate.
    apply IH1 in E0.
    destruct (skip_ws r0) as [|c r1] eqn:E1; [discriminate|].
    apply skip_ws_cons_length in E1.
    destruct (c =? 93); [injection H as <- <-; lia|].
    destruct (c =? 44); [|discriminate].
    destruct (array_items f (skip_ws r1)) as [[vs' rest]| |] eqn:E2; try discriminate.
    injection H as <- <-. apply IH2 in E2.
    pose proof (skip_ws_length r1). lia.
  - intros s kvs r H. rewrite object_members_step in H.
    destruct (scanstring s) as [[key r0]|] eqn:E0; [|discriminate].
    apply scanstring_shorter in E0.
    destruct (skip_ws r0) as [|c r1] eqn:E1; [discriminate|].
    apply skip_ws_cons_length in E1.
    destruct (c =? 58); [|discriminate].
    destruct (scan_once f (skip_ws r1)) as [[v r2]| |] eqn:E2; try discriminate.
    apply IH1 in E2. pose proof (skip_ws_length r1).
    destruct (skip_ws r2) as [|c2 r3] eqn:E3; [discriminate|].
    apply skip_ws_cons_length in E3.
    destruct (c2 =? 125); [injection H as <- <-; lia|].
    destruct (c2 =? 44); [|discriminate].
    destruct (skip_ws r3) as [|c3 r4] eqn:E4; [discriminate|].
    apply skip_ws_cons_length in E4.
    destruct (c3 =? 34); [|discriminate].
    destruct (object_members f r4) as [[kvs' rest]| |] eqn:E5; try discriminate.
    injection H as <- <-. apply IH3 in E5. lia.
Qed.

(** Fuel twice the length of the input is enough. *)
Lemma scan_fuel f :
  (forall s, (2 * List.length s < f)%nat -> scan_once f s <> OutOfFuel) /\
  (forall s, (2 * List.length s + 1 < f)%nat -> array_items f s <> OutOfFuel) /\
  (forall s, (2 * List.length s + 1 < f)%nat -> object_members f s <> OutOfFuel).
Proof.
  induction f as [|f (IH1 & IH2 & IH3)]; [repeat split; intros; lia|].
  destruct (scan_consumes f) as (C1 & C2 & C3).
  split; [|split].
  - intros s Hf. destruct s as [|c s1]; [discriminate|].
    cbn [scan_once]. cbn [List.length] in Hf.
    destruct (c =? 34).
    { destruct (scanstring s1) as [[x rest]|]; discriminate. }
    destruct (c =? 123).
    { destruct (skip_ws s1) as [|c1 r1] eqn:E; [discriminate|].
      apply skip_ws_cons_length in E.
      destruct (c1 =? 125); [discriminate|].
      destruct (c1 =? 34); [|discriminate].
      specialize (IH3 r1 ltac:(lia)).
      destruct (object_members f r1) as [[pairs rest]| |]; congruence. }
    destruct (c =? 91).
    { destruct (skip_ws s1) as [|c1 r1] eqn:E; [discriminate|].
      pose proof (skip_ws_length s1) as L. rewrite E in L.
      destruct (c1 =? 93); [discriminate|].
      specialize (IH2 (c1 :: r1) ltac:(lia)).
      destruct (array_items f (c1 :: r1)) as [[vs rest]| |]; congruence. }
    apply scan_atom_fuel.
  - intros s Hf. rewrite array_items_step.
    specialize (IH1 s ltac:(lia)).
    destruct (scan_once f s) as [[v r0]| |] eqn:E0; try congruence.
    apply C1 in E0.
    destruct (skip_ws r0) as [|c r1] eqn:E1; [discriminate|].
    apply skip_ws_cons_length in E1.
    destruct (c =? 93); [discriminate|].
    destruct (c =? 44); [|discriminate].
    pose proof (skip_ws_length r1).
    specialize (IH2 (skip_ws r1) ltac:(lia)).
    destruct (array_items f (skip_ws r1)) as [[vs' rest]| |]; congruence.
  - intros s Hf. rewrite object_members_step.
    destruct (scanstring s) as [[key r0]|] eqn:E0; [|discriminate].
    apply scanstring_shorter in E0.
    destruct (skip_ws r0) as [|c r1] eqn:E1; [discriminate|].
    apply skip_ws_cons_length in E1.
    destruct (c =? 58); [|discriminate].
    pose proof (skip_ws_length r1).
    specialize (IH1 (skip_ws r1) ltac:(lia)).
    destruct (scan_once f (skip_ws r1)) as [[v r2]| |] eqn:E2; try congruence.
    apply C1 in E2.
    destruct (skip_ws r2) as [|c2 r3] eqn:E3; [discriminate|].
    apply skip_ws_cons_length in E3.
    destruct (c2 =? 125); [discriminate|].
    destruct (c2 =? 44); [|discriminate].
    destruct (skip_ws r3) as [|c3 r4] eqn:E4; [discriminate|].
    apply skip_ws_cons_length in E4.
    destruct (c3 =? 34); [|discriminate].
    specialize (IH3 r4 ltac:(lia)).
    destruct (object_members f r4) as [[kvs' rest]| |]; congruence.
Qed.

(** [json.loads] returns a value or raises [JSONDecodeError]: the fuel
    it gives the scanner is never exhausted. *)
Lemma decode_total s : decode s <> OutOfFuel.
Proof.
  unfold decode. destruct (has_bom s); [discriminate|].
  pose proof (skip_ws_length s) as L.
  destruct (scan_fuel (S (2 * List.length s))) as (F & _ & _).
  specialize (F (skip_ws s) ltac:(lia)).
  destruct (scan_once (S (2 * List.length s)) (skip_ws s)) as [[v rest]| |];
    try congruence.
  destruct (skip_ws rest); discriminate.
Qed.

(** [loads] fails exactly on the texts [decode] refuses. *)
Lemma loads_none s : loads s = None <-> decode s = Err.
Proof.
  unfold loads. pose proof (decode_total s).
  destruct (decode s); split; intros; congruence.
Qed.

(** *** [json] inside the interpreter *)

Lemma digits_value_bounds ds :
  forallb is_digit_val ds = true ->
  0 <= digits_value ds < 10 ^ Z.of_nat (List.length ds).
Proof.
  induction ds as [|d ds IH] using rev_ind; intros H.
  - cbn. lia.
  - rewrite forallb_app in H. apply andb_true_iff in H. destruct H as [H1 H2].
    cbn [forallb] in H2. rewrite andb_true_r in H2.
    unfold is_digit_val in H2. apply andb_true_iff in H2.
    destruct H2 as [Ha Hb]. apply Z.leb_le in Ha, Hb.
    specialize (IH H1).
    rewrite digits_value_snoc, length_app. cbn [List.length].
    rewrite Nat2Z.inj_add. change (Z.of_nat 1) with 1.
    rewrite Z.pow_add_r, Z.pow_1_r by lia. lia.
Qed.

Lemma digits_value_cons d ds :
  digits_value (d :: ds)
  = d * 10 ^ Z.of_nat (List.length ds) + digits_value ds.
Proof.
  induction ds as [|e ds IH] using rev_ind.
  - cbn. lia.
  - change (d :: ds ++ [e]) with ((d :: ds) ++ [e]).
    rewrite !digits_value_snoc, IH, length_app. cbn [List.length].
    rewrite Nat2Z.inj_add. change (Z.of_nat 1) with 1.
    rewrite Z.pow_add_r, Z.pow_1_r by lia. lia.
Qed.

(** [has_more_digits] counts the digits [int.__repr__] writes. *)
Lemma has_more_digits_length n x :
  (0 < n)%nat ->
  has_more_digits n x = (n <? List.length (digits_of (Z.abs x)))%nat.
Proof.
  intros Hn. unfold has_more_digits.
  destruct (digits_of_spec (Z.abs x) (Z.abs_nonneg x))
    as (d & ds & E & Hd & Hz & Hv).
  rewrite E. cbn [List.length].
  pose proof (digits_value_bounds (d :: ds) Hd) as Hb.
  rewrite Hv in Hb. cbn [List.length] in Hb.
  rewrite digits_value_cons in Hv.
  cbn [forallb] in Hd. apply andb_true_iff in Hd. destruct Hd as [Hd0 Hds].
  pose proof (digits_value_bounds ds Hds) as Hbs.
  unfold is_digit_val in Hd0. apply andb_true_iff in Hd0.
  destruct Hd0 as [Ha Hb9]. apply Z.leb_le in Ha, Hb9.
  destruct (Nat.ltb_spec n (S (List.length ds))) as [L|L].
  - apply Z.leb_le.
    destruct (Z.eq_dec d 0) as [->|Hd].
    + destruct Hz as [_ ->]; [reflexivity|]. cbn in L. lia.
    + apply Z.le_trans with (10 ^ Z.of_nat (List.length ds)).
      * apply Z.pow_le_mono_r; lia.
      * nia.
  - apply Z.leb_gt.
    apply Z.lt_le_trans with (10 ^ Z.of_nat (S (List.length ds))); [lia|].
    apply Z.pow_le_mono_r; lia.
Qed.

Lemma too_long_digits lim x :
  too_long lim x
  = too_many_digits lim (List.length (digits_of (Z.abs x))).
Proof.
  unfold too_long, too_many_digits.
  rewrite has_more_digits_length by (unfold str_digits_check_threshold; lia).
  destruct (_ <? _)%nat; [|reflexivity].
  destruct (max_str_digits lim) as [|m]; [reflexivity|].
  rewrite has_more_digits_length by lia. reflexivity.
Qed.

Lemma first_failure_list lim d l :
  first_failure lim (S d) (VList l) = failure_items lim d l.
Proof. reflexivity. Qed.

Lemma first_failure_dict lim d m :
  first_failure lim (S d) (VDict m) = failure_members lim d m.
Proof. reflexivity. Qed.

Lemma fits_dict lim d m : fits lim (S d) (VDict m) = fit_members lim d m.
Proof. reflexivity. Qed.

(** Within the limits, the encoder fails on unserialisable objects
    only. *)
Lemma first_failure_fits lim v : forall depth,
  serializable v = true -> fits lim depth v = true ->
  first_failure lim depth v = None.
Proof.
  induction v as [|b|n|fl|s|l IH|m IH|] using value_nested_ind;
    intros depth Hs Hf; try reflexivity; try discriminate.
  - cbn [first_failure fits] in *.
    destruct (too_long lim n); [discriminate|reflexivity].
  - destruct depth as [|d]; [discriminate|].
    rewrite first_failure_list. cbn [fits serializable] in *.
    induction IH as [|x l Hx _ IHl]; [reflexivity|].
    cbn [forallb failure_items] in *.
    apply andb_true_iff in Hs, Hf. destruct Hs as [S1 S2], Hf as [F1 F2].
    rewrite Hx by assumption. apply IHl; assumption.
  - destruct depth as [|d]; [discriminate|].
    rewrite first_failure_dict. rewrite fits_dict in Hf.
    cbn [serializable] in Hs.
    induction IH as [|[k x] m Hx _ IHm]; [reflexivity|].
    cbn [failure_members fit_members] in *.
    apply andb_true_iff in Hs, Hf. destruct Hs as [S1 S2], Hf as [F1 F2].
    cbn [snd] in Hx. rewrite Hx by assumption. apply IHm; assumption.
Qed.

Lemma dumps_within_encodable lim v :
  encodable lim v = true -> dumps_within lim v = Returns (encode v).
Proof.
  unfold encodable, dumps_within. intros H.
  apply andb_true_iff in H. destruct H as [Hs Hf].
  rewrite first_failure_fits by assumption. reflexivity.
Qed.

(** What [json.dumps] returns is the text of the codec. *)
Lemma dumps_within_text lim v text :
  dumps_within lim v = Returns text -> text = encode v.
Proof.
  unfold dumps_within.
  destruct (first_failure lim (max_depth lim) v); congruence.
Qed.

(** An object that cannot be serialised makes [json.dumps] raise,
    whatever the limits. *)
Lemma first_failure_unserialisable lim v : forall depth,
  serializable v = false -> first_failure lim depth v <> None.
Proof.
  induction v as [|b|n|fl|s|l IH|m IH|] using value_nested_ind;
    intros depth Hs; try discriminate.
  - destruct depth as [|d]; [discriminate|].
    rewrite first_failure_list. cbn [serializable] in Hs.
    induction IH as [|x l Hx _ IHl]; [discriminate|].
    cbn [forallb failure_items] in *.
    destruct (first_failure lim d x) eqn:E; [discriminate|].
    destruct (serializable x) eqn:Sx.
    + apply IHl. exact Hs.
    + exfalso. exact (Hx d eq_refl E).
  - destruct depth as [|d]; [discriminate|].
    rewrite first_failure_dict. cbn [serializable] in Hs.
    induction IH as [|[k x] m Hx _ IHm]; [discriminate|].
    cbn [failure_members] in *. cbn [snd] in Hx.
    destruct (first_failure lim d x) eqn:E; [discriminate|].
    destruct (serializable x) eqn:Sx.
    + apply IHm. exact Hs.
    + exfalso. exact (Hx d eq_refl E).
Qed.

Lemma dumps_within_unserialisable lim v :
  serializable v = false -> exists e, dumps_within lim v = Raises e.
Proof.
  intros H. unfold dumps_within.
  pose proof (first_failure_unserialisable lim v (max_depth lim) H) as N.
  destruct (first_failure lim (max_depth lim) v) as [e|]; [eauto|congruence].
Qed.

(** Where [json.dumps] returns in the interpreter, it returns the text
    of the codec. *)
Lemma dumps_within_codec lim v text :
  dumps_within lim v = Returns text -> dumps v = Some text.
Proof.
  intros H. unfold dumps. destruct (serializable v) eqn:S.
  - apply dumps_within_text in H. congruence.
  - destruct (dumps_within_unserialisable lim v S) as [e E]. congruence.
Qed.

Lemma agrees_built {A} lim depth :
  @agrees A (Refused (built (raise_cost lim) depth Malformed)) Err.
Proof. unfold built. destruct (_ <=? _)%nat; reflexivity. Qed.

Lemma number_within_agrees lim s :
  match number_within lim s with
  | None => match_number s = None
  | Some (Scanned vr) => match_number s = Some vr
  | Some (Refused e) => e = TooManyDigits
  | Some _ => False
  end.
Proof.
  unfold number_within, match_number.
  destruct (scan_sign s) as [neg s1].
  destruct (scan_int s1) as [[ip s2]|]; [|reflexivity].
  destruct (scan_frac s2) as [fp s3]. destruct (scan_exp s3) as [ex s4].
  destruct fp; destruct ex; try reflexivity.
  destruct (too_many_digits lim (List.length ip)); reflexivity.
Qed.

Lemma atom_within_agrees lim depth s :
  agrees (atom_within lim depth s) (scan_atom s).
Proof.
  unfold atom_within, scan_atom, constant_within.
  destruct (starts_with (lit "null") s); [reflexivity|].
  destruct (starts_with (lit "true") s); [reflexivity|].
  destruct (starts_with (lit "false") s); [reflexivity|].
  pose proof (number_within_agrees lim s) as N.
  destruct (number_within lim s) as [[vr| |e|]|].
  - rewrite N. reflexivity.
  - destruct N.
  - subst e. exact I.
  - destruct N.
  - rewrite N.
    destruct (starts_with (lit "NaN") s);
      [destruct (_ <=? _)%nat; reflexivity|].
    destruct (starts_with (lit "Infinity") s);
      [destruct (_ <=? _)%nat; reflexivity|].
    destruct (starts_with (lit "-Infinity") s);
      [destruct (_ <=? _)%nat; reflexivity|].
    reflexivity.
Qed.

(** Step by step, the scanner within limits follows the scanner of the
    codec until a limit is met. *)
Tactic Notation "follow" hyp(H) "as" ident(v) ident(rest) :=
  match type of H with
  | agrees ?r _ =>
      destruct r as [[v rest]| |[]|]; cbn [agrees] in H |- *;
      try exact I; try (rewrite H; reflexivity)
  end.

Lemma scan_within_agrees lim fuel : forall depth s,
  agrees (scan_within lim fuel depth s) (scan_once fuel s) /\
  agrees (items_within lim fuel depth s) (array_items fuel s) /\
  agrees (members_within lim fuel depth s) (object_members fuel s).
Proof.
  induction fuel as [|f IH]; intros depth s.
  - repeat split; reflexivity.
  - split; [|split].
    + cbn [scan_within scan_once].
      destruct s as [|c r]; [reflexivity|].
      destruct (c =? 34).
      { destruct (scanstring r) as [[x rest]|];
          [reflexivity|apply agrees_built]. }
      destruct (c =? 123).
      { destruct depth as [|d]; [exact I|].
        destruct (skip_ws r) as [|c1 r1]; [apply agrees_built|].
        destruct (c1 =? 125); [reflexivity|].
        destruct (c1 =? 34); [|apply agrees_built].
        destruct (IH d r1) as (_ & _ & M). follow M as pairs rest. }
      destruct (c =? 91).
      { destruct depth as [|d]; [exact I|].
        destruct (skip_ws r) as [|c1 r1]; [reflexivity|].
        destruct (c1 =? 93); [reflexivity|].
        destruct (IH d (c1 :: r1)) as (_ & M & _). follow M as vs rest. }
      apply atom_within_agrees.
    + cbn [items_within array_items].
      destruct (IH depth s) as (M & _ & _). follow M as v rest.
      rewrite M.
      destruct (skip_ws rest) as [|c r1]; [apply agrees_built|].
      destruct (c =? 93); [reflexivity|].
      destruct (c =? 44); [|apply agrees_built].
      destruct (IH depth (skip_ws r1)) as (_ & M2 & _). follow M2 as vs rest2.
    + cbn [members_within object_members].
      destruct (scanstring s) as [[key r]|]; [|apply agrees_built].
      destruct (skip_ws r) as [|c r1]; [apply agrees_built|].
      destruct (c =? 58); [|apply agrees_built].
      destruct (IH depth (skip_ws r1)) as (M & _ & _). follow M as v rest.
      rewrite M.
      destruct (skip_ws rest) as [|c2 r3]; [apply agrees_built|].
      destruct (c2 =? 125); [reflexivity|].
      destruct (c2 =? 44); [|apply agrees_built].
      destruct (skip_ws r3) as [|c3 r4]; [apply agrees_built|].
      destruct (c3 =? 34); [|apply agrees_built].
      destruct (IH depth r4) as (_ & _ & M2). follow M2 as kvs rest2.
Qed.

(** The scanner never raises the [TypeError] of the encoder. *)
Lemma decodes_built {A} lim depth :
  @decodes A (Refused (built (raise_cost lim) depth Malformed)).
Proof. unfold built. destruct (_ <=? _)%nat; exact I. Qed.

Lemma atom_within_decodes lim depth s : decodes (atom_within lim depth s).
Proof.
  unfold atom_within, constant_within.
  destruct (starts_with (lit "null") s); [exact I|].
  destruct (starts_with (lit "true") s); [exact I|].
  destruct (starts_with (lit "false") s); [exact I|].
  pose proof (number_within_agrees lim s) as N.
  destruct (number_within lim s) as [[vr| |e|]|]; try exact I.
  - subst e. exact I.
  - destruct (starts_with (lit "NaN") s);
      [destruct (_ <=? _)%nat; exact I|].
    destruct (starts_with (lit "Infinity") s);
      [destruct (_ <=? _)%nat; exact I|].
    destruct (starts_with (lit "-Infinity") s);
      [destruct (_ <=? _)%nat; exact I|].
    exact I.
Qed.

Tactic Notation "pass" hyp(H) "as" ident(v) ident(rest) :=
  match type of H with
  | decodes ?r =>
      destruct r as [[v rest]| |[]|]; cbn [decodes] in H |- *;
      try exact I; try (destruct H)
  end.

Lemma scan_within_decodes lim fuel : forall depth s,
  decodes (scan_within lim fuel depth s) /\
  decodes (items_within lim fuel depth s) /\
  decodes (members_within lim fuel depth s).
Proof.
  induction fuel as [|f IH]; intros depth s.
  - repeat split; exact I.
  - split; [|split].
    + cbn [scan_within].
      destruct s as [|c r]; [exact I|].
      destruct (c =? 34).
      { destruct (scanstring r) as [[x rest]|];
          [exact I|apply decodes_built]. }
      destruct (c =? 123).
      { destruct depth as [|d]; [exact I|].
        destruct (skip_ws r) as [|c1 r1]; [apply decodes_built|].
        destruct (c1 =? 125); [exact I|].
        destruct (c1 =? 34); [|apply decodes_built].
        destruct (IH d r1) as (_ & _ & M). pass M as pairs rest. }
      destruct (c =? 91).
      { destruct depth as [|d]; [exact I|].
        destruct (skip_ws r) as [|c1 r1]; [exact I|].
        destruct (c1 =? 93); [exact I|].
        destruct (IH d (c1 :: r1)) as (_ & M & _). pass M as vs rest. }
      apply atom_within_decodes.
    + cbn [items_within].
      destruct (IH depth s) as (M & _ & _). pass M as v rest.
      destruct (skip_ws rest) as [|c r1]; [apply decodes_built|].
      destruct (c =? 93); [exact I|].
      destruct (c =? 44); [|apply decodes_built].
      destruct (IH depth (skip_ws r1)) as (_ & M2 & _). pass M2 as vs rest2.
    + cbn [members_within].
      destruct (scanstring s) as [[key r]|]; [|apply decodes_built].
      destruct (skip_ws r) as [|c r1]; [apply decodes_built|].
      destruct (c =? 58); [|apply decodes_built].
      destruct (IH depth (skip_ws r1)) as (M & _ & _). pass M as v rest.
      destruct (skip_ws rest) as [|c2 r3]; [apply decodes_built|].
      destruct (c2 =? 125); [exact I|].
      destruct (c2 =? 44); [|apply decodes_built].
      destruct (skip_ws r3) as [|c3 r4]; [apply decodes_built|].
      destruct (c3 =? 34); [|apply decodes_built].
      destruct (IH depth r4) as (_ & _ & M2). pass M2 as kvs rest2.
Qed.

Lemma loads_within_serialises lim s :
  loads_within lim s <> Raises NotSerializable.
Proof.
  unfold loads_within, built.
  destruct (has_bom s); [destruct (_ <=? _)%nat; discriminate|].
  destruct (scan_within_decodes lim (S (2 * List.length s)) (max_depth lim)
                                (skip_ws s)) as (A & _ & _).
  destruct (scan_within lim (S (2 * List.length s)) (max_depth lim) (skip_ws s))
    as [[v rest]| |e|]; cbn [decodes] in A.
  - destruct (skip_ws rest); [discriminate|].
    destruct (_ <=? _)%nat; discriminate.
  - destruct (_ <=? _)%nat; discriminate.
  - destruct e; congruence || discriminate.
  - discriminate.
Qed.

(** The scanner within limits never runs out of the fuel [loads_within]
    gives it. *)
Lemma loads_within_fuel lim s :
  has_bom s = false ->
  scan_within lim (S (2 * List.length s)) (max_depth lim) (skip_ws s)
  <> Starved.
Proof.
  intros Hb E.
  destruct (scan_within_agrees lim (S (2 * List.length s)) (max_depth lim)
                               (skip_ws s)) as (A & _ & _).
  rewrite E in A. cbn [agrees] in A.
  apply (decode_total s). unfold decode. rewrite Hb, A. reflexivity.
Qed.

(** Within its limits [json.loads] is the codec: the value it returns
    is the one the codec reads, and the texts on which it raises
    [JSONDecodeError] are texts the codec refuses. *)
Lemma loads_within_codec lim s :
  (forall v, loads_within lim s = Returns v -> loads s = Some v) /\
  (loads_within lim s = Raises Malformed -> loads s = None).
Proof.
  unfold loads_within, loads, decode.
  destruct (has_bom s) eqn:Hb.
  { split; [discriminate|reflexivity]. }
  pose proof (loads_within_fuel lim s Hb) as F.
  destruct (scan_within_agrees lim (S (2 * List.length s)) (max_depth lim)
                               (skip_ws s)) as (A & _ & _).
  destruct (scan_within lim (S (2 * List.length s)) (max_depth lim) (skip_ws s))
    as [[v rest]| |e|]; cbn [agrees] in A.
  - rewrite A. destruct (skip_ws rest).
    + split; [intros v' [= <-]; reflexivity|discriminate].
    + split; [discriminate|reflexivity].
  - rewrite A. split; [discriminate|reflexivity].
  - split; [discriminate|]. intros [= ->]. rewrite A. reflexivity.
  - congruence.
Qed.

(** *** A member in the text of a dict *)




(** *** The codec on sample data *)

Example encode_numbers :
  encode (VList [VInt (-1205); VNone; VBool true;
                 VFloat (FFinite false [9; 3] 0);
                 VFloat (FFinite false [1] 17);
                 VFloat (FFinite false [1; 2] (-4));
                 VFloat (FFinite true [1; 2; 3] 5);
                 VFloat (FFinite false [0] 1)])
  = lit "[-1205, null, true, 0.93, 1e+16, 1.2e-05, -12300.0, 0.0]".
Proof. reflexivity. Qed.

(** "Cong chinh" with its Vietnamese letters, a line feed and an
    emoji. *)
Example encode_text :
  encode (VStr [67; 7893; 110; 103; 32; 99; 104; 237; 110; 104; 10; 128663])
  = 34 :: lit "C\u1ed5ng ch\u00ednh\n\ud83d\ude97" ++ [34].
Proof. reflexivity. Qed.

Example loads_numbers :
  loads (lit " [1, 2.50e3 , {} ,{ },[ ] , -0, -0.0, 1E-2, 0.001e5, true ] ")
  = Some (VList [VInt 1; VFloat (FFinite false [2; 5] 4); VDict []; VDict [];
                 VList []; VInt 0; VFloat (FFinite true [0] 1);
                 VFloat (FFinite false [1] (-1)); VFloat (FFinite false [1] 3);
                 VBool true]).
Proof. reflexivity. Qed.

Example loads_refuses :
  loads (lit "[1, 2") = None /\ loads (lit "{ }x") = None /\
  loads (lit "01") = None /\ loads (lit "[1,]") = None /\
  loads (lit "") = None.
Proof. repeat split; reflexivity. Qed.

(** Why [json_representable] asks for scalar values: a high and a low
    surrogate that stand side by side in a [str] are written as two
    escapes and read back as one character. *)
Example surrogates_are_joined :
  loads (encode (VStr [0xD83D; 0xDE97])) = Some (VStr [0x1F697]).
Proof. reflexivity. Qed.

End JsonFacts.

(* ================================================================== *)
(** ** Facts about the clients *)

Module WsFacts.
Import Py Net Ws Samples.

(** Unfold the combinators of a method down to the world. *)
Ltac run :=
  cbv beta zeta delta [connect send_message not_connected websocket_send
    send_license_plate_detection handle_command on_message
    listen_for_commands disconnect reconnect Simple.disconnect
    try_except except_Exception bind ret raise self update effect log
    now_isoformat asyncio_sleep websockets_connect ws_closed ws_send
    ws_close json_dumps json_loads py_get outcome_of client_of world_of];
  cbn [fst snd negb websocket server_url running reconnect_attempts
       max_reconnect_attempts reconnect_delay set_websocket set_running
       set_reconnect_attempts Simple.websocket
       connect_outcome send_outcome connects sends sockets clock limits trace
       emit with_sockets count_connect count_send mark_closed].

(** *** [connect] *)

Lemma connect_failure c w e :
  connect_outcome w (connects w) = Some e -> is_Exception e = true ->
  connect c w = (Returned false, c, connect_failed e c w).
Proof. intros H He. run. rewrite H, He. reflexivity. Qed.

Lemma connect_cancelled c w :
  connect_outcome w (connects w) = Some CancelledError ->
  outcome_of (connect c w) = Raised CancelledError.
Proof. intros H. run. rewrite H. reflexivity. Qed.

Lemma connect_success c w :
  connect_outcome w (connects w) = None ->
  connect c w = (Returned true, connected_client c w, connect_succeeded c w).
Proof. intros H. run. rewrite H. reflexivity. Qed.

Lemma connect_cases c w :
  (exists e, connect_outcome w (connects w) = Some e /\ is_Exception e = true /\
             connect c w = (Returned false, c, connect_failed e c w)) \/
  (connect_outcome w (connects w) = Some CancelledError /\
   outcome_of (connect c w) = Raised CancelledError) \/
  (connect_outcome w (connects w) = None /\
   connect c w = (Returned true, connected_client c w, connect_succeeded c w)).
Proof.
  destruct (connect_outcome w (connects w)) as [e|] eqn:E.
  - destruct (is_Exception e) eqn:He.
    + left. exists e. auto using connect_failure.
    + right; left. destruct e; try discriminate. auto using connect_cancelled.
  - right; right. auto using connect_success.
Qed.


(** *** [send_message] *)

Lemma not_connected_down c w : not_connected c w = (Returned (down c w), c, w).
Proof. unfold down. run. destruct (websocket c); reflexivity. Qed.

Lemma closed_new_socket l : nth (List.length l) (l ++ [false]) true = false.
Proof. apply nth_middle. Qed.

Lemma send_message_open c w sock ty d text :
  websocket c = Some sock -> closed w sock = false ->
  Json.dumps_within (limits w) (envelope ty d (clock w)) = Json.Returns text ->
  send_outcome w (sends w) = None ->
  send_message ty d c w = (Returned true, c, frame_sent sock ty text w).
Proof.
  intros Hs Hc Hd Ho. unfold send_message.
  unfold bind at 1. rewrite not_connected_down. unfold down. rewrite Hs, Hc.
  run. rewrite Hd. run. rewrite Hs. run. rewrite Hc, Ho.
  reflexivity.
Qed.

(** C1, amended: while the websocket is absent or closed,
    [send_message] makes one immediate connection attempt, with no
    backoff sleep.  If the attempt fails it returns [False], writes no
    frame and leaves the client as it was; if it succeeds the message
    is sent on the new connection. *)
Theorem send_message_connects_when_down c w ty d :
  down c w = true ->
  (forall e,
     connect_outcome w (connects w) = Some e -> is_Exception e = true ->
     send_message ty d c w
     = (Returned false, c,
        connect_failed e c (emit (EvLog WARNING MsgNotConnected) w))) /\
  (forall text,
     connect_outcome w (connects w) = None ->
     Json.dumps_within (limits w) (envelope ty d (clock w))
     = Json.Returns text ->
     send_outcome w (sends w) = None ->
     send_message ty d c w
     = (Returned true, connected_client c w,
        frame_sent (List.length (sockets w)) ty text
          (connect_succeeded c (emit (EvLog WARNING MsgNotConnected) w)))).
Proof.
  intros Hd. split.
  - intros e He Hx. unfold send_message.
    unfold bind at 1. rewrite not_connected_down, Hd.
    unfold bind at 1. unfold bind at 1. unfold log at 1, effect at 1.
    rewrite (connect_failure _ _ e) by assumption. reflexivity.
  - intros text Hn Hj Ho. unfold send_message.
    unfold bind at 1. rewrite not_connected_down, Hd.
    unfold bind at 1. unfold bind at 1. unfold log at 1, effect at 1.
    rewrite connect_success by assumption.
    unfold connect_succeeded, connected_client, frame_sent.
    run. rewrite Hj. run. unfold closed. cbn [sockets].
    rewrite closed_new_socket, Ho. reflexivity.
Qed.

(** *** The receive loop *)

Lemma emits_app a b w : emits (a ++ b) w = emits b (emits a w).
Proof. unfold emits. apply fold_left_app. Qed.

Lemma trace_emits evs : forall w, trace (emits evs w) = trace w ++ evs.
Proof.
  induction evs as [|ev evs IH]; intros w.
  - cbn. rewrite app_nil_r. reflexivity.
  - cbn [emits fold_left]. fold (emits evs (emit ev w)). rewrite IH.
    cbn [emit trace]. rewrite <- app_assoc. reflexivity.
Qed.

Lemma sockets_emits evs : forall w, sockets (emits evs w) = sockets w.
Proof.
  induction evs as [|ev evs IH]; intros w; [reflexivity|].
  cbn [emits fold_left]. fold (emits evs (emit ev w)). rewrite IH.
  reflexivity.
Qed.

Lemma limits_emits evs : forall w, limits (emits evs w) = limits w.
Proof.
  induction evs as [|ev evs IH]; intros w; [reflexivity|].
  cbn [emits fold_left]. fold (emits evs (emit ev w)). rewrite IH.
  reflexivity.
Qed.

Lemma on_message_malformed bad c w :
  Json.loads_within (limits w) bad = Json.Raises Json.Malformed ->
  on_message bad c w = (Returned tt, c, emit (EvLog ERROR MsgInvalidJSON) w).
Proof. intros H. run. rewrite H. reflexivity. Qed.

Lemma on_message_dict message d c w :
  Json.loads_within (limits w) message = Json.Returns (VDict d) ->
  on_message message c w
  = (Returned tt, c, emits (command_lines (dict_get d (lit "type"))) w).
Proof. intros H. run. rewrite H. reflexivity. Qed.

Lemma on_message_other message v c w :
  Json.loads_within (limits w) message = Json.Returns v ->
  (forall d, v <> VDict d) ->
  on_message message c w = (Raised AttributeError, c, w).
Proof.
  intros H Hv. run. rewrite H.
  destruct v; try reflexivity. exfalso. eapply Hv. reflexivity.
Qed.

(** The exceptions of [json.loads] other than [JSONDecodeError] leave
    the body of the loop. *)
Lemma on_message_raises message e c w :
  Json.loads_within (limits w) message = Json.Raises e ->
  e <> Json.Malformed ->
  on_message message c w = (Raised (json_exn e), c, w).
Proof.
  intros H He. run. rewrite H. destruct e; try reflexivity. congruence.
Qed.

Lemma json_exn_caught e :
  e <> Json.Malformed ->
  is_Exception (json_exn e) = true /\ json_exn e <> ConnectionClosed.
Proof. destruct e; intros H; split; (reflexivity || discriminate || congruence). Qed.






(** One frame: some log lines, and then either the loop goes on or an
    exception other than [ConnectionClosed] leaves it. *)
Lemma on_message_shape message c w :
  exists lines,
    forallb is_log lines = true /\
    (on_message message c w = (Returned tt, c, emits lines w) \/
     exists e, is_Exception e = true /\ e <> ConnectionClosed /\
               on_message message c w = (Raised e, c, emits lines w)).
Proof.
  destruct (Json.loads_within (limits w) message) as [v|e] eqn:E.
  - assert (Hv : (exists d, v = VDict d) \/ (forall d, v <> VDict d)).
    { destruct v; try (right; intros; discriminate). left; eauto. }
    destruct Hv as [[d ->]|Hv].
    + exists (command_lines (dict_get d (lit "type"))).
      split; [reflexivity|]. left. apply on_message_dict. exact E.
    + exists []. split; [reflexivity|]. right. exists AttributeError.
      split; [reflexivity|]. split; [discriminate|].
      apply (on_message_other _ v); assumption.
  - assert (He : e = Json.Malformed \/ e <> Json.Malformed).
    { destruct e; (left; reflexivity) || (right; discriminate). }
    destruct He as [->|He].
    + exists [EvLog ERROR MsgInvalidJSON]. split; [reflexivity|]. left.
      apply on_message_malformed. exact E.
    + exists []. split; [reflexivity|]. right. exists (json_exn e).
      destruct (json_exn_caught e He) as [X Y].
      split; [exact X|]. split; [exact Y|].
      apply on_message_raises; assumption.
Qed.

Lemma receive_shape sock fin frames : forall c w,
  exists lines,
    forallb is_log lines = true /\
    (receive sock frames fin c w = receive sock [] fin c (emits lines w) \/
     exists e, is_Exception e = true /\ e <> ConnectionClosed /\
               receive sock frames fin c w = (Raised e, c, emits lines w)).
Proof.
  induction frames as [|m frames IH]; intros c w.
  - exists []. split; [reflexivity|]. left. reflexivity.
  - destruct (on_message_shape m c w) as (l1 & L1 & [E|(e & X & Y & E)]).
    + destruct (IH c (emits l1 w)) as (l2 & L2 & [F|(e & X & Y & F)]).
      * exists (l1 ++ l2). split; [rewrite forallb_app, L1, L2; reflexivity|].
        left. cbn [receive]. unfold bind at 1. rewrite E. cbv beta iota.
        rewrite F, emits_app. reflexivity.
      * exists (l1 ++ l2). split; [rewrite forallb_app, L1, L2; reflexivity|].
        right. exists e. split; [exact X|]. split; [exact Y|].
        cbn [receive]. unfold bind at 1. rewrite E. cbv beta iota.
        rewrite F, emits_app. reflexivity.
    + exists l1. split; [exact L1|]. right. exists e.
      split; [exact X|]. split; [exact Y|].
      cbn [receive]. unfold bind at 1. rewrite E. reflexivity.
Qed.

Lemma listen_with_socket frames fin c w sock :
  websocket c = Some sock ->
  listen_for_commands frames fin c w
  = listen_finish (receive sock frames fin c w).
Proof.
  intros Hs. unfold listen_for_commands, try_except, bind, self. cbv beta.
  rewrite Hs. destruct (receive sock frames fin c w) as [[[a|e] c'] w'];
    [reflexivity|]. destruct e; reflexivity.
Qed.

Lemma listen_finish_end sock fin c w :
  listen_finish (receive sock [] fin c w) = listened sock fin c w.
Proof. destruct fin as [|e]; [reflexivity|destruct e; reflexivity]. Qed.

Lemma listen_finish_raised e c w :
  is_Exception e = true -> e <> ConnectionClosed ->
  listen_finish (Raised e, c, w) = listen_failed e c w.
Proof.
  destruct e; intros X Y; try reflexivity; try discriminate; congruence.
Qed.

Lemma listen_without_socket frames fin c w :
  websocket c = None ->
  listen_for_commands frames fin c w = listen_failed TypeError c w.
Proof. intros Hs. run. rewrite Hs. reflexivity. Qed.



(** The frames the loop gets past leave their log lines, one after the
    other. *)
Lemma on_message_lines frame c w :
  is_skipped_or_object (limits w) frame = true ->
  on_message frame c w = (Returned tt, c, emits (frame_lines (limits w) frame) w).
Proof.
  unfold is_skipped_or_object, frame_lines. intros H.
  destruct (Json.loads_within (limits w) frame) as [v|e] eqn:E.
  - destruct v; try discriminate.
    rewrite (on_message_dict _ d) by assumption. reflexivity.
  - destruct e; try discriminate.
    rewrite on_message_malformed by assumption. reflexivity.
Qed.

Lemma receive_app sock fin lim before : forall rest c w,
  limits w = lim ->
  forallb (is_skipped_or_object lim) before = true ->
  receive sock (before ++ rest) fin c w
  = receive sock rest fin c (emits (stream_lines lim before) w).
Proof.
  induction before as [|frame before IH]; intros rest c w Hl H.
  - reflexivity.
  - cbn [forallb] in H. apply andb_true_iff in H. destruct H as [H1 H2].
    cbn [app receive]. unfold bind at 1. subst lim.
    rewrite on_message_lines by assumption. cbv beta iota.
    rewrite IH by (rewrite ?limits_emits; auto).
    unfold stream_lines. cbn [flat_map]. rewrite emits_app. reflexivity.
Qed.

Lemma receive_lines sock fin frames c w :
  forallb (is_skipped_or_object (limits w)) frames = true ->
  receive sock frames fin c w
  = receive sock [] fin c (emits (stream_lines (limits w) frames) w).
Proof.
  intros H. rewrite <- (app_nil_r frames) at 1.
  apply receive_app; auto.
Qed.

(** A whole stream: the frames before one frame, that frame, the frames
    after it. *)
Lemma listen_through sock before frame after fin c w lines :
  websocket c = Some sock ->
  forallb (is_skipped_or_object (limits w)) before = true ->
  forallb (is_skipped_or_object (limits w)) after = true ->
  (forall w', limits w' = limits w ->
     on_message frame c w' = (Returned tt, c, emits lines w')) ->
  listen_for_commands (before ++ frame :: after) fin c w
  = listened sock fin c
      (emits (stream_lines (limits w) before ++ lines
              ++ stream_lines (limits w) after) w).
Proof.
  intros Hs Hb Ha Hf.
  rewrite (listen_with_socket _ _ _ _ sock) by assumption.
  rewrite (receive_app sock fin (limits w)) by auto.
  cbn [receive]. unfold bind at 1.
  rewrite Hf by apply limits_emits. cbv beta iota.
  rewrite receive_lines
    by (rewrite !limits_emits; exact Ha).
  rewrite !limits_emits, listen_finish_end, !emits_app. reflexivity.
Qed.

Lemma listen_stopped sock before frame rest fin c w e :
  websocket c = Some sock ->
  forallb (is_skipped_or_object (limits w)) before = true ->
  is_Exception e = true -> e <> ConnectionClosed ->
  (forall w', limits w' = limits w ->
     on_message frame c w' = (Raised e, c, w')) ->
  listen_for_commands (before ++ frame :: rest) fin c w
  = listen_failed e c (emits (stream_lines (limits w) before) w).
Proof.
  intros Hs Hb X Y Hf.
  rewrite (listen_with_socket _ _ _ _ sock) by assumption.
  rewrite (receive_app sock fin (limits w)) by auto.
  cbn [receive]. unfold bind at 1.
  rewrite Hf by apply limits_emits. cbv beta iota.
  apply listen_finish_raised; assumption.
Qed.



(** C8, amended: a frame [json.loads] reads as an object is logged and
    handed to [handle_command], which only logs its type: no handler
    runs, whatever the type is.  In a stream of frames the loop gets
    past, [listen_for_commands] logs the lines of the frames before
    it, its two lines, the lines of the frames after it, and ends as
    the stream does, the client and the socket untouched.  A frame
    that holds a JSON object and on which [json.loads] raises all the
    same (an integer of more digits than [int] converts, a nesting
    deeper than the stack allows) ends the loop: the exception is
    logged as a listen error, [running] is set to [False] and the
    frames after it are not read. *)
Theorem unknown_command_is_dropped sock before frame d after fin c w :
  websocket c = Some sock ->
  forallb (is_skipped_or_object (limits w)) before = true ->
  forallb (is_skipped_or_object (limits w)) after = true ->
  (Json.loads_within (limits w) frame = Json.Returns (VDict d) ->
   plain (dict_get d (lit "type")) = true ->
   listen_for_commands (before ++ frame :: after) fin c w
   = listened sock fin c
       (emits (stream_lines (limits w) before
               ++ [EvLog INFO (MsgReceived (dict_get d (lit "type")));
                   EvLog INFO (MsgHandling (dict_get d (lit "type")))]
               ++ stream_lines (limits w) after) w)) /\
  (forall e,
     Json.loads frame = Some (VDict d) ->
     Json.loads_within (limits w) frame = Json.Raises e ->
     (e = Json.TooManyDigits \/ e = Json.TooDeep) /\
     listen_for_commands (before ++ frame :: after) fin c w
     = listen_failed (json_exn e) c
         (emits (stream_lines (limits w) before) w)).
Proof.
  intros Hs Hb Ha. split.
  - intros E _. apply listen_through; try assumption.
    intros w' Hl. apply on_message_dict. rewrite Hl. exact E.
  - intros e Hj E.
    assert (He : e <> Json.Malformed).
    { intros ->. apply (proj2 (JsonFacts.loads_within_codec _ _)) in E.
      congruence. }
    assert (Hn : e <> Json.NotSerializable).
    { intros ->. exact (JsonFacts.loads_within_serialises _ _ E). }
    split; [destruct e; auto; congruence|].
    destruct (json_exn_caught e He) as [X Y].
    apply (listen_stopped sock); try assumption.
    intros w' Hl. apply on_message_raises; [rewrite Hl; exact E|exact He].
Qed.

(** *** [reconnect] *)

Lemma reconnect_attempt c w :
  reconnect_attempts c < max_reconnect_attempts c ->
  reconnect c w
  = connect (set_reconnect_attempts (reconnect_attempts c + 1) c)
            (backoff (reconnect_attempts c + 1) c w).
Proof.
  intros H. unfold reconnect. unfold bind at 1. unfold self at 1.
  replace (reconnect_attempts c <? max_reconnect_attempts c) with true
    by (symmetry; apply Z.ltb_lt; assumption).
  reflexivity.
Qed.

Lemma reconnect_exhausted c w :
  max_reconnect_attempts c <= reconnect_attempts c ->
  reconnect c w = (Returned false, c, emit (EvLog ERROR MsgMaxAttempts) w).
Proof.
  intros H. unfold reconnect. unfold bind at 1. unfold self at 1.
  replace (reconnect_attempts c <? max_reconnect_attempts c) with false
    by (symmetry; apply Z.ltb_ge; assumption).
  reflexivity.
Qed.

Lemma reconnect_failure c w e :
  reconnect_attempts c < max_reconnect_attempts c ->
  connect_outcome w (connects w) = Some e -> is_Exception e = true ->
  reconnect c w
  = (Returned false, set_reconnect_attempts (reconnect_attempts c + 1) c,
     connect_failed e (set_reconnect_attempts (reconnect_attempts c + 1) c)
       (backoff (reconnect_attempts c + 1) c w)).
Proof.
  intros H He Hx. rewrite reconnect_attempt by assumption.
  apply connect_failure; assumption.
Qed.

Lemma elapsed_sleep_app a b :
  elapsed_sleep (a ++ b) = elapsed_sleep a + elapsed_sleep b.
Proof.
  induction a as [|ev a IH]; cbn [app elapsed_sleep]; [reflexivity|].
  destruct ev; lia.
Qed.

(** C3: the [k]-th reconnection attempt in a row (the counter stands at
    [k - 1] and [k] does not exceed the limit) sleeps
    [reconnect_delay * k] and then connects.  When the first two
    connection attempts fail (the initial [connect], which sleeps
    nothing, then the first [reconnect]) and the third one, made by the
    second [reconnect], succeeds, the client ends connected after
    sleeping [1 * reconnect_delay + 2 * reconnect_delay] in all, with
    the counter back to 0, as after every successful [connect]. *)
Theorem reconnect_backoff_linear c w :
  (forall k,
     1 <= k <= max_reconnect_attempts c -> reconnect_attempts c = k - 1 ->
     reconnect c w = connect (set_reconnect_attempts k c) (backoff k c w)) /\
  (forall e1 e2,
     reconnect_attempts c = 0 -> 2 <= max_reconnect_attempts c ->
     connect_outcome w (connects w) = Some e1 -> is_Exception e1 = true ->
     connect_outcome w (S (connects w)) = Some e2 -> is_Exception e2 = true ->
     connect_outcome w (S (S (connects w))) = None ->
     let r := (connect ;; reconnect ;; reconnect) c w in
     outcome_of r = Returned true /\
     elapsed_sleep (trace (world_of r))
     = elapsed_sleep (trace w) + (1 * reconnect_delay c + 2 * reconnect_delay c) /\
     reconnect_attempts (client_of r) = 0 /\
     down (client_of r) (world_of r) = false /\
     connects (world_of r) = S (S (S (connects w)))) /\
  (outcome_of (connect c w) = Returned true ->
   reconnect_attempts (client_of (connect c w)) = 0).
Proof.
  split; [|split].
  - intros k Hk Ha. rewrite reconnect_attempt by lia.
    replace (reconnect_attempts c + 1) with k by lia. reflexivity.
  - intros e1 e2 Ha Hm H1 X1 H2 X2 H3 r.
    remember (1 * reconnect_delay c + 2 * reconnect_delay c) as total eqn:Ht.
    assert (E : r = r) by reflexivity. unfold r at 2 in E.
    unfold bind at 1 in E. rewrite (connect_failure c w e1) in E by assumption.
    cbv beta iota in E. unfold bind at 1 in E.
    rewrite (reconnect_failure _ _ e2) in E; cbn; try assumption; try lia.
    cbv beta iota in E.
    rewrite reconnect_attempt in E by (cbn; lia).
    rewrite connect_success in E by (cbn; assumption).
    rewrite E. cbn. rewrite Ha. unfold down, closed. cbn.
    rewrite closed_new_socket.
    repeat split.
    rewrite <- !app_assoc, elapsed_sleep_app. cbn [elapsed_sleep app]. lia.
  - destruct (connect_cases c w) as [(e & _ & _ & E)|[[_ E]|[_ E]]];
      rewrite E; cbn; congruence.
Qed.

(** For comparison: three calls of [reconnect] in a row, the third one
    succeeding, sleep before each of the three attempts. *)
Lemma three_reconnects_sleep_three_times c w e1 e2 :
  reconnect_attempts c = 0 -> 3 <= max_reconnect_attempts c ->
  connect_outcome w (connects w) = Some e1 -> is_Exception e1 = true ->
  connect_outcome w (S (connects w)) = Some e2 -> is_Exception e2 = true ->
  connect_outcome w (S (S (connects w))) = None ->
  let r := (reconnect ;; reconnect ;; reconnect) c w in
  outcome_of r = Returned true /\
  elapsed_sleep (trace (world_of r))
  = elapsed_sleep (trace w)
    + (1 * reconnect_delay c + 2 * reconnect_delay c + 3 * reconnect_delay c).
Proof.
  intros Ha Hm H1 X1 H2 X2 H3 r.
  remember (1 * reconnect_delay c + 2 * reconnect_delay c
            + 3 * reconnect_delay c) as total eqn:Ht.
  assert (E : r = r) by reflexivity. unfold r at 2 in E.
  unfold bind at 1 in E.
  rewrite (reconnect_failure _ _ e1) in E by (assumption || lia).
  cbv beta iota in E. unfold bind at 1 in E.
  rewrite (reconnect_failure _ _ e2) in E; cbn; try assumption; try lia.
  cbv beta iota in E.
  rewrite reconnect_attempt in E by (cbn; lia).
  rewrite connect_success in E by (cbn; assumption).
  rewrite E. cbn. rewrite Ha. split; [reflexivity|].
  rewrite <- !app_assoc, elapsed_sleep_app. cbn [elapsed_sleep app]. lia.
Qed.

(** Once the counter has reached the limit, [reconnect] only logs and
    returns [False]. *)
Lemma reconnect_times_exhausted m : forall c w,
  max_reconnect_attempts c <= reconnect_attempts c ->
  exists w',
    reconnect_times m c w = (Returned (repeat false m), c, w') /\
    connects w' = connects w /\
    elapsed_sleep (trace w') = elapsed_sleep (trace w).
Proof.
  induction m as [|m IH]; intros c w H.
  - exists w. cbn. auto.
  - cbn [reconnect_times]. unfold bind at 1.
    rewrite reconnect_exhausted by assumption. cbv beta iota.
    destruct (IH c (emit (EvLog ERROR MsgMaxAttempts) w) H)
      as (w' & I1 & I2 & I3).
    exists w'. unfold bind at 1. rewrite I1. cbn [repeat].
    split; [reflexivity|]. split; [exact I2|].
    rewrite I3. cbn [emit trace]. rewrite elapsed_sleep_app. cbn. lia.
Qed.

Lemma reconnect_times_failing n : forall c w m,
  max_reconnect_attempts c - reconnect_attempts c = Z.of_nat n ->
  (forall i, (i < n)%nat ->
     exists e, connect_outcome w (connects w + i) = Some e /\
               is_Exception e = true) ->
  exists c' w',
    reconnect_times (n + m) c w = (Returned (repeat false (n + m)), c', w') /\
    connects w' = (connects w + n)%nat /\
    reconnect_attempts c' = max_reconnect_attempts c.
Proof.
  induction n as [|n IH]; intros c w m Hn Hf.
  - destruct (reconnect_times_exhausted m c w ltac:(lia)) as (w' & A & B & _).
    exists c, w'. cbn [Nat.add]. rewrite A, B. repeat split; lia.
  - destruct (Hf O ltac:(lia)) as (e & He & Hx). rewrite Nat.add_0_r in He.
    cbn [Nat.add reconnect_times]. unfold bind at 1.
    rewrite (reconnect_failure c w e) by (assumption || lia).
    cbv beta iota.
    set (c1 := set_reconnect_attempts (reconnect_attempts c + 1) c).
    set (w1 := connect_failed e c1 (backoff (reconnect_attempts c + 1) c w)).
    destruct (IH c1 w1 m) as (c' & w' & I1 & I2 & I3).
    + subst c1. cbn. lia.
    + intros i Hi. destruct (Hf (S i) ltac:(lia)) as (e' & He' & Hx').
      exists e'. split; [|assumption]. subst w1. cbn.
      rewrite <- He'. f_equal. lia.
    + exists c', w'. unfold bind at 1. rewrite I1. cbn [repeat].
      split; [reflexivity|]. split; [|exact I3].
      rewrite I2. subst w1. cbn. lia.
Qed.

(** *** Errors stay inside [connect] and [send_message] *)

Lemma send_message_transmit ty d c w :
  send_message ty d c w =
  if down c w then
    match connect c (emit (EvLog WARNING MsgNotConnected) w) with
    | (Returned true, c', w') => transmit ty d c' w'
    | (Returned false, c', w') => (Returned false, c', w')
    | (Raised e, c', w') => (Raised e, c', w')
    end
  else transmit ty d c w.
Proof.
  unfold send_message. unfold bind at 1. rewrite not_connected_down.
  destruct (down c w); [|reflexivity].
  unfold bind at 1. unfold bind at 1. unfold log at 1, effect at 1.
  destruct (connect c (emit (EvLog WARNING MsgNotConnected) w))
    as [[[[|]|e] c'] w']; reflexivity.
Qed.

Lemma transmit_returns ty d c w :
  (forall n e, send_outcome w n = Some e -> is_Exception e = true) ->
  exists b, outcome_of (transmit ty d c w) = Returned b.
Proof.
  intros Hs. unfold transmit. run.
  destruct (Json.dumps_within (limits w) (envelope ty d (clock w)))
    as [text|e]; [|destruct e; cbn; eauto].
  run. destruct (websocket c) as [sock|]; [|cbn; eauto].
  destruct (closed w sock); [cbn; eauto|].
  destruct (send_outcome w (sends w)) as [e|] eqn:E; [|cbn; eauto].
  pose proof (Hs _ _ E) as He.
  destruct e; try discriminate; cbn; eauto.
Qed.

Lemma transmit_send_failure ty d c w sock text e :
  websocket c = Some sock -> closed w sock = false ->
  Json.dumps_within (limits w) (envelope ty d (clock w)) = Json.Returns text ->
  send_outcome w (sends w) = Some e -> is_Exception e = true ->
  outcome_of (transmit ty d c w) = Returned false.
Proof.
  intros Hw Hc Hd Hs He. unfold transmit. run. rewrite Hd. run.
  rewrite Hw, Hc, Hs. destruct e; try discriminate; reflexivity.
Qed.

(** C5: as long as the transport raises exceptions (subclasses of
    [Exception]: refused or closed connections, timeouts, ...),
    [connect] and [send_message] return a boolean and raise nothing:
    a failed connection makes [connect] return [False] with the client
    unchanged, a failed send makes [send_message] return [False]. *)
Theorem transport_errors_do_not_escape c w ty d :
  (forall n e, connect_outcome w n = Some e -> is_Exception e = true) ->
  (forall n e, send_outcome w n = Some e -> is_Exception e = true) ->
  (exists b, outcome_of (connect c w) = Returned b) /\
  (exists b, outcome_of (send_message ty d c w) = Returned b) /\
  (forall e, connect_outcome w (connects w) = Some e ->
     connect c w = (Returned false, c, connect_failed e c w)) /\
  (forall sock text e,
     websocket c = Some sock -> closed w sock = false ->
     Json.dumps_within (limits w) (envelope ty d (clock w))
     = Json.Returns text ->
     send_outcome w (sends w) = Some e ->
     outcome_of (send_message ty d c w) = Returned false).
Proof.
  intros Hc Hs. split; [|split; [|split]].
  - destruct (connect_cases c w) as [(e & _ & _ & E)|[[E _]|[_ E]]].
    + rewrite E. cbn. eauto.
    + apply Hc in E. discriminate.
    + rewrite E. cbn. eauto.
  - rewrite send_message_transmit. destruct (down c w).
    + set (w1 := emit (EvLog WARNING MsgNotConnected) w).
      destruct (connect_cases c w1) as [(e & _ & _ & E)|[[E _]|[_ E]]].
      * rewrite E. cbn. eauto.
      * apply Hc in E. discriminate.
      * rewrite E. apply transmit_returns. exact Hs.
    + apply transmit_returns. exact Hs.
  - intros e E. apply connect_failure; eauto.
  - intros sock text e Hw Hcl Hd E.
    rewrite send_message_transmit. unfold down. rewrite Hw, Hcl.
    eapply transmit_send_failure; eauto.
Qed.

(** *** Giving up *)







(** *** The envelope on the wire *)

Lemma envelope_representable ty d ts :
  forallb scalar ty = true -> json_representable d = true ->
  forallb scalar ts = true ->
  json_representable (envelope ty d ts) = true.
Proof.
  intros H1 H2 H3. unfold envelope. cbn [json_representable].
  rewrite H1, H2, H3. reflexivity.
Qed.






(** *** [disconnect] *)

Lemma set_closed_closed l : forall sock, nth sock (set_closed l sock) true = true.
Proof.
  induction l as [|b l IH]; intros [|n]; cbn; auto.
Qed.

Lemma disconnect_down c w :
  down c w = true ->
  Ws.disconnect c w = (Returned tt, set_running false c, w).
Proof.
  unfold down. intros H. run.
  destruct (websocket c) as [sock|]; [|reflexivity]. rewrite H. reflexivity.
Qed.

Lemma disconnect_open c w sock :
  websocket c = Some sock -> closed w sock = false ->
  Ws.disconnect c w = (Returned tt, set_running false c, socket_closed sock w).
Proof. intros Hw Hc. run. rewrite Hw. run. rewrite !Hc. reflexivity. Qed.

Lemma closed_socket_closed sock w : closed (socket_closed sock w) sock = true.
Proof. unfold closed. cbn. apply set_closed_closed. Qed.



Lemma simple_disconnect_open c w sock :
  Simple.websocket c = Some sock -> closed w sock = false ->
  Simple.disconnect c w = (Returned tt, c, socket_closed sock w).
Proof. intros H Hc. run. rewrite H. run. rewrite !Hc. reflexivity. Qed.

Lemma skipn_own_length {A} (l t : list A) : skipn (List.length l) (l ++ t) = t.
Proof.
  rewrite skipn_app, skipn_all, Nat.sub_diag. reflexivity.
Qed.


(** *** Where the code departs from the stated behaviour *)

(** C1 as stated fails: a fresh client (no websocket) facing a server
    that accepts connections does not get [False] from [send_message];
    the call connects (one connection attempt is made) and returns
    [True]. *)
Lemma send_message_connects_on_its_own :
  down (init url0) accepting = true /\
  outcome_of (send_message (lit "error") (VDict []) (init url0) accepting)
  = Returned true /\
  connects (world_of (send_message (lit "error") (VDict [])
                                   (init url0) accepting))
  = S (connects accepting).
Proof. vm_compute. auto. Qed.




(** C8 as stated fails: a frame that holds a JSON object with a type
    no handler knows, and with it a count of 4301 digits, is not logged
    and dropped: [json.loads] raises [ValueError], the loop ends and
    the command that follows is never read. *)
Lemma valid_command_ends_the_loop :
  match Json.loads huge_command with
  | Some (VDict d) => dict_get d (lit "type")
  | _ => None
  end = Some (VStr (lit "reload_config")) /\
  listen_for_commands [huge_command; command] CleanClose online_client online
  = (Returned tt, set_running false online_client,
     emit (EvLog ERROR (MsgListenError ValueError)) online).
Proof. vm_compute. auto. Qed.


(** A frame that holds JSON other than an object is outside what
    [handle_command] expects: [command.get] raises [AttributeError],
    which ends the loop; the frame after it is never read. *)
Example array_frame_ends_the_loop :
  listen_for_commands [lit "[1, 2]"; command] CleanClose online_client online
  = (Returned tt, set_running false online_client,
     emit (EvLog ERROR (MsgListenError AttributeError)) online).
Proof. reflexivity. Qed.

(** *** The theorems at concrete inputs *)

Lemma send_message_connects_when_down_witness :
  send_message (lit "error") (VDict []) (init url0) refusing
  = (Returned false, init url0,
     connect_failed (OSError 111) (init url0)
       (emit (EvLog WARNING MsgNotConnected) refusing)).
Proof.
  apply (proj1 (send_message_connects_when_down
                  (init url0) refusing (lit "error") (VDict []) eq_refl)
               (OSError 111)); reflexivity.
Defined.


Lemma reconnect_backoff_linear_witness :
  reconnect (init url0) refusing
  = connect (set_reconnect_attempts 1 (init url0))
            (backoff 1 (init url0) refusing) /\
  elapsed_sleep (trace (world_of ((connect ;; reconnect ;; reconnect)
                                    (init url0) flaky)))
  = elapsed_sleep (trace flaky) + (1 * 5 + 2 * 5) /\
  reconnect_attempts (client_of (connect (init url0) accepting)) = 0.
Proof.
  split; [|split].
  - apply (proj1 (reconnect_backoff_linear (init url0) refusing) 1);
      [vm_compute; split; discriminate | reflexivity].
  - apply (proj1 (proj2 (reconnect_backoff_linear (init url0) flaky))
                 (OSError 111) (OSError 111));
      solve [reflexivity | vm_compute; discriminate].
  - apply (proj2 (proj2 (reconnect_backoff_linear (init url0) accepting)));
      reflexivity.
Defined.


Lemma transport_errors_do_not_escape_witness :
  (exists b, outcome_of (connect online_client online_lossy) = Returned b) /\
  (exists b, outcome_of (send_message (lit "error") (VDict [])
                                      online_client online_lossy)
             = Returned b).
Proof.
  assert (H := transport_errors_do_not_escape
                 online_client online_lossy (lit "error") (VDict [])).
  destruct H as (A & B & _).
  - intros n e [= <-]. reflexivity.
  - intros n e [= <-]. reflexivity.
  - exact (conj A B).
Defined.



Lemma unknown_command_is_dropped_witness :
  listen_for_commands ([garbage] ++ command :: [command]) CleanClose
                      online_client online
  = listened 0 CleanClose online_client
      (emits (stream_lines (limits online) [garbage]
              ++ [EvLog INFO (MsgReceived (Some (VStr (lit "reload_config"))));
                  EvLog INFO (MsgHandling (Some (VStr (lit "reload_config"))))]
              ++ stream_lines (limits online) [command]) online).
Proof.
  apply (proj1 (unknown_command_is_dropped 0 [garbage] command
                  [(lit "type", VStr (lit "reload_config"))] [command]
                  CleanClose online_client online eq_refl
                  ltac:(vm_compute; reflexivity)
                  ltac:(vm_compute; reflexivity)));
    vm_compute; reflexivity.
Defined.


End WsFacts.

(* ================================================================== *)
(** ** More about [WebSocketClient] *)

Module ClientFacts.
Import Py Net Ws Samples WsFacts.

(** *** The receive loop over a whole stream *)

Lemma frame_lines_cases lim frame :
  is_skipped_or_object lim frame = true ->
  Json.loads_within lim frame = Json.Raises Json.Malformed /\
  frame_lines lim frame = [EvLog ERROR MsgInvalidJSON] \/
  exists d,
    Json.loads_within lim frame = Json.Returns (VDict d) /\
    frame_lines lim frame
    = [EvLog INFO (MsgReceived (dict_get d (lit "type")));
       EvLog INFO (MsgHandling (dict_get d (lit "type")))].
Proof.
  unfold is_skipped_or_object, frame_lines. intros H.
  destruct (Json.loads_within lim frame) as [v|e].
  - destruct v; try discriminate. right. eauto.
  - destruct e; try discriminate. left. auto.
Qed.

(** X1: the receive loop handles the frames in the order they arrive.
    On a stream whose frames are each either refused by [json.loads]
    with a [JSONDecodeError] or read as an object (with a plain type),
    [listen_for_commands] writes the log lines of the frames, frame
    after frame (one error line for a refused frame, the two lines of
    a command for an object) and nothing else, leaves the sockets as
    they are while it reads, and ends as the stream does. *)
Theorem frames_are_handled_in_order sock frames fin c w :
  websocket c = Some sock ->
  forallb (is_skipped_or_object (limits w)) frames = true ->
  listen_for_commands frames fin c w
  = listened sock fin c (emits (stream_lines (limits w) frames) w) /\
  trace (emits (stream_lines (limits w) frames) w)
  = trace w ++ flat_map (frame_lines (limits w)) frames /\
  sockets (emits (stream_lines (limits w) frames) w) = sockets w /\
  (forall frame, In frame frames ->
     Json.loads_within (limits w) frame = Json.Raises Json.Malformed /\
     frame_lines (limits w) frame = [EvLog ERROR MsgInvalidJSON] \/
     exists d,
       Json.loads_within (limits w) frame = Json.Returns (VDict d) /\
       frame_lines (limits w) frame
       = [EvLog INFO (MsgReceived (dict_get d (lit "type")));
          EvLog INFO (MsgHandling (dict_get d (lit "type")))]).
Proof.
  intros Hs H. split; [|split; [|split]].
  - rewrite (listen_with_socket _ _ _ _ sock) by assumption.
    rewrite receive_lines by assumption. apply listen_finish_end.
  - apply trace_emits.
  - apply sockets_emits.
  - intros frame Hin. apply frame_lines_cases.
    rewrite forallb_forall in H. apply H. exact Hin.
Qed.

(** X2: a frame that holds JSON other than an object ends the loop:
    [command.get] raises [AttributeError], [listen_for_commands] logs
    it, sets [running] to [False] and returns.  The frames that follow
    are never read, and the connection is left as it is. *)
Theorem non_object_frame_ends_listening sock before frame v rest fin c w :
  websocket c = Some sock ->
  forallb (is_skipped_or_object (limits w)) before = true ->
  Json.loads_within (limits w) frame = Json.Returns v ->
  (forall d, v <> VDict d) ->
  listen_for_commands (before ++ frame :: rest) fin c w
  = (Returned tt, set_running false c,
     emit (EvLog ERROR (MsgListenError AttributeError))
       (emits (flat_map (frame_lines (limits w)) before) w)) /\
  sockets (world_of (listen_for_commands (before ++ frame :: rest) fin c w))
  = sockets w.
Proof.
  intros Hs Hb Hl Hv.
  assert (E : listen_for_commands (before ++ frame :: rest) fin c w
              = (Returned tt, set_running false c,
                 emit (EvLog ERROR (MsgListenError AttributeError))
                   (emits (flat_map (frame_lines (limits w)) before) w))).
  { apply (listen_stopped sock); try assumption; try reflexivity;
      try discriminate.
    intros w' Hl'. apply (on_message_other _ v); [rewrite Hl'|]; assumption. }
  split; [exact E|]. rewrite E. cbn [world_of snd emit sockets].
  apply sockets_emits.
Qed.

(** *** What escapes [listen_for_commands] *)

(** X3: nothing but a cancellation leaves [listen_for_commands] as an
    exception: whatever the frames hold and however the connection
    ends, the method returns.  Called on a client that never connected
    it returns at once: iterating over [None] raises [TypeError], which
    is logged, and [running] is set to [False]. *)
Theorem listen_lets_no_exception_escape frames fin c w :
  fin <> Abort CancelledError ->
  outcome_of (listen_for_commands frames fin c w) = Returned tt /\
  (websocket c = None ->
   listen_for_commands frames fin c w
   = (Returned tt, set_running false c,
      emit (EvLog ERROR (MsgListenError TypeError)) w)).
Proof.
  intros Hfin. split.
  - destruct (websocket c) as [sock|] eqn:Hs.
    + rewrite (listen_with_socket _ _ _ _ sock) by assumption.
      destruct (receive_shape sock fin frames c w)
        as (lines & _ & [E|(e & X & Y & E)]); rewrite E.
      * rewrite listen_finish_end. destruct fin as [|e]; [reflexivity|].
        destruct e; try reflexivity. exfalso. apply Hfin. reflexivity.
      * rewrite listen_finish_raised by assumption. reflexivity.
    + rewrite listen_without_socket by assumption. reflexivity.
  - intros Hs. apply listen_without_socket. exact Hs.
Qed.

(** *** Sending *)

Lemma length_set_closed l : forall sock,
  List.length (set_closed l sock) = List.length l.
Proof.
  induction l as [|b l IH]; intros [|n]; cbn; auto.
Qed.

Lemma transmit_client ty d c w :
  client_of (transmit ty d c w) = c /\
  connects (world_of (transmit ty d c w)) = connects w /\
  sockets (world_of (transmit ty d c w)) = sockets w \/
  client_of (transmit ty d c w) = c /\
  connects (world_of (transmit ty d c w)) = connects w /\
  exists sock, websocket c = Some sock /\
    sockets (world_of (transmit ty d c w)) = set_closed (sockets w) sock.
Proof.
  unfold transmit. run.
  destruct (Json.dumps_within (limits w) (envelope ty d (clock w)))
    as [text|e]; [|left; destruct e; cbn; auto].
  run. destruct (websocket c) as [sock|]; [|left; cbn; auto].
  destruct (closed w sock); [left; cbn; auto|].
  destruct (send_outcome w (sends w)) as [e|]; [|left; cbn; auto].
  destruct e; cbn; eauto 7.
Qed.

Lemma json_exn_Exception e : is_Exception (json_exn e) = true.
Proof. destruct e; reflexivity. Qed.

(** What [json.dumps] raises is logged, and nothing is sent. *)
Lemma transmit_unwritable ty d c w e :
  Json.dumps_within (limits w) (envelope ty d (clock w)) = Json.Raises e ->
  transmit ty d c w
  = (Returned false, c, emit (EvLog ERROR (MsgSendError (json_exn e))) w).
Proof.
  intros H. unfold transmit. run. rewrite H.
  destruct e; reflexivity.
Qed.

(** With room on the stack to call [default], and within the other
    limits, the exception of a value that cannot be serialised is the
    [TypeError]. *)
Lemma first_failure_roomy lim k v : forall d,
  (Json.default_cost lim <= k)%nat ->
  Json.fits lim d v = true ->
  Json.first_failure lim (d + k) v = None \/
  Json.first_failure lim (d + k) v = Some Json.NotSerializable.
Proof.
  induction v as [|b|n|fl|s|l IH|m IH|] using JsonFacts.value_nested_ind;
    intros d Hk Hf; try (left; reflexivity).
  - left. cbn [Json.first_failure Json.fits] in *.
    destruct (Json.too_long _ _); [discriminate|reflexivity].
  - destruct d as [|d]; [discriminate|].
    cbn [Nat.add]. rewrite JsonFacts.first_failure_list.
    cbn [Json.fits] in Hf.
    induction IH as [|x l Hx _ IHl]; [left; reflexivity|].
    cbn [forallb Json.failure_items] in *.
    apply andb_true_iff in Hf. destruct Hf as [F1 F2].
    destruct (Hx d Hk F1) as [-> | ->]; [apply IHl; exact F2|auto].
  - destruct d as [|d]; [discriminate|].
    cbn [Nat.add]. rewrite JsonFacts.first_failure_dict.
    rewrite JsonFacts.fits_dict in Hf.
    induction IH as [|[key x] m Hx _ IHm]; [left; reflexivity|].
    cbn [Json.failure_members Json.fit_members] in *. cbn [snd] in Hx.
    apply andb_true_iff in Hf. destruct Hf as [F1 F2].
    destruct (Hx d Hk F1) as [-> | ->]; [apply IHm; exact F2|auto].
  - right. cbn [Json.first_failure]. unfold Json.built.
    replace (Json.default_cost lim <=? d + k)%nat with true; [reflexivity|].
    symmetry. apply Nat.leb_le. lia.
Qed.

(** X4: a payload [json.dumps] cannot serialise is never written.
    [json.dumps] raises; on an open connection [send_message] logs the
    exception and returns [False], leaving client and connection as
    they are; in every case the call does not return [True] and no
    frame leaves.  The exception is the [TypeError] whenever the
    message is within the limits of the interpreter, with room left
    on the stack for [default] to raise it. *)
Theorem unserialisable_payload_is_not_sent ty d c w :
  serializable d = false ->
  exists e,
    Json.dumps_within (limits w) (envelope ty d (clock w)) = Json.Raises e /\
    (Json.fits (limits w)
       (Json.max_depth (limits w) - Json.default_cost (limits w))
       (envelope ty d (clock w)) = true ->
     e = Json.NotSerializable) /\
    (down c w = false ->
     send_message ty d c w
     = (Returned false, c,
        emit (EvLog ERROR (MsgSendError (json_exn e))) w)) /\
    outcome_of (send_message ty d c w) <> Returned true /\
    sends (world_of (send_message ty d c w)) = sends w.
Proof.
  intros H.
  assert (Hu : forall ts, serializable (envelope ty d ts) = false).
  { intros ts. unfold envelope. cbn [serializable]. rewrite H. reflexivity. }
  destruct (JsonFacts.dumps_within_unserialisable (limits w) _ (Hu (clock w)))
    as (e & E).
  assert (T : forall c' w', limits w' = limits w -> clock w' = clock w ->
            transmit ty d c' w'
            = (Returned false, c',
               emit (EvLog ERROR (MsgSendError (json_exn e))) w')).
  { intros c' w' Hl Hc. apply transmit_unwritable. rewrite Hl, Hc. exact E. }
  exists e. split; [exact E|]. split; [|split; [|split]].
  - intros Hf.
    destruct (Nat.le_gt_cases (Json.default_cost (limits w))
                              (Json.max_depth (limits w))) as [L|G].
    + pose proof (first_failure_roomy (limits w) (Json.default_cost (limits w))
                    _ _ (Nat.le_refl _) Hf) as R.
      replace (Json.max_depth (limits w) - Json.default_cost (limits w)
               + Json.default_cost (limits w))%nat
        with (Json.max_depth (limits w)) in R by lia.
      unfold Json.dumps_within in E.
      destruct R as [R|R]; rewrite R in E; congruence.
    + replace (Json.max_depth (limits w) - Json.default_cost (limits w))%nat
        with O in Hf by lia.
      discriminate.
  - intros Hd. rewrite send_message_transmit, Hd. apply T; reflexivity.
  - rewrite send_message_transmit. destruct (down c w).
    + destruct (connect c (emit (EvLog WARNING MsgNotConnected) w))
        as [[[[|]|e'] c'] w'] eqn:C; try (cbn; discriminate).
      assert (K : limits w' = limits w /\ clock w' = clock w).
      { destruct (connect_cases c (emit (EvLog WARNING MsgNotConnected) w))
          as [(e0 & _ & _ & E0)|[[_ E0]|[_ E0]]];
          rewrite C in E0; try discriminate.
        injection E0 as _ ->. split; reflexivity. }
      rewrite T by tauto. cbn. discriminate.
    + rewrite T by reflexivity. cbn. discriminate.
  - rewrite send_message_transmit. destruct (down c w).
    + set (w1 := emit (EvLog WARNING MsgNotConnected) w).
      assert (Hw1 : sends w1 = sends w) by reflexivity.
      destruct (connect_outcome w1 (connects w1)) as [e'|] eqn:E'.
      * destruct (is_Exception e') eqn:He.
        -- rewrite (connect_failure _ _ e') by assumption. reflexivity.
        -- assert (C : connect c w1
                        = (Raised e', c,
                           count_connect
                             (emit (EvConnect (server_url c))
                                (emit (EvLog INFO (MsgConnecting (server_url c)))
                                   w1)))).
           { run. rewrite E', He. reflexivity. }
           rewrite C. reflexivity.
      * rewrite connect_success by assumption.
        rewrite T by reflexivity. reflexivity.
    + rewrite T by reflexivity. reflexivity.
Qed.

(** X5: on an open connection [send_message] never touches the client and
    never opens a connection: a send that fails is seen in the value
    returned only, [running] stays as it was and the websocket stays in
    place. *)
Theorem send_on_open_connection_keeps_client ty d c w :
  down c w = false ->
  client_of (send_message ty d c w) = c /\
  connects (world_of (send_message ty d c w)) = connects w /\
  List.length (sockets (world_of (send_message ty d c w)))
  = List.length (sockets w).
Proof.
  intros Hd. rewrite send_message_transmit, Hd.
  destruct (transmit_client ty d c w) as [(A & B & C)|(A & B & sock & _ & C)].
  - rewrite A, B, C. auto.
  - rewrite A, B, C. split; [reflexivity|split; [reflexivity|]].
    apply length_set_closed.
Qed.

(** *** Connecting *)

(** X6: [connect] does not close the connection it replaces: called on a
    client whose connection is open, it opens a second socket, makes it
    the client's websocket and leaves the first one open. *)
Theorem connect_leaves_old_socket_open c w old :
  websocket c = Some old -> closed w old = false ->
  connect_outcome w (connects w) = None ->
  outcome_of (connect c w) = Returned true /\
  websocket (client_of (connect c w)) = Some (List.length (sockets w)) /\
  List.length (sockets w) <> old /\
  closed (world_of (connect c w)) (List.length (sockets w)) = false /\
  closed (world_of (connect c w)) old = false.
Proof.
  intros Hw Hc Ho. rewrite connect_success by assumption.
  unfold connected_client, connect_succeeded, closed in *.
  cbn [outcome_of client_of world_of fst snd websocket set_websocket
       set_running set_reconnect_attempts sockets emit with_sockets].
  assert (Hlt : (old < List.length (sockets w))%nat).
  { destruct (Nat.lt_ge_cases old (List.length (sockets w))) as [L|G];
      [exact L|]. rewrite nth_overflow in Hc by exact G. discriminate. }
  split; [reflexivity|]. split; [reflexivity|]. split; [lia|].
  split; [apply closed_new_socket|].
  rewrite app_nth1 by exact Hlt. exact Hc.
Qed.

(** *** The time spent backing off *)

Lemma reconnect_times_sleep n : forall c w m,
  max_reconnect_attempts c - reconnect_attempts c = Z.of_nat n ->
  (forall i, (i < n)%nat ->
     exists e, connect_outcome w (connects w + i) = Some e /\
               is_Exception e = true) ->
  2 * elapsed_sleep (trace (world_of (reconnect_times (n + m) c w)))
  = 2 * elapsed_sleep (trace w)
    + reconnect_delay c * Z.of_nat n
      * (2 * reconnect_attempts c + Z.of_nat n + 1).
Proof.
  induction n as [|n IH]; intros c w m Hn Hf.
  - destruct (reconnect_times_exhausted m c w ltac:(lia)) as (w' & A & _ & B).
    cbn [Nat.add]. rewrite A. cbn [world_of snd]. rewrite B.
    change (Z.of_nat 0) with 0. lia.
  - destruct (Hf O ltac:(lia)) as (e & He & Hx). rewrite Nat.add_0_r in He.
    cbn [Nat.add reconnect_times]. unfold bind at 1.
    rewrite (reconnect_failure c w e) by (assumption || lia).
    cbv beta iota.
    set (c1 := set_reconnect_attempts (reconnect_attempts c + 1) c).
    set (w1 := connect_failed e c1 (backoff (reconnect_attempts c + 1) c w)).
    assert (I := IH c1 w1 m). unfold bind at 1.
    destruct (reconnect_times (n + m) c1 w1) as [[o c'] w'] eqn:R.
    assert (Ho : exists bs, o = Returned bs).
    { destruct (reconnect_times_failing n c1 w1 m) as (c2 & w2 & A & _).
      - subst c1. cbn. lia.
      - intros i Hi. destruct (Hf (S i) ltac:(lia)) as (e' & He' & Hx').
        exists e'. split; [|assumption]. subst w1. cbn.
        rewrite <- He'. f_equal. lia.
      - rewrite R in A. injection A as -> _ _. eauto. }
    destruct Ho as (bs & ->). cbn [world_of snd ret] in *.
    rewrite I.
    + subst w1 c1. unfold connect_failed, backoff.
      cbn [trace emit count_connect reconnect_delay reconnect_attempts
           set_reconnect_attempts max_reconnect_attempts].
      rewrite <- !app_assoc. rewrite !elapsed_sleep_app.
      cbn [elapsed_sleep app]. nia.
    + subst c1. cbn. lia.
    + intros i Hi. destruct (Hf (S i) ltac:(lia)) as (e' & He' & Hx').
      exists e'. split; [|assumption]. subst w1. cbn.
      rewrite <- He'. f_equal. lia.
Qed.

(** X7: with a limit of [N] attempts and a transport that keeps failing,
    the calls of [reconnect] sleep [reconnect_delay * (1 + 2 + ... + N)]
    in all, that is [reconnect_delay * N * (N + 1) / 2], before giving
    up; the calls after the [N]-th sleep no more. *)
Theorem backoff_before_giving_up (N : nat) c w m :
  max_reconnect_attempts c = Z.of_nat N ->
  reconnect_attempts c = 0 ->
  (forall i, (i < N)%nat ->
     exists e, connect_outcome w (connects w + i) = Some e /\
               is_Exception e = true) ->
  2 * elapsed_sleep (trace (world_of (reconnect_times (N + m) c w)))
  = 2 * elapsed_sleep (trace w)
    + reconnect_delay c * Z.of_nat N * (Z.of_nat N + 1).
Proof.
  intros Hm Ha Hf. rewrite (reconnect_times_sleep N) by (assumption || lia).
  rewrite Ha. replace (2 * 0 + Z.of_nat N + 1) with (Z.of_nat N + 1) by lia.
  reflexivity.
Qed.

(** *** What every method keeps *)

Lemma connect_client c w :
  client_of (connect c w) = c \/
  client_of (connect c w) = connected_client c w.
Proof.
  run. destruct (connect_outcome w (connects w)) as [e|]; [|right; reflexivity].
  left. destruct (is_Exception e); reflexivity.
Qed.

Lemma send_message_client ty d c w :
  client_of (send_message ty d c w) = c \/
  exists w', client_of (send_message ty d c w) = connected_client c w'.
Proof.
  rewrite send_message_transmit. destruct (down c w).
  - set (w1 := emit (EvLog WARNING MsgNotConnected) w).
    destruct (connect_client c w1) as [E|E];
      destruct (connect c w1) as [[[[|]|e] c'] w'];
      cbn [client_of fst snd] in E; subst c'; cbn [client_of fst snd];
      try (left; reflexivity); try (right; eexists; reflexivity).
    + destruct (transmit_client ty d c w') as [(A & _)|(A & _)]; auto.
    + destruct (transmit_client ty d (connected_client c w1) w')
        as [(A & _)|(A & _)]; rewrite A; eauto.
  - destruct (transmit_client ty d c w) as [(A & _)|(A & _)]; auto.
Qed.

Lemma listen_client frames fin c w :
  client_of (listen_for_commands frames fin c w) = c \/
  client_of (listen_for_commands frames fin c w) = set_running false c.
Proof.
  destruct (websocket c) as [sock|] eqn:Hs.
  - rewrite (listen_with_socket _ _ _ _ sock) by assumption.
    destruct (receive_shape sock fin frames c w)
      as (lines & _ & [E|(e & X & Y & E)]); rewrite E.
    + rewrite listen_finish_end. destruct fin as [|e]; [left; reflexivity|].
      destruct e; cbn; auto.
    + rewrite listen_finish_raised by assumption. right. reflexivity.
  - right. rewrite listen_without_socket by assumption. reflexivity.
Qed.

Lemma disconnect_client c w :
  client_of (Ws.disconnect c w) = set_running false c.
Proof.
  destruct (down c w) eqn:D.
  - rewrite disconnect_down by assumption. reflexivity.
  - unfold down in D. destruct (websocket c) as [sock|] eqn:Hs;
      [|discriminate].
    rewrite (disconnect_open c w sock) by assumption. reflexivity.
Qed.

Lemma reconnect_client c w :
  client_of (reconnect c w) = c \/
  (reconnect_attempts c < max_reconnect_attempts c /\
   (client_of (reconnect c w)
    = set_reconnect_attempts (reconnect_attempts c + 1) c \/
    exists w',
      client_of (reconnect c w)
      = connected_client
          (set_reconnect_attempts (reconnect_attempts c + 1) c) w')).
Proof.
  destruct (Z.lt_ge_cases (reconnect_attempts c) (max_reconnect_attempts c))
    as [L|G].
  - right. split; [exact L|]. rewrite reconnect_attempt by assumption.
    destruct (connect_client
                (set_reconnect_attempts (reconnect_attempts c + 1) c)
                (backoff (reconnect_attempts c + 1) c w)) as [E|E];
      rewrite E; eauto.
  - left. rewrite reconnect_exhausted by assumption. reflexivity.
Qed.

(** X8: every method of the client keeps the counter of [reconnect]
    between 0 and [max_reconnect_attempts], and none changes the URL,
    the limit or the delay. *)
Theorem counter_stays_in_range c w :
  counter_in_range c ->
  (counter_in_range (client_of (connect c w)) /\
   same_settings c (client_of (connect c w))) /\
  (forall ty d,
     counter_in_range (client_of (send_message ty d c w)) /\
     same_settings c (client_of (send_message ty d c w))) /\
  (forall frames fin,
     counter_in_range (client_of (listen_for_commands frames fin c w)) /\
     same_settings c (client_of (listen_for_commands frames fin c w))) /\
  (counter_in_range (client_of (Ws.disconnect c w)) /\
   same_settings c (client_of (Ws.disconnect c w))) /\
  (counter_in_range (client_of (reconnect c w)) /\
   same_settings c (client_of (reconnect c w))).
Proof.
  unfold counter_in_range, same_settings. intros H.
  split; [|split; [|split; [|split]]].
  - destruct (connect_client c w) as [-> | ->]; cbn; repeat split; lia.
  - intros ty d.
    destruct (send_message_client ty d c w) as [-> | [w' ->]]; cbn;
      repeat split; lia.
  - intros frames fin.
    destruct (listen_client frames fin c w) as [-> | ->]; cbn;
      repeat split; lia.
  - rewrite disconnect_client. cbn. repeat split; lia.
  - destruct (reconnect_client c w) as [-> | [L [-> | [w' ->]]]]; cbn;
      repeat split; lia.
Qed.

(** *** [disconnect], then [send_message] *)

Lemma disconnect_result c w :
  exists w',
    Ws.disconnect c w = (Returned tt, set_running false c, w') /\
    down (set_running false c) w' = true /\
    connect_outcome w' = connect_outcome w /\
    send_outcome w' = send_outcome w /\
    connects w' = connects w /\ sends w' = sends w /\
    clock w' = clock w /\ limits w' = limits w /\
    (down c w = true -> w' = w) /\
    (forall sock, websocket c = Some sock -> closed w sock = false ->
                  w' = socket_closed sock w).
Proof.
  destruct (down c w) eqn:D.
  - exists w. rewrite disconnect_down by assumption.
    repeat split; auto.
    intros sock Hs Hc. unfold down in D. rewrite Hs in D. congruence.
  - unfold down in D. destruct (websocket c) as [sock|] eqn:Hs;
      [|discriminate].
    exists (socket_closed sock w).
    rewrite (disconnect_open c w sock) by assumption.
    split; [reflexivity|]. split.
    { unfold down. cbn [websocket set_running]. rewrite Hs.
      apply closed_socket_closed. }
    repeat split; try reflexivity; [discriminate|].
    intros s' [= <-] _. reflexivity.
Qed.

Lemma send_message_returns ty d c w :
  (forall n e, connect_outcome w n = Some e -> is_Exception e = true) ->
  (forall n e, send_outcome w n = Some e -> is_Exception e = true) ->
  exists b, outcome_of (send_message ty d c w) = Returned b.
Proof.
  intros Hc Hs. rewrite send_message_transmit. destruct (down c w).
  - set (w1 := emit (EvLog WARNING MsgNotConnected) w).
    destruct (connect_cases c w1) as [(e & _ & _ & E)|[[E _]|[_ E]]].
    + rewrite E. cbn. eauto.
    + apply Hc in E. discriminate.
    + rewrite E. apply transmit_returns. exact Hs.
  - apply transmit_returns. exact Hs.
Qed.

Lemma send_message_reopens c w ty d text :
  down c w = true ->
  connect_outcome w (connects w) = None ->
  Json.dumps_within (limits w) (envelope ty d (clock w)) = Json.Returns text ->
  send_outcome w (sends w) = None ->
  send_message ty d c w
  = (Returned true, connected_client c w,
     frame_sent (List.length (sockets w)) ty text
       (connect_succeeded c (emit (EvLog WARNING MsgNotConnected) w))).
Proof.
  intros Hd Hn Hj Ho. rewrite send_message_transmit, Hd.
  rewrite connect_success by assumption.
  unfold transmit, connect_succeeded, connected_client, frame_sent.
  run. rewrite Hj. run. unfold closed. cbn [sockets].
  rewrite closed_new_socket, Ho. reflexivity.
Qed.

(** X9: [disconnect] is not final: a [send_message] that follows it finds
    the client down and connects again.  With a server that accepts
    the connection the message is sent, [running] is [True] again and
    the client holds a new open connection. *)
Theorem send_after_disconnect_reconnects c w ty d text :
  connect_outcome w (connects w) = None ->
  send_outcome w (sends w) = None ->
  Json.dumps_within (limits w) (envelope ty d (clock w)) = Json.Returns text ->
  let r := (Ws.disconnect ;; send_message ty d) c w in
  outcome_of r = Returned true /\
  running (client_of r) = true /\
  down (client_of r) (world_of r) = false /\
  connects (world_of r) = S (connects w) /\
  sends (world_of r) = S (sends w).
Proof.
  intros Hn Ho Hj r.
  destruct (disconnect_result c w)
    as (w1 & E & Hd & A1 & A2 & A3 & A4 & A5 & A6 & _).
  assert (R : r = send_message ty d (set_running false c) w1).
  { subst r. unfold bind. rewrite E. reflexivity. }
  rewrite R.
  rewrite (send_message_reopens _ _ _ _ text);
    [|assumption|rewrite A1, A3; assumption|rewrite A5, A6; assumption
     |rewrite A2, A4; assumption].
  unfold connected_client, frame_sent, connect_succeeded, down, closed.
  cbn. rewrite closed_new_socket, A3, A4. auto.
Qed.

(** *** The theorems at concrete inputs *)

Lemma frames_are_handled_in_order_witness :
  listen_for_commands [garbage; command] (Abort ConnectionClosed)
                      online_client online
  = listened 0 (Abort ConnectionClosed) online_client
      (emits (stream_lines (limits online) [garbage; command]) online).
Proof.
  apply (proj1 (frames_are_handled_in_order 0 [garbage; command]
                  (Abort ConnectionClosed) online_client online eq_refl
                  ltac:(vm_compute; reflexivity))).
Defined.

Lemma non_object_frame_ends_listening_witness :
  listen_for_commands ([command] ++ lit "[1, 2]" :: [command]) CleanClose
    online_client online
  = (Returned tt, set_running false online_client,
     emit (EvLog ERROR (MsgListenError AttributeError))
       (emits (flat_map (frame_lines (limits online)) [command]) online)).
Proof.
  apply (proj1 (non_object_frame_ends_listening 0 [command] (lit "[1, 2]")
                  (VList [VInt 1; VInt 2]) [command] CleanClose
                  online_client online eq_refl
                  ltac:(vm_compute; reflexivity)
                  ltac:(vm_compute; reflexivity)
                  ltac:(discriminate))).
Defined.

Lemma listen_lets_no_exception_escape_witness :
  outcome_of (listen_for_commands [garbage] (Abort (OSError 104))
                (init url0) refusing) = Returned tt.
Proof.
  apply (proj1 (listen_lets_no_exception_escape [garbage] (Abort (OSError 104))
                  (init url0) refusing ltac:(discriminate))).
Defined.

Lemma unserialisable_payload_is_not_sent_witness :
  exists e,
    Json.dumps_within (limits online)
      (envelope (lit "error") VObject (clock online)) = Json.Raises e /\
    (Json.fits (limits online)
       (Json.max_depth (limits online) - Json.default_cost (limits online))
       (envelope (lit "error") VObject (clock online)) = true ->
     e = Json.NotSerializable) /\
    (down online_client online = false ->
     send_message (lit "error") VObject online_client online
     = (Returned false, online_client,
        emit (EvLog ERROR (MsgSendError (json_exn e))) online)) /\
    outcome_of (send_message (lit "error") VObject online_client online)
    <> Returned true /\
    sends (world_of (send_message (lit "error") VObject online_client online))
    = sends online.
Proof.
  apply (unserialisable_payload_is_not_sent (lit "error") VObject
           online_client online eq_refl).
Defined.

Lemma send_on_open_connection_keeps_client_witness :
  client_of (send_message (lit "error") (VDict []) online_client online_lossy)
  = online_client.
Proof.
  apply (proj1 (send_on_open_connection_keeps_client (lit "error") (VDict [])
                  online_client online_lossy eq_refl)).
Defined.

Lemma connect_leaves_old_socket_open_witness :
  websocket (client_of (connect online_client online)) = Some 1%nat /\
  closed (world_of (connect online_client online)) 0 = false.
Proof.
  destruct (connect_leaves_old_socket_open online_client online 0
              eq_refl eq_refl eq_refl) as (_ & A & _ & _ & B).
  exact (conj A B).
Defined.

Lemma backoff_before_giving_up_witness :
  2 * elapsed_sleep
        (trace (world_of (reconnect_times (3 + 1) three_attempts refusing)))
  = 2 * elapsed_sleep (trace refusing)
    + reconnect_delay three_attempts * Z.of_nat 3 * (Z.of_nat 3 + 1).
Proof.
  apply (backoff_before_giving_up 3 three_attempts refusing 1);
    [reflexivity | reflexivity |].
  intros i _. exists (OSError 111). split; reflexivity.
Defined.

Lemma counter_stays_in_range_witness :
  counter_in_range (client_of (reconnect (init url0) refusing)).
Proof.
  assert (H : counter_in_range (init url0)).
  { unfold counter_in_range. cbn. lia. }
  exact (proj1 (proj2 (proj2 (proj2 (proj2
           (counter_stays_in_range (init url0) refusing H)))))).
Defined.

Lemma send_after_disconnect_reconnects_witness :
  outcome_of ((Ws.disconnect ;; send_message (lit "error") (VDict []))
                online_client online) = Returned true.
Proof.
  apply (proj1 (send_after_disconnect_reconnects online_client online
                  (lit "error") (VDict [])
                  (Json.encode (envelope (lit "error") (VDict []) clock0))
                  eq_refl eq_refl ltac:(vm_compute; reflexivity))).
Defined.

End ClientFacts.

(* ================================================================== *)
(** ** Facts about [CameraManager] *)

Module CamFacts.
Import Py Net Host Cam.
Local Open Scope host_scope.

(** Unfold the combinators of a method down to the process. *)
Ltac hrun :=
  cbv beta zeta delta [add_camera assign start_camera stop_camera
    Host.try_except Host.except_Exception Host.bind Host.ret Host.raise
    Host.self Host.update Host.effect Host.log datetime_now random_uniform
    random_randint on_net zoom subscript py_getitem
    Host.outcome_of state_of host_of];
  cbn [fst snd negb cameras active_streams set_cameras set_active_streams
       net uniform_outcome randint_outcome draws now_outcome nows journal
       with_net note count_draw count_now Host.is_Exception].

(** *** Dicts *)

Section Dicts.
Context {V : Type}.
Implicit Types (d : list (str * V)) (k : str) (v : V).

Lemma getitem_setitem d k v : getitem (setitem d k v) k = Some v.
Proof.
  induction d as [|[k' v'] d IH]; cbn [setitem getitem].
  - rewrite JsonFacts.str_eqb_refl. reflexivity.
  - destruct (str_eqb k k') eqn:E; cbn [getitem]; rewrite E; auto.
Qed.

Lemma getitem_setitem_other d k k' v :
  k' <> k -> getitem (setitem d k v) k' = getitem d k'.
Proof.
  intros N. assert (F : str_eqb k' k = false).
  { destruct (str_eqb k' k) eqn:E; [|reflexivity].
    apply JsonFacts.str_eqb_eq in E. contradiction. }
  induction d as [|[k1 v1] d IH]; cbn [setitem getitem].
  - rewrite F. reflexivity.
  - destruct (str_eqb k k1) eqn:E; cbn [getitem].
    + apply JsonFacts.str_eqb_eq in E. subst k1. rewrite F. reflexivity.
    + rewrite IH. reflexivity.
Qed.

Lemma setitem_setitem d k v v' :
  setitem (setitem d k v) k v' = setitem d k v'.
Proof.
  induction d as [|[k1 v1] d IH]; cbn [setitem].
  - rewrite JsonFacts.str_eqb_refl. reflexivity.
  - destruct (str_eqb k k1) eqn:E; cbn [setitem]; rewrite E; congruence.
Qed.

Lemma contains_getitem d k :
  contains d k = true <-> exists v, getitem d k = Some v.
Proof.
  unfold contains. destruct (getitem d k) as [v|].
  - split; eauto.
  - split; [discriminate|intros [v [=]]].
Qed.

Lemma getitem_keys d k :
  getitem d k = None <-> existsb (str_eqb k) (map fst d) = false.
Proof.
  induction d as [|[k1 v1] d IH]; cbn [getitem map fst existsb].
  - tauto.
  - destruct (str_eqb k k1); cbn [orb]; [|exact IH].
    split; discriminate.
Qed.

Lemma keys_setitem_known d k v :
  contains d k = true -> map fst (setitem d k v) = map fst d.
Proof.
  unfold contains.
  induction d as [|[k1 v1] d IH]; cbn [setitem getitem map fst];
    [discriminate|].
  destruct (str_eqb k k1) eqn:E; cbn [map fst]; [reflexivity|].
  intros H. rewrite IH by exact H. reflexivity.
Qed.

Lemma keys_setitem_new d k v :
  contains d k = false -> map fst (setitem d k v) = map fst d ++ [k].
Proof.
  unfold contains.
  induction d as [|[k1 v1] d IH]; cbn [setitem getitem map fst app];
    [reflexivity|].
  destruct (str_eqb k k1) eqn:E; cbn [map fst]; [discriminate|].
  intros H. rewrite IH by exact H. reflexivity.
Qed.

Lemma distinct_keys_snoc ks k :
  distinct_keys ks = true -> existsb (str_eqb k) ks = false ->
  distinct_keys (ks ++ [k]) = true.
Proof.
  induction ks as [|k1 ks IH]; cbn [distinct_keys existsb app];
    [reflexivity|].
  intros H1 H2. apply andb_true_iff in H1. destruct H1 as [A B].
  apply orb_false_iff in H2. destruct H2 as [C D].
  rewrite IH by assumption. rewrite andb_true_r.
  rewrite existsb_app. cbn [existsb]. rewrite orb_false_r.
  apply negb_true_iff in A. rewrite A. cbn [orb].
  rewrite JsonFacts.str_eqb_sym, C. reflexivity.
Qed.

Lemma distinct_setitem d k v :
  distinct_keys (map fst d) = true ->
  distinct_keys (map fst (setitem d k v)) = true.
Proof.
  intros H. destruct (contains d k) eqn:C.
  - rewrite keys_setitem_known by assumption. exact H.
  - rewrite keys_setitem_new by assumption.
    apply distinct_keys_snoc; [exact H|].
    apply getitem_keys. unfold contains in C.
    destruct (getitem d k); [discriminate|reflexivity].
Qed.

End Dicts.

(** *** The active cameras *)

Lemma in_active_ids d id :
  distinct_keys (map fst d) = true ->
  In id (active_ids d) <->
  exists cam, getitem d id = Some cam /\ is_active cam = true.
Proof.
  unfold active_ids.
  induction d as [|[k1 c1] d IH]; cbn [map fst filter snd getitem distinct_keys].
  - intros _. split; [intros []|intros (cam & [=] & _)].
  - intros H. apply andb_true_iff in H. destruct H as [A B].
    apply negb_true_iff in A. specialize (IH B).
    destruct (str_eqb id k1) eqn:E.
    + apply JsonFacts.str_eqb_eq in E. subst k1.
      assert (N : ~ In id (map fst (filter (fun item => is_active (snd item)) d))).
      { intros HI. apply IH in HI. destruct HI as (cam & G & _).
        assert (X : getitem d id <> None) by congruence.
        apply X. apply getitem_keys. exact A. }
      destruct (is_active c1) eqn:Ac; cbn [map fst In].
      * split; [intros _; eauto|auto].
      * split; [intros HI; contradiction|].
        intros (cam & [= <-] & Hc). congruence.
    + assert (Nk : k1 <> id).
      { intros ->. rewrite JsonFacts.str_eqb_refl in E. discriminate. }
      destruct (is_active c1); cbn [map fst In]; rewrite <- IH; tauto.
Qed.

Lemma active_ids_setitem_other d id v other :
  other <> id ->
  In other (active_ids (setitem d id v)) <-> In other (active_ids d).
Proof.
  intros N. unfold active_ids.
  induction d as [|[k1 c1] d IH]; cbn [setitem map fst filter snd].
  - destruct (is_active v); cbn [map fst In]; [|tauto].
    split; [intros [E|[]]; congruence|intros []].
  - destruct (str_eqb id k1) eqn:E; cbn [filter snd].
    + apply JsonFacts.str_eqb_eq in E. subst k1.
      destruct (is_active v), (is_active c1); cbn [map fst In]; try tauto;
        split; intros H; try (right; exact H);
        destruct H as [H|H]; congruence || auto.
    + destruct (is_active c1); cbn [map fst In]; rewrite IH; tauto.
Qed.

Lemma in_active_ids_first d id cam :
  getitem d id = Some cam -> is_active cam = true -> In id (active_ids d).
Proof.
  unfold active_ids.
  induction d as [|[k1 c1] d IH]; cbn [getitem filter snd]; [discriminate|].
  destruct (str_eqb id k1) eqn:E.
  - apply JsonFacts.str_eqb_eq in E. subst k1. intros [= ->] ->.
    cbn. auto.
  - intros G A. destruct (is_active c1); cbn [map fst In]; auto.
Qed.

(** *** [add_camera] *)

Lemma add_camera_result id gate url name m h :
  add_camera id gate url name m h
  = (Finished tt,
     set_cameras (setitem (cameras m) id (new_camera id gate url name)) m,
     note (HLog INFO (MsgAddedCamera id gate)) h).
Proof. reflexivity. Qed.

(** X10: [add_camera] stores the camera under its id, inactive and with no
    frame time, and touches no other entry.  A new id goes to the end
    of the dict; an id that is already registered keeps its place and
    its entry is replaced, so that adding an active camera again makes
    it inactive.  An empty device name becomes ["Camera <id>"]. *)
Theorem add_camera_registers_inactive id gate url name m h :
  let m' := state_of (add_camera id gate url name m h) in
  Host.outcome_of (add_camera id gate url name m h) = Finished tt /\
  getitem (cameras m') id
  = Some {| camera_id := id; gate_id := gate; stream_url := url;
            device_name := match name with
                           | [] => lit "Camera " ++ id
                           | _ => name
                           end;
            status := lit "inactive"; last_frame_time := None |} /\
  (forall other, other <> id ->
     getitem (cameras m') other = getitem (cameras m) other) /\
  map fst (cameras m')
  = (if contains (cameras m) id then map fst (cameras m)
     else map fst (cameras m) ++ [id]) /\
  (distinct_keys (map fst (cameras m)) = true ->
   ~ In id (get_active_cameras m')) /\
  (forall other, other <> id ->
     In other (get_active_cameras m') <-> In other (get_active_cameras m)).
Proof.
  intros m'. subst m'. rewrite add_camera_result.
  cbn [Host.outcome_of state_of fst snd cameras set_cameras].
  split; [reflexivity|]. split; [apply getitem_setitem|].
  split; [intros other N; apply getitem_setitem_other; exact N|].
  split.
  { destruct (contains (cameras m) id) eqn:C.
    - apply keys_setitem_known. exact C.
    - apply keys_setitem_new. exact C. }
  split.
  - intros D HI. unfold get_active_cameras in HI.
    cbn [cameras set_cameras] in HI.
    apply (in_active_ids _ id (distinct_setitem _ id _ D)) in HI.
    destruct HI as (cam & G & A). rewrite getitem_setitem in G.
    injection G as <-. discriminate.
  - intros other N. apply active_ids_setitem_other. exact N.
Qed.

(** *** [start_camera] *)

Lemma assign_known id change cam m h :
  getitem (cameras m) id = Some cam ->
  assign id change m h
  = (Finished tt, set_cameras (setitem (cameras m) id (change cam)) m, h).
Proof. intros G. hrun. rewrite G. reflexivity. Qed.

Lemma start_camera_unknown id m h :
  contains (cameras m) id = false ->
  start_camera id m h
  = (Finished false, m, note (HLog ERROR (MsgCameraNotFound id)) h).
Proof. intros C. hrun. rewrite C. reflexivity. Qed.

Lemma start_camera_known id cam m h :
  getitem (cameras m) id = Some cam ->
  start_camera id m h
  = (Finished true,
     set_cameras
       (setitem (cameras m) id
          (set_last_frame_time (Some (now_outcome h (nows h)))
             (set_status (lit "active") cam))) m,
     count_now (note (HLog INFO (MsgStartingCamera id)) h)).
Proof.
  intros G. unfold start_camera. unfold Host.bind at 1, Host.self at 1.
  assert (C : contains (cameras m) id = true).
  { apply contains_getitem. eauto. }
  rewrite C. cbn [negb]. unfold Host.try_except.
  unfold Host.bind at 1. unfold Host.log at 1, Host.effect at 1.
  unfold Host.bind at 1. rewrite (assign_known _ _ cam) by exact G.
  unfold Host.bind at 1. unfold datetime_now at 1.
  unfold Host.bind at 1.
  rewrite (assign_known _ _ (set_status (lit "active") cam))
    by (cbn [cameras set_cameras]; apply getitem_setitem).
  cbn [cameras set_cameras Host.ret now_outcome nows note].
  rewrite setitem_setitem. reflexivity.
Qed.

(** X11: [start_camera] returns [True] exactly for a registered camera.
    That camera becomes active and gets the current time as its frame
    time; no other entry changes and no camera is added or removed.
    For an id that is not registered the call returns [False] and only
    logs an error. *)
Theorem start_camera_activates_one id m h :
  (contains (cameras m) id = false ->
   start_camera id m h
   = (Finished false, m, note (HLog ERROR (MsgCameraNotFound id)) h)) /\
  (forall cam,
     getitem (cameras m) id = Some cam ->
     let m' := state_of (start_camera id m h) in
     Host.outcome_of (start_camera id m h) = Finished true /\
     getitem (cameras m') id
     = Some (set_last_frame_time (Some (now_outcome h (nows h)))
               (set_status (lit "active") cam)) /\
     In id (get_active_cameras m') /\
     (forall other, other <> id ->
        getitem (cameras m') other = getitem (cameras m) other) /\
     (forall other, other <> id ->
        In other (get_active_cameras m') <-> In other (get_active_cameras m)) /\
     map fst (cameras m') = map fst (cameras m) /\
     active_streams m' = active_streams m).
Proof.
  split; [apply start_camera_unknown|].
  intros cam G m'. subst m'. rewrite (start_camera_known _ cam) by exact G.
  cbn [Host.outcome_of state_of fst snd cameras set_cameras active_streams].
  split; [reflexivity|]. split; [apply getitem_setitem|].
  split.
  { unfold get_active_cameras. cbn [cameras set_cameras].
    eapply in_active_ids_first; [apply getitem_setitem|reflexivity]. }
  split; [intros other N; apply getitem_setitem_other; exact N|].
  split; [intros other N; apply active_ids_setitem_other; exact N|].
  split; [|reflexivity].
  apply keys_setitem_known. apply contains_getitem. eauto.
Qed.

(** *** [stop_camera] *)

Lemma stop_camera_result id m h :
  stop_camera id m h
  = (Finished tt, stopped id m,
     note (HLog INFO (MsgStoppedCamera id))
       (match getitem (active_streams m) id with
        | Some capture => note (HRelease capture) h
        | None => h
        end)).
Proof.
  destruct m as [entries streams]. unfold stopped. hrun.
  cbv beta iota delta [cameras active_streams set_cameras set_active_streams
                       contains].
  destruct (getitem streams id) as [cap|];
    destruct (getitem entries id) as [cam|] eqn:G;
    cbv beta iota delta [cameras]; rewrite ?G; reflexivity.
Qed.

Lemma stop_camera_cameras id m h :
  cameras (state_of (stop_camera id m h))
  = match getitem (cameras m) id with
    | Some cam => setitem (cameras m) id (set_status (lit "inactive") cam)
    | None => cameras m
    end /\
  Host.outcome_of (stop_camera id m h) = Finished tt.
Proof. rewrite stop_camera_result. split; reflexivity. Qed.

(** X12: [stop_camera] never fails.  Afterwards the camera is not active;
    no other entry changes and no camera is added or removed.  For an
    id that is not registered the cameras are left as they are. *)
Theorem stop_camera_deactivates_one id m h :
  let m' := state_of (stop_camera id m h) in
  Host.outcome_of (stop_camera id m h) = Finished tt /\
  (distinct_keys (map fst (cameras m)) = true ->
   ~ In id (get_active_cameras m')) /\
  (forall other, other <> id ->
     getitem (cameras m') other = getitem (cameras m) other) /\
  (forall other, other <> id ->
     In other (get_active_cameras m') <-> In other (get_active_cameras m)) /\
  map fst (cameras m') = map fst (cameras m) /\
  (contains (cameras m) id = false -> cameras m' = cameras m).
Proof.
  intros m'. subst m'.
  destruct (stop_camera_cameras id m h) as [E O].
  unfold get_active_cameras. rewrite E, O. clear E O.
  split; [reflexivity|].
  destruct (getitem (cameras m) id) as [cam|] eqn:G.
  - split.
    { intros D HI.
      apply (in_active_ids _ id (distinct_setitem _ id _ D)) in HI.
      destruct HI as (c & G' & A). rewrite getitem_setitem in G'.
      injection G' as <-. discriminate. }
    split; [intros other N; apply getitem_setitem_other; exact N|].
    split; [intros other N; apply active_ids_setitem_other; exact N|].
    split; [|unfold contains; rewrite G; discriminate].
    apply keys_setitem_known. apply contains_getitem. eauto.
  - split.
    { intros D HI. apply (in_active_ids _ id D) in HI.
      destruct HI as (c & G' & _). congruence. }
    repeat split; auto.
Qed.

(** Starting the second camera of [gate_cameras], then stopping the
    first. *)
Example start_then_stop :
  get_active_cameras
    (state_of (start_camera (lit "CAM_002") Samples.gate_cameras
                 (Samples.host_on Samples.online)))
  = [lit "CAM_001"; lit "CAM_002"] /\
  get_active_cameras
    (state_of ((start_camera (lit "CAM_002") ;; stop_camera (lit "CAM_001"))
                 Samples.gate_cameras (Samples.host_on Samples.online)))
  = [lit "CAM_002"] /\
  Host.outcome_of (start_camera (lit "CAM_009") Samples.gate_cameras
                     (Samples.host_on Samples.online))
  = Finished false.
Proof. vm_compute. auto. Qed.

(** *** What the methods keep *)

Lemma consistent_setitem m id cam :
  consistent m -> camera_id cam = id ->
  consistent (set_cameras (setitem (cameras m) id cam) m).
Proof.
  intros [D K] Hid. split; cbn [cameras set_cameras].
  - apply distinct_setitem. exact D.
  - intros k c G.
    destruct (str_eqb k id) eqn:E.
    + apply JsonFacts.str_eqb_eq in E. subst k.
      rewrite getitem_setitem in G. congruence.
    + rewrite getitem_setitem_other in G; [eauto|].
      intros ->. rewrite JsonFacts.str_eqb_refl in E. discriminate.
Qed.

Lemma consistent_cameras m m' :
  cameras m' = cameras m -> consistent m -> consistent m'.
Proof. unfold consistent. intros ->. auto. Qed.

(** X13: the cameras stay a well-formed dict: starting from the empty
    manager, the three methods keep each id once in [self.cameras],
    every entry under the id it records. *)
Theorem manager_stays_consistent :
  consistent Cam.init /\
  (forall m h, consistent m ->
     (forall id gate url name,
        consistent (state_of (add_camera id gate url name m h))) /\
     (forall id, consistent (state_of (start_camera id m h))) /\
     (forall id, consistent (state_of (stop_camera id m h)))).
Proof.
  split.
  { split; [reflexivity|]. intros id cam [=]. }
  intros m h C. split; [|split].
  - intros id gate url name. rewrite add_camera_result.
    apply consistent_setitem; [exact C|reflexivity].
  - intros id. destruct (getitem (cameras m) id) as [cam|] eqn:G.
    + rewrite (start_camera_known _ cam) by exact G.
      apply consistent_setitem; [exact C|]. cbn. apply (proj2 C). exact G.
    + rewrite start_camera_unknown; [exact C|].
      unfold contains. rewrite G. reflexivity.
  - intros id. destruct (stop_camera_cameras id m h) as [E _].
    destruct (getitem (cameras m) id) as [cam|] eqn:G.
    + split.
      * rewrite E. apply distinct_setitem. exact (proj1 C).
      * rewrite E. intros k c Gk.
        destruct (consistent_setitem m id (set_status (lit "inactive") cam) C)
          as [_ K]; [cbn; apply (proj2 C); exact G|].
        apply K. exact Gk.
    + eapply consistent_cameras; [exact E|exact C].
Qed.

End CamFacts.

(* ================================================================== *)
(** ** Facts about [LicensePlateAIServer] *)

Module ServerFacts.
Import Py Net Ws Host Cam Server WsFacts ClientFacts CamFacts.
Local Open Scope host_scope.

(** *** Calls into the client and the manager *)

Lemma on_client_result {A} (m : Ws.Task A) s h :
  on_client m s h = client_result s h (m (websocket_client s) (net h)).
Proof.
  unfold on_client, zoom, on_net, client_result.
  destruct (m (websocket_client s) (net h)) as [[[a|e] c] w]; reflexivity.
Qed.

Lemma set_camera_manager_same s :
  set_camera_manager (camera_manager s) s = s.
Proof. destruct s; reflexivity. Qed.

Lemma on_manager_stop id s h :
  on_manager (stop_camera id) s h
  = (Finished tt, set_camera_manager (stopped id (camera_manager s)) s,
     note (HLog INFO (MsgStoppedCamera id))
       (match getitem (active_streams (camera_manager s)) id with
        | Some capture => note (HRelease capture) h
        | None => h
        end)).
Proof. unfold on_manager, zoom. rewrite stop_camera_result. reflexivity. Qed.

Lemma stop_all ids : forall s h,
  for_each ids (fun id => on_manager (stop_camera id)) s h
  = (Finished tt,
     set_camera_manager (all_stopped ids (camera_manager s)) s,
     stop_notes ids (camera_manager s) h).
Proof.
  induction ids as [|id ids IH]; intros s h.
  - cbn [for_each all_stopped fold_left stop_notes]. unfold Host.ret.
    rewrite set_camera_manager_same. reflexivity.
  - cbn [for_each all_stopped fold_left stop_notes]. unfold Host.bind at 1.
    rewrite on_manager_stop. rewrite IH. destruct s; reflexivity.
Qed.

(** *** The entries after every camera was stopped *)

Lemma stopped_keys id m :
  map fst (cameras (stopped id m)) = map fst (cameras m).
Proof.
  unfold stopped. cbn [cameras].
  destruct (getitem (cameras m) id) as [cam|] eqn:G; [|reflexivity].
  apply keys_setitem_known. apply contains_getitem. eauto.
Qed.

Lemma all_stopped_keys ids : forall m,
  map fst (cameras (all_stopped ids m)) = map fst (cameras m).
Proof.
  induction ids as [|id ids IH]; intros m; [reflexivity|].
  cbn [all_stopped fold_left]. fold (all_stopped ids (stopped id m)).
  rewrite IH. apply stopped_keys.
Qed.

Lemma stopped_entry id m k cam :
  getitem (cameras (stopped id m)) k = Some cam ->
  (k = id /\ is_active cam = false) \/
  (k <> id /\ getitem (cameras m) k = Some cam).
Proof.
  unfold stopped. cbn [cameras].
  destruct (str_eqb k id) eqn:E.
  - apply JsonFacts.str_eqb_eq in E. subst k.
    destruct (getitem (cameras m) id) as [c0|] eqn:G.
    + rewrite getitem_setitem. intros [= <-]. left. split; reflexivity.
    + congruence.
  - assert (N : k <> id).
    { intros ->. rewrite JsonFacts.str_eqb_refl in E. discriminate. }
    destruct (getitem (cameras m) id) as [c0|] eqn:G.
    + rewrite getitem_setitem_other by exact N. auto.
    + auto.
Qed.

Lemma all_stopped_inactive ids : forall m k cam,
  In k ids ->
  getitem (cameras (all_stopped ids m)) k = Some cam ->
  is_active cam = false.
Proof.
  induction ids as [|id ids IH]; intros m k cam HI G; [destruct HI|].
  cbn [all_stopped fold_left] in G. fold (all_stopped ids (stopped id m)) in G.
  destruct (in_dec (list_eq_dec Z.eq_dec) k ids) as [I|NI].
  - eapply IH; eassumption.
  - destruct HI as [->|HI]; [|contradiction].
    (* the entry was made inactive by this call and not touched again *)
    assert (K : forall ids m, ~ In k ids ->
                getitem (cameras (all_stopped ids m)) k = getitem (cameras m) k).
    { clear. induction ids as [|i ids IH]; intros m NI; [reflexivity|].
      cbn [all_stopped fold_left]. fold (all_stopped ids (stopped i m)).
      rewrite IH by (intros HI; apply NI; right; exact HI).
      unfold stopped. cbn [cameras].
      destruct (getitem (cameras m) i) as [c0|]; [|reflexivity].
      apply getitem_setitem_other. intros ->. apply NI. left. reflexivity. }
    rewrite K in G by exact NI.
    apply stopped_entry in G. destruct G as [[_ A]|[N _]]; [exact A|].
    contradiction.
Qed.

Lemma in_getitem {V} (d : list (str * V)) k v :
  distinct_keys (map fst d) = true -> In (k, v) d -> getitem d k = Some v.
Proof.
  induction d as [|[k1 v1] d IH]; cbn [map fst distinct_keys In getitem];
    [intros _ []|].
  intros D HI. apply andb_true_iff in D. destruct D as [A B].
  apply negb_true_iff in A.
  destruct HI as [[= -> ->]|HI].
  - rewrite JsonFacts.str_eqb_refl. reflexivity.
  - destruct (str_eqb k k1) eqn:E; [|auto].
    apply JsonFacts.str_eqb_eq in E. subst k1. exfalso.
    assert (G : getitem d k = Some v) by auto.
    assert (X : getitem d k = None) by (apply getitem_keys; exact A).
    congruence.
Qed.

Lemma no_active_entry d :
  distinct_keys (map fst d) = true ->
  (forall k cam, getitem d k = Some cam -> is_active cam = false) ->
  filter (fun item => is_active (snd item)) d = [].
Proof.
  intros D H.
  assert (F : forall item, In item d -> is_active (snd item) = false).
  { intros [k cam] HI. cbn [snd]. apply (H k). apply in_getitem; assumption. }
  clear D H. induction d as [|item d IH]; [reflexivity|].
  cbn [filter]. rewrite (F item) by (left; reflexivity).
  apply IH. intros i HI. apply F. right. exact HI.
Qed.

Lemma all_stopped_no_active_distinct m :
  distinct_keys (map fst (cameras m)) = true ->
  filter (fun item => is_active (snd item))
         (cameras (all_stopped (map fst (cameras m)) m)) = [].
Proof.
  intros D. apply no_active_entry.
  - rewrite all_stopped_keys. exact D.
  - intros k cam G. eapply all_stopped_inactive; [|exact G].
    rewrite <- (all_stopped_keys (map fst (cameras m)) m).
    assert (X : getitem (cameras (all_stopped (map fst (cameras m)) m)) k
                <> None) by congruence.
    destruct (existsb (str_eqb k)
                (map fst (cameras (all_stopped (map fst (cameras m)) m))))
      eqn:E.
    + apply existsb_exists in E. destruct E as (k' & HI & Hk).
      apply JsonFacts.str_eqb_eq in Hk. subst k'. exact HI.
    + apply getitem_keys in E. contradiction.
Qed.

Lemma all_stopped_no_active m :
  consistent m ->
  filter (fun item => is_active (snd item))
         (cameras (all_stopped (map fst (cameras m)) m)) = [].
Proof. intros [D _]. apply all_stopped_no_active_distinct. exact D. Qed.

(** *** [send_status_update] *)

Lemma send_status_update_result s h :
  send_status_update s h
  = (on_client (send_processing_status (status_now s h)) ;; Host.ret tt)
      s (after_reads s h).
Proof.
  unfold send_status_update, status_now, uptime_read, after_reads.
  unfold Host.bind at 1, Host.self at 1. unfold Host.bind at 1.
  destruct (start_time (stats s)) as [start|]; reflexivity.
Qed.

Lemma active_gates_serializable m :
  forallb serializable (active_gates m) = true.
Proof.
  unfold active_gates.
  induction (filter (fun item => is_active (snd item)) (cameras m))
    as [|item l IH]; [reflexivity|].
  cbn [map forallb serializable]. exact IH.
Qed.

Lemma status_serializable s uptime memory cpu :
  serializable (status_data s uptime memory cpu) = true.
Proof.
  unfold status_data. cbn [serializable].
  rewrite active_gates_serializable. reflexivity.
Qed.

Lemma length_active_gates m :
  List.length (active_gates m) = List.length (get_active_cameras m).
Proof.
  unfold active_gates, get_active_cameras. rewrite !length_map. reflexivity.
Qed.

(** X14: the status [send_status_update] sends is consistent: the number it
    gives as [activeCameras] is the length of its list [activeGates],
    and [status] is ["processing"] or ["idle"] as [self.processing]
    says; the uptime is 0 as long as no start time is set.  The dict
    can always be serialised.  The call reads the clock and two random
    numbers, hands the dict to [send_processing_status] and changes
    nothing of the server but what the client changes of itself. *)
Theorem status_update_counts_agree s h :
  send_status_update s h
  = (on_client (send_processing_status (status_now s h)) ;; Host.ret tt)
      s (after_reads s h) /\
  net (after_reads s h) = net h /\
  journal (after_reads s h) = journal h /\
  (exists d,
     status_now s h = VDict d /\
     dict_get d (lit "activeGates")
     = Some (VList (active_gates (camera_manager s))) /\
     dict_get d (lit "activeCameras")
     = Some (VInt (Z.of_nat (List.length (active_gates (camera_manager s))))) /\
     dict_get d (lit "status")
     = Some (VStr (if processing s then lit "processing" else lit "idle")) /\
     (start_time (stats s) = None ->
      dict_get d (lit "uptime") = Some (VInt 0)) /\
     serializable (VDict d) = true) /\
  camera_manager (state_of (send_status_update s h)) = camera_manager s /\
  processing (state_of (send_status_update s h)) = processing s /\
  stats (state_of (send_status_update s h)) = stats s.
Proof.
  split; [apply send_status_update_result|].
  split; [unfold after_reads; destruct (start_time (stats s)); reflexivity|].
  split; [unfold after_reads; destruct (start_time (stats s)); reflexivity|].
  split.
  - eexists. split; [reflexivity|].
    split; [reflexivity|]. split.
    { rewrite length_active_gates. reflexivity. }
    split; [reflexivity|]. split.
    + intros Hs. unfold uptime_read. rewrite Hs. reflexivity.
    + apply status_serializable.
  - rewrite send_status_update_result. unfold Host.bind.
    rewrite on_client_result.
    destruct (send_processing_status (status_now s h) (websocket_client s)
                (net (after_reads s h))) as [[[b|e] c] w];
      cbn; auto.
Qed.

Lemma active_gates_representable m :
  (forall item, In item (cameras m) ->
                forallb scalar (gate_id (snd item)) = true) ->
  forallb json_representable (active_gates m) = true.
Proof.
  intros H. unfold active_gates.
  apply forallb_forall. intros v Hv. apply in_map_iff in Hv.
  destruct Hv as (item & <- & Hi). apply filter_In in Hi.
  cbn [json_representable]. apply H. exact (proj1 Hi).
Qed.

Lemma status_representable s uptime memory cpu :
  float_ok memory = true -> float_ok cpu = true ->
  (forall item, In item (cameras (camera_manager s)) ->
                forallb scalar (gate_id (snd item)) = true) ->
  json_representable (status_data s uptime memory cpu) = true.
Proof.
  intros Hm Hc Hg. unfold status_data.
  cbn [json_representable map fst].
  rewrite (active_gates_representable _ Hg), Hm, Hc.
  destruct (processing s); vm_compute; reflexivity.
Qed.

Lemma status_dumps lim s h ts :
  Json.fits lim (Json.max_depth lim)
    (envelope (lit "processing_status") (status_now s h) ts) = true ->
  Json.dumps_within lim
    (envelope (lit "processing_status") (status_now s h) ts)
  = Json.Returns
      (Json.encode (envelope (lit "processing_status") (status_now s h) ts)).
Proof.
  intros Hf. apply JsonFacts.dumps_within_encodable.
  unfold Json.encodable. rewrite Hf.
  unfold envelope. cbn [serializable].
  unfold status_now. rewrite status_serializable. reflexivity.
Qed.

(** X15: every status the server sends can be read back as it was
    built.  On an open connection, with the status within the limits
    of the interpreter, [send_status_update] writes one frame, and
    nothing else but its debug line; [json.loads] turns the text of
    that frame into the envelope of type [processing_status] whose data
    is the status, with the same gates and counters, and whose
    timestamp is the time of the call, as long as the gate ids and the
    timestamp are text (Unicode scalar values) and the two usage
    figures are not NaN. *)
Theorem status_frame_round_trip s h sock :
  websocket (websocket_client s) = Some sock ->
  closed (net h) sock = false ->
  send_outcome (net h) (sends (net h)) = None ->
  Json.fits (limits (net h)) (Json.max_depth (limits (net h)))
    (VDict [(lit "type", VStr (lit "processing_status"));
            (lit "data", status_now s h);
            (lit "timestamp", VStr (clock (net h)))]) = true ->
  float_ok (uniform_outcome h (draws h)) = true ->
  float_ok (uniform_outcome h (S (draws h))) = true ->
  forallb scalar (clock (net h)) = true ->
  (forall item, In item (cameras (camera_manager s)) ->
                forallb scalar (gate_id (snd item)) = true) ->
  exists text,
    Host.outcome_of (send_status_update s h) = Finished tt /\
    trace (net (host_of (send_status_update s h)))
    = trace (net h) ++ [EvSend sock text;
                        EvLog DEBUG (MsgSent (lit "processing_status"))] /\
    sends (net (host_of (send_status_update s h))) = S (sends (net h)) /\
    Json.loads text
    = Some (VDict [(lit "type", VStr (lit "processing_status"));
                   (lit "data", status_now s h);
                   (lit "timestamp", VStr (clock (net h)))]).
Proof.
  intros Hw Hc Ho Hf Hm Hcpu Hts Hg.
  set (text := Json.encode (envelope (lit "processing_status")
                              (status_now s h) (clock (net h)))).
  exists text.
  assert (N : net (after_reads s h) = net h)
    by (unfold after_reads; destruct (start_time (stats s)); reflexivity).
  assert (Hsend : send_processing_status (status_now s h) (websocket_client s)
                    (net (after_reads s h))
                  = (Returned true, websocket_client s,
                     frame_sent sock (lit "processing_status") text (net h))).
  { rewrite N. unfold send_processing_status.
    apply send_message_open; try assumption.
    apply status_dumps. exact Hf. }
  rewrite send_status_update_result. unfold Host.bind.
  rewrite on_client_result, Hsend.
  cbn [client_result Host.ret Host.outcome_of host_of fst snd net with_net
       frame_sent trace sends emit count_send].
  split; [reflexivity|]. split; [rewrite <- app_assoc; reflexivity|].
  split; [reflexivity|].
  destruct (JsonFacts.loads_dumps
              (envelope (lit "processing_status") (status_now s h)
                        (clock (net h)))) as (text' & E1 & E2).
  { apply envelope_representable; [reflexivity| |exact Hts].
    apply status_representable; assumption. }
  unfold Json.dumps in E1. destruct (serializable _); [|discriminate].
  injection E1 as <-. exact E2.
Qed.

(** *** [stop_processing] *)

Lemma net_stop_notes ids : forall m h, net (stop_notes ids m h) = net h.
Proof.
  induction ids as [|id ids IH]; intros m h; [reflexivity|].
  cbn [stop_notes]. rewrite IH.
  destruct (getitem (active_streams m) id); reflexivity.
Qed.

Lemma stop_processing_result s h :
  stop_processing s h
  = (on_client
       (send_processing_status
          (status_now (server_stopped s) (host_stopped s h))) ;;
     Host.ret tt)
      (server_stopped s)
      (after_reads (server_stopped s) (host_stopped s h)).
Proof.
  unfold stop_processing.
  unfold Host.bind at 1. unfold Host.log at 1, Host.effect at 1.
  unfold Host.bind at 1. unfold Host.update at 1.
  unfold Host.bind at 1. unfold Host.self at 1.
  unfold Host.bind at 1. rewrite stop_all.
  rewrite send_status_update_result. reflexivity.
Qed.

Lemma server_stopped_idle s :
  consistent (camera_manager s) ->
  processing (server_stopped s) = false /\
  active_gates (camera_manager (server_stopped s)) = [] /\
  get_active_cameras (camera_manager (server_stopped s)) = [].
Proof.
  intros C. unfold server_stopped, active_gates, get_active_cameras.
  cbn [processing camera_manager set_camera_manager set_processing].
  rewrite all_stopped_no_active by exact C. auto.
Qed.

(** X16: [stop_processing] stops every camera before it reports: the status
    it sends says ["idle"], lists no active gate and counts 0 active
    cameras, whatever was active before.  When it returns,
    [self.processing] is [False] and no camera is active; no camera
    was removed and the counters are as they were. *)
Theorem stop_processing_reports_idle s h :
  consistent (camera_manager s) ->
  stop_processing s h
  = (on_client
       (send_processing_status
          (status_now (server_stopped s) (host_stopped s h))) ;;
     Host.ret tt)
      (server_stopped s)
      (after_reads (server_stopped s) (host_stopped s h)) /\
  (exists d,
     status_now (server_stopped s) (host_stopped s h) = VDict d /\
     dict_get d (lit "status") = Some (VStr (lit "idle")) /\
     dict_get d (lit "activeGates") = Some (VList []) /\
     dict_get d (lit "activeCameras") = Some (VInt 0)) /\
  net (after_reads (server_stopped s) (host_stopped s h)) = net h /\
  processing (state_of (stop_processing s h)) = false /\
  get_active_cameras (camera_manager (state_of (stop_processing s h))) = [] /\
  map fst (cameras (camera_manager (state_of (stop_processing s h))))
  = map fst (cameras (camera_manager s)) /\
  stats (state_of (stop_processing s h)) = stats s.
Proof.
  intros C. destruct (server_stopped_idle s C) as (P & G & A).
  split; [apply stop_processing_result|]. split.
  { eexists. split; [reflexivity|].
    unfold status_now, status_data. cbn [dict_get str_eqb lit].
    rewrite P, G, A. cbn. auto. }
  split.
  { unfold after_reads, host_stopped.
    destruct (start_time (stats (server_stopped s)));
      cbn [net count_draw count_now]; rewrite net_stop_notes; reflexivity. }
  rewrite stop_processing_result. unfold Host.bind.
  rewrite on_client_result.
  destruct (send_processing_status _ _ _) as [[[b|e] c] w];
    cbn [client_result state_of fst snd Host.ret processing camera_manager
         stats set_websocket_client];
    (split; [exact P|]); (split; [exact A|]);
    (split; [|reflexivity]);
    unfold server_stopped; cbn [camera_manager set_camera_manager];
    apply all_stopped_keys.
Qed.

(** *** [shutdown] *)

Lemma shutdown_steps s h b c2 w2 w3 :
  let s1 := server_stopped s in
  let h1 := host_stopped s (note (HLog INFO MsgShuttingDown) h) in
  send_processing_status (status_now s1 h1) (websocket_client s) (net h)
  = (Returned b, c2, w2) ->
  Ws.disconnect c2 w2 = (Returned tt, set_running false c2, w3) ->
  shutdown s h
  = (Finished tt, set_websocket_client (set_running false c2) s1,
     note (HLog INFO MsgShutdownComplete)
       (note HCancelTasks (with_net w3 (after_reads s1 h1)))).
Proof.
  intros s1 h1 Hsend Hdis. unfold shutdown.
  unfold Host.bind at 1. unfold Host.log at 1, Host.effect at 1.
  unfold Host.bind at 1. rewrite stop_processing_result.
  fold s1. fold h1. unfold Host.bind at 1. rewrite on_client_result.
  assert (N : net (after_reads s1 h1) = net h).
  { unfold after_reads, h1, host_stopped.
    destruct (start_time (stats s1));
      cbn [net count_draw count_now]; rewrite net_stop_notes; reflexivity. }
  rewrite N.
  change (websocket_client s1) with (websocket_client s).
  rewrite Hsend. cbn [client_result Host.ret].
  unfold Host.bind at 1. rewrite on_client_result.
  cbn [websocket_client set_websocket_client net with_net].
  rewrite Hdis. reflexivity.
Qed.

(** X17: after [shutdown] everything is stopped, whatever the server was
    doing and whether the backend could be reached or not:
    [self.processing] is [False], no camera is active, the client has
    [running] [False] and no open connection.  The call returns as
    long as the transport raises nothing but exceptions; the last
    things it does are to cancel the other tasks and to log. *)
Theorem shutdown_leaves_everything_stopped s h :
  consistent (camera_manager s) ->
  raises_exceptions_only (net h) ->
  Host.outcome_of (shutdown s h) = Finished tt /\
  processing (state_of (shutdown s h)) = false /\
  get_active_cameras (camera_manager (state_of (shutdown s h))) = [] /\
  running (websocket_client (state_of (shutdown s h))) = false /\
  down (websocket_client (state_of (shutdown s h)))
       (net (host_of (shutdown s h))) = true /\
  stats (state_of (shutdown s h)) = stats s /\
  exists before,
    journal (host_of (shutdown s h))
    = before ++ [HCancelTasks; HLog INFO MsgShutdownComplete].
Proof.
  intros C [Hc Hs].
  set (s1 := server_stopped s).
  set (h1 := host_stopped s (note (HLog INFO MsgShuttingDown) h)).
  destruct (send_message_returns (lit "processing_status") (status_now s1 h1)
              (websocket_client s) (net h) Hc Hs) as (b & Hb).
  destruct (send_message (lit "processing_status") (status_now s1 h1)
              (websocket_client s) (net h)) as [[o c2] w2] eqn:Hsend.
  cbn [Net.outcome_of fst] in Hb. subst o.
  destruct (disconnect_result c2 w2) as (w3 & Hdis & Hdown & _).
  rewrite (shutdown_steps s h b c2 w2 w3) by assumption.
  fold s1. fold h1.
  destruct (server_stopped_idle s C) as (P & _ & A).
  cbn [Host.outcome_of state_of host_of fst snd processing camera_manager
       websocket_client stats set_websocket_client net note with_net journal].
  split; [reflexivity|]. split; [exact P|]. split; [exact A|].
  split; [reflexivity|]. split; [exact Hdown|]. split; [reflexivity|].
  eexists. rewrite <- app_assoc. reflexivity.
Qed.


Lemma shutdown_refused s h e :
  down (websocket_client s) (net h) = true ->
  connect_outcome (net h) (connects (net h)) = Some e ->
  Net.is_Exception e = true ->
  shutdown s h
  = (Finished tt,
     set_websocket_client (set_running false (websocket_client s))
       (server_stopped s),
     note (HLog INFO MsgShutdownComplete)
       (note HCancelTasks
          (with_net
             (connect_failed e (websocket_client s)
                (emit (EvLog WARNING MsgNotConnected) (net h)))
             (after_reads (server_stopped s)
                (host_stopped s (note (HLog INFO MsgShuttingDown) h)))))).
Proof.
  intros Hd He Hx.
  apply (shutdown_steps s h false (websocket_client s)
           (connect_failed e (websocket_client s)
              (emit (EvLog WARNING MsgNotConnected) (net h)))).
  - unfold send_processing_status. rewrite send_message_transmit, Hd.
    rewrite (connect_failure _ _ e) by assumption. reflexivity.
  - apply disconnect_down. exact Hd.
Qed.

(** X18: [shutdown] on a server whose client is not connected still talks
    to the backend: the status update of [stop_processing] makes
    [send_message] connect.  If the connection is refused, that one
    attempt is all that happens on the network; if it is accepted, the
    status is sent on the new connection, which [disconnect] then
    closes. *)
Theorem shutdown_when_down_connects_once s h :
  down (websocket_client s) (net h) = true ->
  let c := websocket_client s in
  let w := net h in
  (forall e,
     connect_outcome w (connects w) = Some e -> Net.is_Exception e = true ->
     Host.outcome_of (shutdown s h) = Finished tt /\
     trace (net (host_of (shutdown s h)))
     = trace w ++ [EvLog WARNING MsgNotConnected;
                   EvLog INFO (MsgConnecting (server_url c));
                   EvConnect (server_url c);
                   EvLog ERROR (MsgConnectionFailed e)] /\
     sockets (net (host_of (shutdown s h))) = sockets w) /\
  (connect_outcome w (connects w) = None ->
   send_outcome w (sends w) = None ->
   Json.fits (limits w) (Json.max_depth (limits w))
     (envelope (lit "processing_status")
        (status_now (server_stopped s)
           (host_stopped s (note (HLog INFO MsgShuttingDown) h)))
        (clock w)) = true ->
   exists text,
     Json.dumps_within (limits w)
       (envelope (lit "processing_status")
          (status_now (server_stopped s)
             (host_stopped s (note (HLog INFO MsgShuttingDown) h)))
          (clock w)) = Json.Returns text /\
     Host.outcome_of (shutdown s h) = Finished tt /\
     trace (net (host_of (shutdown s h)))
     = trace w ++ [EvLog WARNING MsgNotConnected;
                   EvLog INFO (MsgConnecting (server_url c));
                   EvConnect (server_url c);
                   EvLog INFO MsgConnected;
                   EvSend (List.length (sockets w)) text;
                   EvLog DEBUG (MsgSent (lit "processing_status"));
                   EvClose (List.length (sockets w));
                   EvLog INFO MsgDisconnected] /\
     sockets (net (host_of (shutdown s h))) = sockets w ++ [true]).
Proof.
  intros Hd c w.
  set (s1 := server_stopped s).
  set (h1 := host_stopped s (note (HLog INFO MsgShuttingDown) h)).
  split.
  - intros e He Hx.
    rewrite (shutdown_refused s h e) by assumption.
    cbn [Host.outcome_of host_of fst snd net note with_net].
    split; [reflexivity|]. split; [|reflexivity].
    unfold connect_failed. cbn [trace emit count_connect].
    rewrite <- !app_assoc. reflexivity.
  - intros Hn Ho Hf.
    set (text := Json.encode (envelope (lit "processing_status")
                                (status_now s1 h1) (clock w))).
    exists text. split; [apply status_dumps; exact Hf|].
    assert (Hsend : send_processing_status (status_now s1 h1) c w
                    = (Returned true, connected_client c w,
                       frame_sent (List.length (sockets w))
                         (lit "processing_status") text
                         (connect_succeeded c
                            (emit (EvLog WARNING MsgNotConnected) w)))).
    { unfold send_processing_status.
      apply send_message_reopens; try assumption.
      apply status_dumps. exact Hf. }
    set (w2 := frame_sent (List.length (sockets w)) (lit "processing_status")
                 text (connect_succeeded c
                         (emit (EvLog WARNING MsgNotConnected) w))) in *.
    assert (Hdis : Ws.disconnect (connected_client c w) w2
                   = (Returned tt, set_running false (connected_client c w),
                      socket_closed (List.length (sockets w)) w2)).
    { apply disconnect_open; [reflexivity|].
      unfold closed, w2, frame_sent, connect_succeeded. cbn [sockets emit
        count_send with_sockets count_connect]. apply closed_new_socket. }
    rewrite (shutdown_steps s h _ _ _ _ Hsend Hdis).
    cbn [Host.outcome_of host_of fst snd net note with_net].
    split; [reflexivity|]. split.
    + unfold socket_closed, w2, frame_sent, connect_succeeded.
      cbn [trace emit count_connect count_send with_sockets mark_closed].
      rewrite <- !app_assoc. reflexivity.
    + unfold socket_closed, w2, frame_sent, connect_succeeded.
      cbn [sockets emit count_connect count_send with_sockets mark_closed].
      generalize (sockets w). intros l.
      induction l as [|b0 l IH]; [reflexivity|].
      cbn [List.length app set_closed]. rewrite IH. reflexivity.
Qed.

(** *** [initialize] *)

Lemma setup_cameras_result s h :
  setup_cameras s h
  = (Finished tt,
     set_camera_manager
       (set_cameras (cameras_set_up (cameras (camera_manager s)))
          (camera_manager s)) s,
     note (HLog INFO (MsgAddedCamera (lit "CAM_003") (lit "GATE_003")))
       (note (HLog INFO (MsgAddedCamera (lit "CAM_002") (lit "GATE_002")))
          (note (HLog INFO (MsgAddedCamera (lit "CAM_001") (lit "GATE_001")))
             h))).
Proof. destruct s as [u c m r p st]. destruct m. reflexivity. Qed.

Lemma cameras_set_up_entries d :
  getitem (cameras_set_up d) (lit "CAM_001")
  = Some (new_camera (lit "CAM_001") (lit "GATE_001")
            (lit "rtsp://192.168.1.100:554/stream") (lit "Camera Gate 1")) /\
  getitem (cameras_set_up d) (lit "CAM_002")
  = Some (new_camera (lit "CAM_002") (lit "GATE_002")
            (lit "rtsp://192.168.1.101:554/stream") (lit "Camera Gate 2")) /\
  getitem (cameras_set_up d) (lit "CAM_003")
  = Some (new_camera (lit "CAM_003") (lit "GATE_003")
            (lit "rtsp://192.168.1.102:554/stream") (lit "Camera Gate 3")).
Proof.
  unfold cameras_set_up. split; [|split].
  - rewrite getitem_setitem_other by discriminate.
    rewrite getitem_setitem_other by discriminate.
    apply getitem_setitem.
  - rewrite getitem_setitem_other by discriminate.
    apply getitem_setitem.
  - apply getitem_setitem.
Qed.

Lemma initialize_failure s h e :
  connect_outcome (net h) (connects (net h)) = Some e ->
  Net.is_Exception e = true ->
  initialize s h
  = (Finished false, s,
     with_net (connect_failed e (websocket_client s) (net h))
       (note (HLog INFO MsgInitializing) h)).
Proof.
  intros He Hx. unfold initialize.
  unfold Host.bind at 1. unfold Host.log at 1, Host.effect at 1.
  unfold Host.bind at 1. rewrite on_client_result.
  cbn [net note].
  rewrite (connect_failure _ _ e) by assumption.
  cbn [client_result negb]. unfold Host.ret.
  destruct s; reflexivity.
Qed.

(** X19: [initialize] connects before anything else.  If the connection
    fails it returns [False] and the server is as it was: no camera is
    registered, no signal handler installed and no task created.  If
    it succeeds, the three cameras of the configuration are registered,
    all inactive, then the handlers of [SIGINT] and [SIGTERM] are
    installed and the task listening for commands is created; the
    server is not yet processing. *)
Theorem initialize_connects_first s h :
  let c := websocket_client s in
  let w := net h in
  (forall e,
     connect_outcome w (connects w) = Some e -> Net.is_Exception e = true ->
     initialize s h
     = (Finished false, s,
        with_net (connect_failed e c w) (note (HLog INFO MsgInitializing) h))) /\
  (connect_outcome w (connects w) = None ->
   Host.outcome_of (initialize s h) = Finished true /\
   websocket_client (state_of (initialize s h)) = connected_client c w /\
   net (host_of (initialize s h)) = connect_succeeded c w /\
   cameras (camera_manager (state_of (initialize s h)))
   = cameras_set_up (cameras (camera_manager s)) /\
   (forall id gate url name,
      In (id, gate, url, name)
         [(lit "CAM_001", lit "GATE_001",
           lit "rtsp://192.168.1.100:554/stream", lit "Camera Gate 1");
          (lit "CAM_002", lit "GATE_002",
           lit "rtsp://192.168.1.101:554/stream", lit "Camera Gate 2");
          (lit "CAM_003", lit "GATE_003",
           lit "rtsp://192.168.1.102:554/stream", lit "Camera Gate 3")] ->
      getitem (cameras (camera_manager (state_of (initialize s h)))) id
      = Some {| camera_id := id; gate_id := gate; stream_url := url;
                device_name := name; status := lit "inactive";
                last_frame_time := None |}) /\
   (cameras (camera_manager s) = [] ->
    map fst (cameras (camera_manager (state_of (initialize s h))))
    = [lit "CAM_001"; lit "CAM_002"; lit "CAM_003"] /\
    get_active_cameras (camera_manager (state_of (initialize s h))) = []) /\
   processing (state_of (initialize s h)) = processing s /\
   journal (host_of (initialize s h))
   = journal h
     ++ [HLog INFO MsgInitializing;
         HLog INFO (MsgAddedCamera (lit "CAM_001") (lit "GATE_001"));
         HLog INFO (MsgAddedCamera (lit "CAM_002") (lit "GATE_002"));
         HLog INFO (MsgAddedCamera (lit "CAM_003") (lit "GATE_003"));
         HSignal SIGINT; HSignal SIGTERM; HCreateTask ListenForCommands]).
Proof.
  intros c w. split.
  - intros e He Hx. apply initialize_failure; assumption.
  - intros Hn.
    assert (E : initialize s h
                = (Finished true,
                   set_camera_manager
                     (set_cameras (cameras_set_up (cameras (camera_manager s)))
                        (camera_manager s))
                     (set_websocket_client (connected_client c w) s),
                   note (HCreateTask ListenForCommands)
                     (note (HSignal SIGTERM)
                        (note (HSignal SIGINT)
                           (note (HLog INFO (MsgAddedCamera (lit "CAM_003")
                                               (lit "GATE_003")))
                              (note (HLog INFO (MsgAddedCamera (lit "CAM_002")
                                                  (lit "GATE_002")))
                                 (note (HLog INFO (MsgAddedCamera (lit "CAM_001")
                                                     (lit "GATE_001")))
                                    (with_net (connect_succeeded c w)
                                       (note (HLog INFO MsgInitializing)
                                          h))))))))).
    { unfold initialize.
      unfold Host.bind at 1. unfold Host.log at 1, Host.effect at 1.
      unfold Host.bind at 1. rewrite on_client_result.
      cbn [net note]. fold c. fold w.
      rewrite connect_success by assumption.
      cbn [client_result negb].
      unfold Host.bind at 1. rewrite setup_cameras_result.
      reflexivity. }
    rewrite E.
    cbn [Host.outcome_of state_of host_of fst snd websocket_client
         camera_manager processing set_camera_manager set_websocket_client
         cameras set_cameras net note with_net journal].
    split; [reflexivity|]. split; [reflexivity|]. split; [reflexivity|].
    split; [reflexivity|]. split.
    { destruct (cameras_set_up_entries (cameras (camera_manager s)))
        as (E1 & E2 & E3).
      intros id gate url name [[= <- <- <- <-]|[[= <- <- <- <-]|[[= <- <- <- <-]|[]]]];
        assumption. }
    split.
    { intros ->. split; reflexivity. }
    split; [reflexivity|].
    rewrite <- !app_assoc. reflexivity.
Qed.

(** A fresh server and a backend that accepts the connection. *)
Example initialize_fresh_server :
  let r := initialize (Server.init Samples.url0)
             (Samples.host_on Samples.accepting) in
  Host.outcome_of r = Finished true /\
  map fst (cameras (camera_manager (state_of r)))
  = [lit "CAM_001"; lit "CAM_002"; lit "CAM_003"] /\
  get_active_cameras (camera_manager (state_of r)) = [] /\
  down (websocket_client (state_of r)) (net (host_of r)) = false.
Proof. vm_compute. auto. Qed.

(** *** [start_processing] *)

Lemma start_camera_result id m h :
  start_camera id m h
  = (Finished (contains (cameras m) id), started id m h, start_note id m h).
Proof.
  unfold started, start_note, contains.
  destruct (getitem (cameras m) id) as [cam|] eqn:G.
  - apply (start_camera_known _ cam). exact G.
  - apply start_camera_unknown. unfold contains. rewrite G. reflexivity.
Qed.

Lemma start_all ids : forall s h,
  for_each ids (fun id => on_manager (start_camera id) ;; Host.ret tt) s h
  = (Finished tt,
     set_camera_manager (fst (all_started ids (camera_manager s) h)) s,
     snd (all_started ids (camera_manager s) h)).
Proof.
  induction ids as [|id ids IH]; intros s h.
  - cbn [for_each all_started fst snd]. unfold Host.ret.
    rewrite set_camera_manager_same. reflexivity.
  - cbn [for_each all_started]. unfold Host.bind at 1. unfold Host.bind at 1.
    unfold on_manager, zoom. rewrite start_camera_result.
    unfold Host.ret at 1. rewrite IH. destruct s; reflexivity.
Qed.

Lemma started_keys id m h :
  map fst (cameras (started id m h)) = map fst (cameras m).
Proof.
  unfold started.
  destruct (getitem (cameras m) id) as [cam|] eqn:G; [|reflexivity].
  cbn [cameras set_cameras].
  apply keys_setitem_known. apply contains_getitem. eauto.
Qed.

Lemma map_setitem_same {V W} (g : V -> W) (d : list (str * V)) k v c :
  getitem d k = Some c -> g v = g c ->
  map (fun item => g (snd item)) (setitem d k v)
  = map (fun item => g (snd item)) d.
Proof.
  induction d as [|[k1 v1] d IH]; cbn [getitem setitem map snd];
    [discriminate|].
  destruct (str_eqb k k1); cbn [map snd].
  - intros [= ->] E. rewrite E. reflexivity.
  - intros G E. rewrite IH by assumption. reflexivity.
Qed.

Lemma started_gates id m h :
  map (fun item => gate_id (snd item)) (cameras (started id m h))
  = map (fun item => gate_id (snd item)) (cameras m).
Proof.
  unfold started.
  destruct (getitem (cameras m) id) as [cam|] eqn:G; [|reflexivity].
  cbn [cameras set_cameras].
  apply (map_setitem_same gate_id _ _ _ cam); [exact G|reflexivity].
Qed.

Lemma started_entry id m h k cam :
  getitem (cameras (started id m h)) k = Some cam ->
  (k = id /\ is_active cam = true) \/
  (k <> id /\ getitem (cameras m) k = Some cam).
Proof.
  unfold started.
  destruct (str_eqb k id) eqn:E.
  - apply JsonFacts.str_eqb_eq in E. subst k.
    destruct (getitem (cameras m) id) as [c0|] eqn:G.
    + cbn [cameras set_cameras]. rewrite getitem_setitem.
      intros [= <-]. left. split; reflexivity.
    + congruence.
  - assert (N : k <> id).
    { intros ->. rewrite JsonFacts.str_eqb_refl in E. discriminate. }
    destruct (getitem (cameras m) id) as [c0|] eqn:G.
    + cbn [cameras set_cameras].
      rewrite getitem_setitem_other by exact N. auto.
    + auto.
Qed.

Lemma all_started_keys ids : forall m h,
  map fst (cameras (fst (all_started ids m h))) = map fst (cameras m).
Proof.
  induction ids as [|id ids IH]; intros m h; [reflexivity|].
  cbn [all_started]. rewrite IH. apply started_keys.
Qed.

Lemma all_started_gates ids : forall m h,
  map (fun item => gate_id (snd item)) (cameras (fst (all_started ids m h)))
  = map (fun item => gate_id (snd item)) (cameras m).
Proof.
  induction ids as [|id ids IH]; intros m h; [reflexivity|].
  cbn [all_started]. rewrite IH. apply started_gates.
Qed.

Lemma net_all_started ids : forall m h,
  net (snd (all_started ids m h)) = net h.
Proof.
  induction ids as [|id ids IH]; intros m h; [reflexivity|].
  cbn [all_started]. rewrite IH. unfold start_note.
  destruct (getitem (cameras m) id); reflexivity.
Qed.

Lemma all_started_entry ids : forall m h k cam,
  getitem (cameras (fst (all_started ids m h))) k = Some cam ->
  (In k ids -> is_active cam = true) /\
  (~ In k ids -> getitem (cameras m) k = Some cam).
Proof.
  induction ids as [|id ids IH]; intros m h k cam G.
  - split; [intros []|auto].
  - cbn [all_started] in G. apply IH in G. destruct G as [A B].
    destruct (in_dec (list_eq_dec Z.eq_dec) k ids) as [I|NI].
    + split; [auto|]. intros N. exfalso. apply N. right. exact I.
    + specialize (B NI). apply started_entry in B.
      destruct B as [[-> Ac]|[N G]].
      * split; [auto|]. intros X. exfalso. apply X. left. reflexivity.
      * split.
        -- intros [E|I]; [congruence|contradiction].
        -- auto.
Qed.

Lemma filter_all {A} (p : A -> bool) (l : list A) :
  (forall x, In x l -> p x = true) -> filter p l = l.
Proof.
  induction l as [|x l IH]; intros H; [reflexivity|].
  cbn [filter]. rewrite (H x) by (left; reflexivity).
  rewrite IH; [reflexivity|]. intros y Hy. apply H. right. exact Hy.
Qed.

Lemma key_in_keys {V} (d : list (str * V)) k v :
  In (k, v) d -> In k (map fst d).
Proof. intros H. apply (in_map fst) in H. exact H. Qed.

Lemma all_started_all_active m h :
  consistent m ->
  filter (fun item => is_active (snd item))
         (cameras (fst (all_started (map fst (cameras m)) m h)))
  = cameras (fst (all_started (map fst (cameras m)) m h)).
Proof.
  intros [D _]. apply filter_all. intros [k cam] HI. cbn [snd].
  assert (D' : distinct_keys
                 (map fst (cameras (fst (all_started (map fst (cameras m)) m h))))
               = true).
  { rewrite all_started_keys. exact D. }
  assert (G := in_getitem _ _ _ D' HI).
  apply all_started_entry in G. apply (proj1 G).
  rewrite <- (all_started_keys (map fst (cameras m)) m h).
  eapply key_in_keys. exact HI.
Qed.

Lemma server_started_active s h :
  consistent (camera_manager s) ->
  processing (server_started s h) = true /\
  start_time (stats (server_started s h)) = Some (now_outcome h (nows h)) /\
  get_active_cameras (camera_manager (server_started s h))
  = map fst (cameras (camera_manager s)) /\
  active_gates (camera_manager (server_started s h))
  = map (fun item => VStr (gate_id (snd item))) (cameras (camera_manager s)).
Proof.
  intros C. unfold server_started, get_active_cameras, active_gates.
  cbn [processing stats start_time camera_manager set_camera_manager
       set_start_time set_processing].
  rewrite all_started_all_active by exact C.
  split; [reflexivity|]. split; [reflexivity|]. split.
  - apply all_started_keys.
  - rewrite <- (map_map (fun item => gate_id (snd item)) VStr).
    rewrite all_started_gates. rewrite map_map. reflexivity.
Qed.

Lemma create_tasks ids : forall (s : LicensePlateAIServer) h,
  for_each ids (fun id => Host.effect (HCreateTask (ProcessCameraStream id))) s h
  = (Finished tt, s,
     notes (map (fun id => HCreateTask (ProcessCameraStream id)) ids) h).
Proof.
  induction ids as [|id ids IH]; intros s h; [reflexivity|].
  cbn [for_each map notes fold_left]. unfold Host.bind at 1.
  unfold Host.effect at 1. rewrite IH. reflexivity.
Qed.

Lemma notes_app a b h : notes (a ++ b) h = notes b (notes a h).
Proof. unfold notes. apply fold_left_app. Qed.

Lemma journal_notes evs : forall h, journal (notes evs h) = journal h ++ evs.
Proof.
  induction evs as [|ev evs IH]; intros h.
  - cbn. rewrite app_nil_r. reflexivity.
  - cbn [notes fold_left]. fold (notes evs (note ev h)). rewrite IH.
    cbn [journal note]. rewrite <- app_assoc. reflexivity.
Qed.

Lemma net_after_reads s h : net (after_reads s h) = net h.
Proof. unfold after_reads. destruct (start_time (stats s)); reflexivity. Qed.

Lemma start_processing_steps gathered s h b c2 w2 :
  let s1 := server_started s h in
  let h1 := host_started s h in
  send_processing_status (status_now s1 h1) (websocket_client s) (net h)
  = (Returned b, c2, w2) ->
  start_processing gathered s h
  = Host.try_except gathered
      (except_CancelledError (Host.log INFO MsgTasksCancelled))
      (set_websocket_client c2 s1)
      (notes (tasks_created (get_active_cameras (camera_manager s1)))
         (with_net w2 (after_reads s1 h1))).
Proof.
  intros s1 h1 Hsend. unfold start_processing.
  unfold Host.bind at 1. unfold Host.update at 1.
  unfold Host.bind at 1. unfold datetime_now at 1.
  unfold Host.bind at 1. unfold Host.update at 1.
  unfold Host.bind at 1. unfold Host.log at 1, Host.effect at 1.
  unfold Host.bind at 1. unfold Host.self at 1.
  unfold Host.bind at 1. rewrite start_all.
  cbn [camera_manager set_start_time set_processing].
  fold (server_started s h). fold (host_started s h). fold s1. fold h1.
  unfold Host.bind at 1. rewrite send_status_update_result.
  unfold Host.bind at 1. rewrite on_client_result.
  rewrite net_after_reads.
  assert (N : net h1 = net h).
  { unfold h1, host_started. rewrite net_all_started. reflexivity. }
  rewrite N. change (websocket_client s1) with (websocket_client s).
  rewrite Hsend. cbn [client_result Host.ret].
  unfold Host.bind at 1. unfold Host.self at 1.
  unfold Host.bind at 1. rewrite create_tasks.
  cbn [camera_manager set_websocket_client].
  unfold Host.bind at 1. unfold Host.effect at 1.
  unfold tasks_created. rewrite notes_app. reflexivity.
Qed.

(** X20: [start_processing] starts every registered camera before it
    reports and before it creates a task: the status it sends says
    ["processing"] and lists the gate of every camera, in the order of
    registration; then one task is created for each camera, and one
    for the periodic status.  The start time is the time read first.
    The call then waits for the tasks; a cancellation met while it
    waits is logged and not raised. *)
Theorem start_processing_starts_every_camera gathered s h :
  consistent (camera_manager s) ->
  raises_exceptions_only (net h) ->
  exists b c2 w2,
    send_processing_status
      (status_now (server_started s h) (host_started s h))
      (websocket_client s) (net h)
    = (Returned b, c2, w2) /\
    start_processing gathered s h
    = Host.try_except gathered
        (except_CancelledError (Host.log INFO MsgTasksCancelled))
        (set_websocket_client c2 (server_started s h))
        (notes (tasks_created (map fst (cameras (camera_manager s))))
           (with_net w2
              (after_reads (server_started s h) (host_started s h)))) /\
    journal (notes (tasks_created (map fst (cameras (camera_manager s))))
               (with_net w2
                  (after_reads (server_started s h) (host_started s h))))
    = journal (host_started s h)
      ++ tasks_created (map fst (cameras (camera_manager s))) /\
    processing (server_started s h) = true /\
    start_time (stats (server_started s h)) = Some (now_outcome h (nows h)) /\
    get_active_cameras (camera_manager (server_started s h))
    = map fst (cameras (camera_manager s)) /\
    (exists d,
       status_now (server_started s h) (host_started s h) = VDict d /\
       dict_get d (lit "status") = Some (VStr (lit "processing")) /\
       dict_get d (lit "activeGates")
       = Some (VList (map (fun item => VStr (gate_id (snd item)))
                          (cameras (camera_manager s)))) /\
       dict_get d (lit "activeCameras")
       = Some (VInt (Z.of_nat (List.length (cameras (camera_manager s)))))) /\
    (forall s2 h2 s' h',
       gathered s2 h2 = (Failed (Exn CancelledError), s', h') ->
       Host.try_except gathered
         (except_CancelledError (Host.log INFO MsgTasksCancelled)) s2 h2
       = (Finished tt, s', note (HLog INFO MsgTasksCancelled) h')).
Proof.
  intros C [Hc Hs].
  set (s1 := server_started s h). set (h1 := host_started s h).
  destruct (send_message_returns (lit "processing_status") (status_now s1 h1)
              (websocket_client s) (net h) Hc Hs) as (b & Hb).
  destruct (send_message (lit "processing_status") (status_now s1 h1)
              (websocket_client s) (net h)) as [[o c2] w2] eqn:Hsend.
  cbn [Net.outcome_of fst] in Hb. subst o.
  destruct (server_started_active s h C) as (P & T & A & G). fold s1 in P, T, A, G.
  exists b, c2, w2. split; [exact Hsend|]. split.
  { rewrite (start_processing_steps gathered s h b c2 w2) by exact Hsend.
    fold s1. fold h1. rewrite A. reflexivity. }
  split.
  { rewrite journal_notes. unfold after_reads.
    destruct (start_time (stats s1)); reflexivity. }
  split; [exact P|]. split; [exact T|]. split; [exact A|]. split.
  { eexists. split; [reflexivity|].
    unfold status_now, status_data. cbn [dict_get str_eqb lit].
    rewrite P, G, A. cbn. rewrite length_map. auto. }
  intros s2 h2 s' h' Hg. unfold Host.try_except. rewrite Hg. reflexivity.
Qed.

(** *** [run] *)

Lemma run_result gathered s h :
  run gathered s h
  = Host.try_finally
      (Host.try_except
         (initialized <- initialize ;;
          if negb initialized then Host.log ERROR MsgInitializeFailed
          else
            Host.log INFO MsgInitialized ;;
            Host.log INFO MsgStartingLoop ;;
            start_processing gathered)
         (Host.except_Exception (fun e =>
            Host.log ERROR (MsgServerError e) ;;
            message <- py_str e ;;
            now <- datetime_now ;;
            on_client (send_error (server_error message (iso now))) ;;
            Host.ret tt)))
      shutdown s h.
Proof. reflexivity. Qed.

(** X21: when the backend cannot be reached, [run] gives up after two
    connection attempts: the one of [initialize] and the one the
    status update of [shutdown] makes.  Nothing is sent, no camera is
    registered, no signal handler installed and no task created; the
    processing never starts, whatever the tasks would have done. *)
Theorem run_without_backend gathered s h e1 e2 :
  down (websocket_client s) (net h) = true ->
  connect_outcome (net h) (connects (net h)) = Some e1 ->
  Net.is_Exception e1 = true ->
  connect_outcome (net h) (S (connects (net h))) = Some e2 ->
  Net.is_Exception e2 = true ->
  let url := server_url (websocket_client s) in
  Host.outcome_of (run gathered s h) = Finished tt /\
  trace (net (host_of (run gathered s h)))
  = trace (net h)
    ++ [EvLog INFO (MsgConnecting url); EvConnect url;
        EvLog ERROR (MsgConnectionFailed e1);
        EvLog WARNING MsgNotConnected;
        EvLog INFO (MsgConnecting url); EvConnect url;
        EvLog ERROR (MsgConnectionFailed e2)] /\
  connects (net (host_of (run gathered s h))) = S (S (connects (net h))) /\
  sends (net (host_of (run gathered s h))) = sends (net h) /\
  sockets (net (host_of (run gathered s h))) = sockets (net h) /\
  processing (state_of (run gathered s h)) = false /\
  map fst (cameras (camera_manager (state_of (run gathered s h))))
  = map fst (cameras (camera_manager s)) /\
  (cameras (camera_manager s) = [] ->
   journal (host_of (run gathered s h))
   = journal h
     ++ [HLog INFO MsgInitializing; HLog ERROR MsgInitializeFailed;
         HLog INFO MsgShuttingDown; HLog INFO MsgStoppingRecognition;
         HCancelTasks; HLog INFO MsgShutdownComplete]).
Proof.
  intros Hd H1 X1 H2 X2 url.
  set (c := websocket_client s). set (w := net h).
  set (h2 := note (HLog ERROR MsgInitializeFailed)
               (with_net (connect_failed e1 c w)
                  (note (HLog INFO MsgInitializing) h))).
  assert (E : run gathered s h = shutdown s h2).
  { rewrite run_result. unfold Host.try_finally, Host.try_except.
    unfold Host.bind at 1. rewrite (initialize_failure s h e1) by assumption.
    cbn [negb]. unfold Host.log at 1, Host.effect at 1.
    fold c. fold w. fold h2.
    assert (R : shutdown s h2
                = (Finished tt,
                   set_websocket_client (set_running false c) (server_stopped s),
                   note (HLog INFO MsgShutdownComplete)
                     (note HCancelTasks
                        (with_net
                           (connect_failed e2 c
                              (emit (EvLog WARNING MsgNotConnected) (net h2)))
                           (after_reads (server_stopped s)
                              (host_stopped s
                                 (note (HLog INFO MsgShuttingDown) h2))))))).
    { apply shutdown_refused; [exact Hd|exact H2|exact X2]. }
    rewrite R. reflexivity. }
  rewrite E.
  rewrite (shutdown_refused s h2 e2); [|exact Hd|exact H2|exact X2].
  fold c.
  cbn [Host.outcome_of state_of host_of fst snd net note with_net
       processing camera_manager set_websocket_client journal].
  split; [reflexivity|]. split.
  { unfold h2, connect_failed.
    cbn [net note with_net trace emit count_connect].
    rewrite <- !app_assoc. reflexivity. }
  split; [reflexivity|]. split; [reflexivity|]. split; [reflexivity|].
  split; [reflexivity|]. split.
  { unfold server_stopped. cbn [camera_manager set_camera_manager].
    apply all_stopped_keys. }
  intros Hcam. unfold after_reads, host_stopped, server_stopped.
  rewrite Hcam.
  destruct (start_time (stats _));
    cbn [map stop_notes journal count_draw count_now note with_net h2];
    unfold h2; cbn [journal note with_net];
    rewrite <- !app_assoc; reflexivity.
Qed.

Lemma shutdown_send_raises s h e c2 w2 :
  send_processing_status
    (status_now (server_stopped s)
       (host_stopped s (note (HLog INFO MsgShuttingDown) h)))
    (websocket_client s) (net h)
  = (Raised e, c2, w2) ->
  Host.outcome_of (shutdown s h) = Failed (Exn e).
Proof.
  intros Hsend. unfold shutdown.
  unfold Host.bind at 1. unfold Host.log at 1, Host.effect at 1.
  unfold Host.bind at 1. rewrite stop_processing_result.
  unfold Host.bind at 1. rewrite on_client_result.
  rewrite net_after_reads.
  assert (N : net (host_stopped s (note (HLog INFO MsgShuttingDown) h)) = net h).
  { unfold host_stopped. rewrite net_stop_notes. reflexivity. }
  rewrite N.
  change (websocket_client (server_stopped s)) with (websocket_client s).
  rewrite Hsend. reflexivity.
Qed.

Lemma shutdown_finished s h :
  Host.outcome_of (shutdown s h) = Finished tt ->
  processing (state_of (shutdown s h)) = false /\
  running (websocket_client (state_of (shutdown s h))) = false /\
  down (websocket_client (state_of (shutdown s h)))
       (net (host_of (shutdown s h))) = true /\
  camera_manager (state_of (shutdown s h))
  = all_stopped (map fst (cameras (camera_manager s))) (camera_manager s) /\
  exists before,
    journal (host_of (shutdown s h))
    = before ++ [HCancelTasks; HLog INFO MsgShutdownComplete].
Proof.
  intros Hfin.
  destruct (send_processing_status
              (status_now (server_stopped s)
                 (host_stopped s (note (HLog INFO MsgShuttingDown) h)))
              (websocket_client s) (net h)) as [[[b|e] c2] w2] eqn:Hsend.
  - destruct (disconnect_result c2 w2) as (w3 & Hdis & Hdown & _).
    rewrite (shutdown_steps s h b c2 w2 w3) by assumption.
    cbn [Host.outcome_of state_of host_of fst snd processing camera_manager
         websocket_client set_websocket_client net note with_net journal].
    split; [reflexivity|]. split; [reflexivity|]. split; [exact Hdown|].
    split; [reflexivity|].
    eexists. rewrite <- app_assoc. reflexivity.
  - rewrite (shutdown_send_raises s h e c2 w2 Hsend) in Hfin. discriminate.
Qed.

(** X22: whenever [run] returns, the server is shut down: [processing] is
    [False], the client has [running] [False] and no open connection,
    no camera is active, and the last things done were to cancel the
    other tasks and to log the end of the shutdown.  This holds
    whatever [initialize] and the tasks did, since [shutdown] runs in
    the [finally] clause. *)
Theorem run_ends_shut_down gathered s h :
  Host.outcome_of (run gathered s h) = Finished tt ->
  processing (state_of (run gathered s h)) = false /\
  running (websocket_client (state_of (run gathered s h))) = false /\
  down (websocket_client (state_of (run gathered s h)))
       (net (host_of (run gathered s h))) = true /\
  (distinct_keys
     (map fst (cameras (camera_manager (state_of (run gathered s h))))) = true ->
   get_active_cameras (camera_manager (state_of (run gathered s h))) = []) /\
  exists before,
    journal (host_of (run gathered s h))
    = before ++ [HCancelTasks; HLog INFO MsgShutdownComplete].
Proof.
  rewrite run_result. unfold Host.try_finally.
  destruct (Host.try_except _ _ s h) as [[r s1] h1].
  intros Hfin.
  assert (Hs : Host.outcome_of (shutdown s1 h1) = Finished tt).
  { destruct (shutdown s1 h1) as [[[[]|e] s2] h2]; [reflexivity|].
    cbn in Hfin. discriminate. }
  destruct (shutdown_finished s1 h1 Hs) as (P & R & D & M & J).
  destruct (shutdown s1 h1) as [[[[]|e] s2] h2]; [|discriminate].
  cbn [Host.outcome_of state_of host_of fst snd] in *.
  split; [exact P|]. split; [exact R|]. split; [exact D|].
  split; [|exact J].
  intros Hk. unfold get_active_cameras. rewrite M in *.
  rewrite all_stopped_keys in Hk.
  rewrite all_stopped_no_active_distinct by exact Hk. reflexivity.
Qed.

(** *** The theorems at concrete inputs *)

Lemma gate_cameras_consistent : consistent Samples.gate_cameras.
Proof.
  split; [reflexivity|]. intros id cam.
  unfold Samples.gate_cameras. cbn [cameras getitem].
  destruct (str_eqb id (lit "CAM_001")) eqn:E1.
  - apply JsonFacts.str_eqb_eq in E1. intros [= <-]. symmetry. exact E1.
  - destruct (str_eqb id (lit "CAM_002")) eqn:E2; [|discriminate].
    apply JsonFacts.str_eqb_eq in E2. intros [= <-]. symmetry. exact E2.
Qed.

Lemma online_raises_exceptions_only : raises_exceptions_only Samples.online.
Proof. split; intros n e [=]. Qed.

Lemma stop_processing_reports_idle_witness :
  get_active_cameras
    (camera_manager
       (state_of (stop_processing Samples.busy_server
                    (Samples.host_on Samples.online)))) = [].
Proof.
  destruct (stop_processing_reports_idle Samples.busy_server
              (Samples.host_on Samples.online) gate_cameras_consistent)
    as (_ & _ & _ & _ & A & _).
  exact A.
Defined.

Lemma shutdown_leaves_everything_stopped_witness :
  down (websocket_client
          (state_of (shutdown Samples.busy_server
                       (Samples.host_on Samples.online))))
       (net (host_of (shutdown Samples.busy_server
                        (Samples.host_on Samples.online)))) = true.
Proof.
  destruct (shutdown_leaves_everything_stopped Samples.busy_server
              (Samples.host_on Samples.online) gate_cameras_consistent
              online_raises_exceptions_only)
    as (_ & _ & _ & _ & A & _).
  exact A.
Defined.

Lemma start_processing_starts_every_camera_witness :
  processing (server_started Samples.busy_server
                (Samples.host_on Samples.online)) = true /\
  get_active_cameras
    (camera_manager (server_started Samples.busy_server
                       (Samples.host_on Samples.online)))
  = [lit "CAM_001"; lit "CAM_002"].
Proof.
  destruct (start_processing_starts_every_camera
              (Host.raise (Exn CancelledError)) Samples.busy_server
              (Samples.host_on Samples.online) gate_cameras_consistent
              online_raises_exceptions_only)
    as (b & c2 & w2 & _ & _ & _ & P & _ & A & _).
  exact (conj P A).
Defined.

Lemma run_without_backend_witness :
  Host.outcome_of (run (Host.ret tt) (Server.init Samples.url0)
                     (Samples.host_on Samples.refusing)) = Finished tt /\
  connects (net (host_of (run (Host.ret tt) (Server.init Samples.url0)
                            (Samples.host_on Samples.refusing)))) = 2%nat.
Proof.
  destruct (run_without_backend (Host.ret tt) (Server.init Samples.url0)
              (Samples.host_on Samples.refusing) (OSError 111) (OSError 111)
              eq_refl eq_refl eq_refl eq_refl eq_refl)
    as (A & _ & B & _).
  exact (conj A B).
Defined.

Lemma run_ends_shut_down_witness :
  down (websocket_client
          (state_of (run (Host.raise (Exn CancelledError))
                       (Server.init Samples.url0)
                       (Samples.host_on Samples.accepting))))
       (net (host_of (run (Host.raise (Exn CancelledError))
                        (Server.init Samples.url0)
                        (Samples.host_on Samples.accepting)))) = true.
Proof.
  destruct (run_ends_shut_down (Host.raise (Exn CancelledError))
              (Server.init Samples.url0) (Samples.host_on Samples.accepting)
              ltac:(vm_compute; reflexivity))
    as (_ & _ & A & _).
  exact A.
Defined.

(** A run against a backend that accepts the connection, the tasks
    being cancelled while [start_processing] waits for them: one
    connection, two status frames (["processing"], then ["idle"]),
    and the connection closed at the end. *)
Example run_cancelled :
  let r := run (Host.raise (Exn CancelledError)) (Server.init Samples.url0)
             (Samples.host_on Samples.accepting) in
  Host.outcome_of r = Finished tt /\
  connects (net (host_of r)) = 1%nat /\
  sends (net (host_of r)) = 2%nat /\
  sockets (net (host_of r)) = [true] /\
  get_active_cameras (camera_manager (state_of r)) = [] /\
  filter (fun ev => match ev with HCreateTask _ => true | _ => false end)
         (journal (host_of r))
  = [HCreateTask ListenForCommands;
     HCreateTask (ProcessCameraStream (lit "CAM_001"));
     HCreateTask (ProcessCameraStream (lit "CAM_002"));
     HCreateTask (ProcessCameraStream (lit "CAM_003"));
     HCreateTask PeriodicStatusUpdate].
Proof. vm_compute. auto 7. Qed.

Lemma status_frame_round_trip_witness :
  exists text,
    Host.outcome_of (send_status_update Samples.busy_server
                       (Samples.host_on Samples.online)) = Finished tt /\
    trace (net (host_of (send_status_update Samples.busy_server
                           (Samples.host_on Samples.online))))
    = trace (net (Samples.host_on Samples.online))
      ++ [EvSend 0 text; EvLog DEBUG (MsgSent (lit "processing_status"))] /\
    sends (net (host_of (send_status_update Samples.busy_server
                           (Samples.host_on Samples.online))))
    = S (sends (net (Samples.host_on Samples.online))) /\
    Json.loads text
    = Some (VDict [(lit "type", VStr (lit "processing_status"));
                   (lit "data", status_now Samples.busy_server
                                  (Samples.host_on Samples.online));
                   (lit "timestamp",
                    VStr (clock (net (Samples.host_on Samples.online))))]).
Proof.
  apply (status_frame_round_trip Samples.busy_server
           (Samples.host_on Samples.online) 0%nat
           eq_refl eq_refl eq_refl ltac:(vm_compute; reflexivity)
           eq_refl eq_refl eq_refl).
  intros item [<-|[<-|[]]]; reflexivity.
Defined.

Lemma shutdown_when_down_connects_once_witness :
  trace (net (host_of (shutdown (Server.init Samples.url0)
                         (Samples.host_on Samples.refusing))))
  = [EvLog WARNING MsgNotConnected;
     EvLog INFO (MsgConnecting Samples.url0);
     EvConnect Samples.url0;
     EvLog ERROR (MsgConnectionFailed (OSError 111))].
Proof.
  destruct (proj1 (shutdown_when_down_connects_once
                     (Server.init Samples.url0)
                     (Samples.host_on Samples.refusing) eq_refl)
                  (OSError 111) eq_refl eq_refl)
    as (_ & A & _).
  exact A.
Defined.

End ServerFacts.

(* ================================================================== *)
(** ** Facts about [SimpleLicensePlateClient] *)

Module SimpleFacts.
Import Py Net Host Simple WsFacts.
Local Open Scope host_scope.

(** Unfold the combinators of a method down to the process. *)
Ltac srun :=
  cbv beta zeta delta [Simple.connect send_detection send_status send_error
    websocket_send_json Simple.now_isoformat detection_message
    Host.try_except Host.except_Exception Host.bind Host.ret Host.raise
    Host.self Host.update Host.effect Host.log datetime_now random_uniform
    random_randint on_net subscript py_getitem
    Host.outcome_of state_of host_of
    Net.ret Net.raise json_dumps ws_send websockets_connect];
  cbn [fst snd negb websocket backend_url Simple.set_websocket
       net uniform_outcome randint_outcome draws now_outcome nows journal
       with_net note count_draw count_now Host.is_Exception
       Net.is_Exception].

(** *** Sending without a connection *)

Lemma send_json_offline message c h :
  offline c (net h) = true ->
  exists e h',
    websocket_send_json message c h = (Failed e, c, h') /\
    Host.is_Exception e = true /\ net h' = net h.
Proof.
  unfold offline. intros H. srun.
  destruct (websocket c) as [sock|].
  - destruct (Json.dumps_within (limits (net h)) message) as [text|e].
    + cbn. rewrite H. exists (Exn ConnectionClosed). eexists.
      split; [reflexivity|]. split; reflexivity.
    + cbn. exists (Exn (json_exn e)). eexists.
      split; [reflexivity|]. split; [destruct e|]; reflexivity.
  - exists (Exn AttributeError), h. auto.
Qed.

Ltac offline_send H :=
  cbv beta iota zeta delta [send_detection send_status send_error Host.bind
    Simple.now_isoformat datetime_now random_randint random_uniform
    Host.ret Host.try_except];
  match goal with
  | |- context [websocket_send_json ?m ?c ?h'] =>
      let e := fresh "e" in
      let h2 := fresh "h" in
      let E := fresh "E" in
      let He := fresh "He" in
      let Hn := fresh "Hn" in
      destruct (send_json_offline m c h' H) as (e & h2 & E & He & Hn);
      rewrite E; unfold Host.except_Exception; rewrite He;
      eexists; split; [reflexivity|exact Hn]
  end.

Lemma send_detection_offline data c h :
  offline c (net h) = true ->
  exists h',
    send_detection data c h = (Finished false, c, h') /\ net h' = net h.
Proof. intros H. offline_send H. Qed.

Lemma send_status_offline status processed_count c h :
  offline c (net h) = true ->
  exists h',
    send_status status processed_count c h = (Finished false, c, h') /\
    net h' = net h.
Proof. intros H. offline_send H. Qed.

Lemma send_error_offline error_message severity c h :
  offline c (net h) = true ->
  exists h',
    send_error error_message severity c h = (Finished false, c, h') /\
    net h' = net h.
Proof. intros H. offline_send H. Qed.

(** X23: the simple client never connects on its own: while it has no
    connection, or a closed one, [send_detection], [send_status] and
    [send_error] return [False], leave the client as it is and do
    nothing on the network; the exception ([AttributeError] on a
    client that never connected, [ConnectionClosed] on a closed
    connection) is logged. *)
Theorem simple_sends_never_connect c h :
  offline c (net h) = true ->
  (forall data,
     Host.outcome_of (send_detection data c h) = Finished false /\
     state_of (send_detection data c h) = c /\
     net (host_of (send_detection data c h)) = net h) /\
  (forall status processed_count,
     Host.outcome_of (send_status status processed_count c h) = Finished false /\
     state_of (send_status status processed_count c h) = c /\
     net (host_of (send_status status processed_count c h)) = net h) /\
  (forall error_message severity,
     Host.outcome_of (send_error error_message severity c h) = Finished false /\
     state_of (send_error error_message severity c h) = c /\
     net (host_of (send_error error_message severity c h)) = net h).
Proof.
  intros H. split; [|split].
  - intros data.
    destruct (send_detection_offline data c h H) as (h' & -> & Hn). auto.
  - intros status pc.
    destruct (send_status_offline status pc c h H) as (h' & -> & Hn). auto.
  - intros msg sev.
    destruct (send_error_offline msg sev c h H) as (h' & -> & Hn). auto.
Qed.

(** *** The log line of [send_detection] *)

Lemma send_json_open message c h sock text :
  websocket c = Some sock -> closed (net h) sock = false ->
  send_outcome (net h) (sends (net h)) = None ->
  Json.dumps_within (limits (net h)) message = Json.Returns text ->
  websocket_send_json message c h
  = (Finished tt, c,
     with_net (count_send (emit (EvSend sock text) (net h))) h).
Proof.
  intros Hw Hc Ho Hd. srun. rewrite Hw, Hd. cbn [net with_net].
  rewrite Hc, Ho. reflexivity.
Qed.

(** X24: [send_detection] builds its log line from the keys
    ["licensePlate"], ["action"] and ["confidence"] of the detection,
    after the frame was written and inside the [try].  A detection that
    lacks one of them is therefore sent and reported as not sent: the
    [KeyError] is caught, logged as a send error, and the call returns
    [False].  With the three keys present it returns [True]. *)
Theorem send_detection_needs_its_keys c h sock d text :
  websocket c = Some sock -> closed (net h) sock = false ->
  send_outcome (net h) (sends (net h)) = None ->
  Json.dumps_within (limits (net h))
    (detection_message (VDict d) (iso (now_outcome h (nows h))))
  = Json.Returns text ->
  let sent :=
    with_net (count_send (emit (EvSend sock text) (net h))) (count_now h) in
  (forall key,
     missing_key d = Some key ->
     send_detection (VDict d) c h
     = (Finished false, c,
        note (HLog ERROR (MsgDetectionSendError (KeyError key))) sent)) /\
  (forall plate action confidence,
     dict_get d (lit "licensePlate") = Some plate ->
     dict_get d (lit "action") = Some action ->
     dict_get d (lit "confidence") = Some confidence ->
     send_detection (VDict d) c h
     = (Finished true, c,
        note (HLog INFO (MsgSentDetection plate action confidence)) sent)).
Proof.
  intros Hw Hc Ho Hd sent.
  assert (E : websocket_send_json
                (detection_message (VDict d) (iso (now_outcome h (nows h))))
                c (count_now h)
              = (Finished tt, c, sent)).
  { exact (send_json_open _ c (count_now h) sock text Hw Hc Ho Hd). }
  split.
  - intros key Hk.
    cbv beta iota zeta delta [send_detection Host.bind Simple.now_isoformat
      datetime_now Host.ret Host.try_except].
    rewrite E. unfold missing_key in Hk.
    cbv beta iota zeta delta [py_getitem Host.ret Host.raise
      Host.except_Exception Host.is_Exception Host.log Host.effect Host.bind].
    destruct (dict_get d (lit "licensePlate"));
      [|injection Hk as <-; reflexivity].
    destruct (dict_get d (lit "action"));
      [|injection Hk as <-; reflexivity].
    destruct (dict_get d (lit "confidence"));
      [discriminate|injection Hk as <-; reflexivity].
  - intros plate action confidence H1 H2 H3.
    cbv beta iota zeta delta [send_detection Host.bind Simple.now_isoformat
      datetime_now Host.ret Host.try_except].
    rewrite E.
    cbv beta iota zeta delta [py_getitem Host.ret Host.raise
      Host.except_Exception Host.is_Exception Host.log Host.effect Host.bind].
    rewrite H1, H2, H3. reflexivity.
Qed.

(** *** [connect], [disconnect], then a send *)

Lemma simple_connect_success c h :
  connect_outcome (net h) (connects (net h)) = None ->
  Simple.connect c h
  = (Finished true,
     Simple.set_websocket (Some (List.length (sockets (net h)))) c,
     note (HLog INFO MsgSimpleConnected)
       (with_net
          (with_sockets (sockets (net h) ++ [false])
             (count_connect (emit (EvConnect (backend_url c)) (net h))))
          (note (HLog INFO (MsgSimpleConnecting (backend_url c))) h))).
Proof. intros Hn. srun. rewrite Hn. reflexivity. Qed.

(** X25: once disconnected, the simple client stays disconnected: after
    [connect] and [disconnect], a send returns [False] and attempts
    nothing, so that one connection was made in all and no frame was
    written. *)
Theorem simple_client_stays_disconnected c h error_message severity :
  connect_outcome (net h) (connects (net h)) = None ->
  let r := (Simple.connect ;; on_net Simple.disconnect ;;
            send_error error_message severity) c h in
  Host.outcome_of r = Finished false /\
  offline (state_of r) (net (host_of r)) = true /\
  connects (net (host_of r)) = S (connects (net h)) /\
  sends (net (host_of r)) = sends (net h) /\
  sockets (net (host_of r)) = sockets (net h) ++ [true].
Proof.
  intros Hn r.
  set (c1 := Simple.set_websocket (Some (List.length (sockets (net h)))) c).
  set (w1 := with_sockets (sockets (net h) ++ [false])
               (count_connect (emit (EvConnect (backend_url c)) (net h)))).
  set (h1 := note (HLog INFO MsgSimpleConnected)
               (with_net w1
                  (note (HLog INFO (MsgSimpleConnecting (backend_url c))) h))).
  set (w2 := Ws.socket_closed (List.length (sockets (net h))) w1).
  assert (Hoff : offline c1 (net (with_net w2 h1)) = true).
  { unfold offline, c1. cbn [websocket Simple.set_websocket net with_net].
    apply closed_socket_closed. }
  destruct (send_error_offline error_message severity c1 _ Hoff)
    as (h3 & E3 & N3).
  assert (R : r = (Finished false, c1, h3)).
  { subst r. unfold Host.bind at 1.
    rewrite simple_connect_success by assumption. fold c1 w1 h1.
    unfold Host.bind at 1. unfold on_net.
    change (net h1) with w1.
    rewrite (simple_disconnect_open c1 w1 (List.length (sockets (net h))));
      [|reflexivity|unfold closed, w1; cbn [sockets with_sockets];
                    apply closed_new_socket].
    fold w2. exact E3. }
  rewrite R. cbn [Host.outcome_of state_of host_of fst snd].
  split; [reflexivity|]. unfold offline in *. rewrite N3.
  split; [exact Hoff|].
  cbn [net with_net]. unfold w2, w1, Ws.socket_closed.
  cbn [connects sends sockets emit mark_closed with_sockets count_connect].
  split; [reflexivity|]. split; [reflexivity|].
  generalize (sockets (net h)). intros l.
  induction l as [|b0 l IH]; [reflexivity|].
  cbn [List.length app set_closed]. rewrite IH. reflexivity.
Qed.

(** *** The theorems at concrete inputs *)

Lemma simple_sends_never_connect_witness :
  Host.outcome_of
    (send_error (VStr (lit "Simulated processing error")) (VStr (lit "low"))
       (Simple.init Samples.url0) (Samples.host_on Samples.accepting))
  = Finished false.
Proof.
  apply (proj2 (proj2 (simple_sends_never_connect (Simple.init Samples.url0)
                         (Samples.host_on Samples.accepting) eq_refl))).
Defined.

Lemma send_detection_needs_its_keys_witness :
  Host.outcome_of
    (send_detection (VDict Samples.partial_detection) Samples.simple_online
       (Samples.host_on Samples.online))
  = Finished false /\
  sends (net (host_of
    (send_detection (VDict Samples.partial_detection) Samples.simple_online
       (Samples.host_on Samples.online)))) = 1%nat.
Proof.
  rewrite (proj1 (send_detection_needs_its_keys Samples.simple_online
                    (Samples.host_on Samples.online) 0
                    Samples.partial_detection
                    (Json.encode
                       (detection_message (VDict Samples.partial_detection)
                          Samples.clock0))
                    eq_refl eq_refl eq_refl ltac:(vm_compute; reflexivity))
                 (lit "confidence") eq_refl).
  split; reflexivity.
Defined.

Lemma simple_client_stays_disconnected_witness :
  Host.outcome_of
    ((Simple.connect ;; on_net Simple.disconnect ;;
      send_error (VStr (lit "late")) (VStr (lit "low")))
       (Simple.init Samples.url0) (Samples.host_on Samples.accepting))
  = Finished false.
Proof.
  apply (proj1 (simple_client_stays_disconnected (Simple.init Samples.url0)
                  (Samples.host_on Samples.accepting)
                  (VStr (lit "late")) (VStr (lit "low")) eq_refl)).
Defined.

End SimpleFacts.
